(** * Rocket CLI proxy: admission gateway

    A shallow embedding of the proxy-side TypeScript sources
    ([api/v1/generate.ts], [api/v1/limits.ts], [api/health.ts],
    [api/auth/callback.ts], [api/auth/github.ts], [api/auth/device.ts],
    [api/auth/me.ts], [lib/key-rotation.ts], [lib/analytics.ts],
    [lib/auth.ts], [lib/rate-limit.ts]) and the properties of the gateway
    that follow from them.

    Conventions of the embedding:
    - a JavaScript string is a [string] whose characters are its code units
      (header values are byte strings, so one [ascii] per unit is exact
      there); [charCodeAt] is [N_of_ascii];
    - a JavaScript integer is a [Z]; 32-bit operators wrap through [ToInt32];
    - money is a [Q].  The arithmetic of [calculateCost] and the budget
      comparison of the admission are carried out exactly; the threshold
      check of the alerts and the figures of their texts are computed on
      binary64 numbers, each given by its exact value ([Js.double]);
    - [Date.now()] is read once per invocation and passed as [now], in
      milliseconds since the epoch;
    - an [await] that can reject returns a [Result]; the shared store, the
      process-local key table and the outside world are threaded through
      a [World];
    - the store client's reading of a stored text and the URL parser of the
      runtime, which the repository does not contain, are parameters of the
      world ([Platform]);
    - [process.env] is an [Env]; the reads of [lib/analytics.ts] and
      [lib/rate-limit.ts] reject when it does not name the store, the other
      functions are modelled with their client at hand, where a store that
      does not answer is a round trip that fails. *)

From Stdlib Require Import ZArith QArith Qround String Ascii List Bool Lia.
From stdpp Require Import base option gmap strings list sorting pretty.

Local Open Scope string_scope.
Local Open Scope Z_scope.

(** ** JavaScript strings and numbers *)

Module Js.

(** [s.startsWith(p)] *)
Fixpoint startsWith (p s : string) : bool :=
  match p, s with
  | EmptyString, _ => true
  | String a p', String b s' => if Ascii.eqb a b then startsWith p' s' else false
  | String _ _, EmptyString => false
  end.

(** [s.slice(n)] for a non-negative [n] *)
Fixpoint slice (n : nat) (s : string) : string :=
  match n, s with
  | O, _ => s
  | S n', String _ s' => slice n' s'
  | S _, EmptyString => EmptyString
  end.

(** [s.split(sep)[0]] for a one-character separator: the text before the
    first separator, the whole string when there is none. *)
Fixpoint splitHead (sep : ascii) (s : string) : string :=
  match s with
  | EmptyString => EmptyString
  | String c s' => if Ascii.eqb c sep then EmptyString else String c (splitHead sep s')
  end.

(** White space of [String.prototype.trim] among the code units below 256:
    TAB, LF, VT, FF, CR, SP and NBSP. *)
Definition isSpace (c : ascii) : bool :=
  let n := N_of_ascii c in
  ((9 <=? n) && (n <=? 13) || (n =? 32) || (n =? 160))%N.

Fixpoint trimStart (s : string) : string :=
  match s with
  | EmptyString => EmptyString
  | String c s' => if isSpace c then trimStart s' else s
  end.

(** Drops the trailing white space: a character is kept when it is not
    white space or when something is kept after it. *)
Fixpoint trimEnd (s : string) : string :=
  match s with
  | EmptyString => EmptyString
  | String c s' =>
      match trimEnd s' with
      | EmptyString => if isSpace c then EmptyString else String c EmptyString
      | t => String c t
      end
  end.

Definition trim (s : string) : string := trimEnd (trimStart s).

(** [hay.includes(needle)] *)
Fixpoint includes (needle hay : string) : bool :=
  startsWith needle hay ||
  match hay with
  | EmptyString => false
  | String _ hay' => includes needle hay'
  end.

(** [toLowerCase] on code units below 256: A-Z and the Latin-1 capitals
    (all of 0xC0-0xDE but the multiplication sign 0xD7) move up by 32. *)
Definition lowerChar (c : ascii) : ascii :=
  let n := N_of_ascii c in
  if ((65 <=? n) && (n <=? 90) || (192 <=? n) && (n <=? 222) && negb (n =? 215))%N
  then ascii_of_N (n + 32) else c.

Fixpoint toLowerCase (s : string) : string :=
  match s with
  | EmptyString => EmptyString
  | String c s' => String (lowerChar c) (toLowerCase s')
  end.

(** Truthiness of a string: the empty string is falsy. *)
Definition truthy (s : string) : bool :=
  match s with EmptyString => false | _ => true end.

(** [o?.startsWith(p)] and the truthiness of a possibly-missing string. *)
Definition optStartsWith (p : string) (o : option string) : bool :=
  match o with Some s => startsWith p s | None => false end.

Definition optTruthy (o : option string) : bool :=
  match o with Some s => truthy s | None => false end.

(** [a || b] on possibly-missing strings: the first truthy operand. *)
Definition orElse (a : option string) (b : string) : string :=
  match a with
  | Some s => if truthy s then s else b
  | None => b
  end.

(** The 32-bit signed integer a bitwise operator leaves. *)
Definition ToInt32 (z : Z) : Z :=
  let m := z mod 2 ^ 32 in
  if 2 ^ 31 <=? m then m - 2 ^ 32 else m.

(** One digit of [Number.prototype.toString(36)]. *)
Definition digit36 (d : Z) : ascii :=
  if d <? 10 then ascii_of_N (Z.to_N (48 + d)) else ascii_of_N (Z.to_N (87 + d)).

Fixpoint digits36 (fuel : nat) (n : Z) (acc : string) : string :=
  match fuel with
  | O => acc
  | S fuel' =>
      let acc' := String (digit36 (n mod 36)) acc in
      if n / 36 =? 0 then acc' else digits36 fuel' (n / 36) acc'
  end.

(** [n.toString(36)] for a non-negative integer. *)
Definition toString36 (n : Z) : string :=
  digits36 (S (Z.to_nat (Z.log2 n))) n EmptyString.

(** [Math.ceil(n / d)] for integers [n] and a positive [d], through the
    exact quotient. *)
Definition ceilDiv (n d : Z) : Z := Qceiling (inject_Z n / inject_Z d).

(** [Math.round(q)]: the nearest integer, halves going up. *)
Definition round (q : Q) : Z := Qfloor (q + (1 # 2))%Q.

(** The nearest integer, a half going to the even neighbour. *)
Definition roundHalfEven (q : Q) : Z :=
  let f := Qfloor q in
  match Qcompare (q - inject_Z f) (1 # 2) with
  | Lt => f
  | Gt => f + 1
  | Eq => if Z.even f then f else f + 1
  end.

(** The binary64 number nearest to [q], as the rational it is: 53 bits of
    significand, ties to even, subnormals included; magnitudes of 2^1024 and
    more, which overflow, are outside the model.  It is what a decimal
    literal, [parseFloat] and each arithmetic operation on numbers round
    their exact result to. *)
Definition double (q : Q) : Q :=
  if Qeq_bool q 0 then 0%Q
  else
    let a := if Qle_bool 0 q then q else (- q)%Q in
    let guess := Z.log2 (Qnum a) - Z.log2 (Z.pos (Qden a)) in
    let exponent := if Qle_bool (Qpower (2 # 1) guess) a then guess else guess - 1 in
    let ulp := Qpower (2 # 1) (Z.max (exponent - 52) (-1074)) in
    let significand := roundHalfEven (a / ulp) in
    Qred ((if Qle_bool 0 q then 1 else -1) * (inject_Z significand * ulp))%Q.

Definition nl : string := String (ascii_of_N 10) EmptyString.

(** [s.slice(0, n)] *)
Fixpoint take (n : nat) (s : string) : string :=
  match n, s with
  | S n', String c s' => String c (take n' s')
  | _, _ => EmptyString
  end.

(** [s.padStart(width, "0")] *)
Definition padStart0 (width : nat) (s : string) : string :=
  String.concat "" (replicate (width - String.length s) "0") +:+ s.

(** [x.toFixed(4)] for a non-negative number [x], [q] being the exact
    value of [x]: the nearest multiple of 0.0001, the larger one when two are
    equally near. *)
Definition toFixed4 (q : Q) : string :=
  let n := round (q * (10000 # 1))%Q in
  pretty (n / 10000) +:+ "." +:+ padStart0 4 (pretty (n mod 10000)).

(** The decimal digits of [num / den] after the point, for
    [0 <= num < den], as far as [fuel] reaches. *)
Fixpoint fracDigits (fuel : nat) (num den : Z) : string :=
  match fuel with
  | O => EmptyString
  | S fuel' =>
      if num =? 0 then EmptyString
      else pretty (num * 10 / den) +:+ fracDigits fuel' (num * 10 mod den) den
  end.

(** The text of a non-negative number in a template literal, the number
    being given by the decimal it was read from (of fifteen significant digits
    at most, which is then the shortest text that reads back as the number,
    and of a size, from 0.000001 to below 10^21, that is written without an
    exponent): the integer part and, when there is one, the decimal
    expansion. *)
Definition numberToString (q : Q) : string :=
  let n := Qnum q in
  let d := Z.pos (Qden q) in
  if n mod d =? 0 then pretty (n / d)
  else pretty (n / d) +:+ "." +:+ fracDigits 17 (n mod d) d.

(** A value as the store client hands it back from a [get]: what
    [JSON.parse] makes of the text stored, or the text itself.  Objects and
    arrays are not told apart. *)
Inductive value :=
| JNull
| JBool (b : bool)
| JNumber (q : Q)
| JText (s : string)
| JObject.

(** [if (v)] *)
Definition truthyValue (v : value) : bool :=
  match v with
  | JNull => false
  | JBool b => b
  | JNumber q => negb (Qeq_bool q 0)
  | JText s => truthy s
  | JObject => true
  end.

Definition b64char (n : N) : ascii :=
  (if n <? 26 then ascii_of_N (65 + n)
   else if n <? 52 then ascii_of_N (71 + n)
   else if n <? 62 then ascii_of_N (n - 4)
   else if n =? 62 then "+"%char else "/"%char)%N.

(** [Buffer.from(s).toString("base64")], [s] being kept in its UTF-8 bytes. *)
Fixpoint base64 (s : string) : string :=
  match s with
  | EmptyString => EmptyString
  | String a EmptyString =>
      let n := (N_of_ascii a * 65536)%N in
      String (b64char (n / 262144)) (String (b64char (n / 4096 mod 64)) "==")
  | String a (String b EmptyString) =>
      let n := (N_of_ascii a * 65536 + N_of_ascii b * 256)%N in
      String (b64char (n / 262144)) (String (b64char (n / 4096 mod 64))
        (String (b64char (n / 64 mod 64)) "="))
  | String a (String b (String c rest)) =>
      let n := (N_of_ascii a * 65536 + N_of_ascii b * 256 + N_of_ascii c)%N in
      String (b64char (n / 262144)) (String (b64char (n / 4096 mod 64))
        (String (b64char (n / 64 mod 64)) (String (b64char (n mod 64)) (base64 rest))))
  end.

End Js.

(** ** Results of awaited calls *)

Record Error := mkError { message : string }.

Inductive Result (A : Type) : Type :=
| Ok (a : A)
| Throw (e : Error).
Arguments Ok {A} a.
Arguments Throw {A} e.

(** ** Requests *)

Inductive Tier := anonymous | authenticated.

#[global] Instance Tier_eq_dec : EqDecision Tier.
Proof. solve_decision. Defined.

Definition tierName (t : Tier) : string :=
  match t with anonymous => "anonymous" | authenticated => "authenticated" end.

(** What [await request.json()] gives: a rejection, [null], a value that
    is not an object carrying the fields below, or the object. *)
Inductive PromptField :=
| PromptMissing
| PromptOther (isTruthy : bool)
| PromptString (s : string).

Inductive Body :=
| BodyInvalid
| BodyNull
| BodyJson (prompt : PromptField) (temperature maxTokens : option Q).

(** A [Headers] object keeps its names in lower case; [query] is the
    [URLSearchParams] of the request URL. *)
Record Request := mkRequest {
  method : string;
  origin : string;
  headers : gmap string string;
  query : gmap string string;
  body : Body
}.

Definition headers_get (r : Request) (name : string) : option string :=
  headers r !! Js.toLowerCase name.

(** ** Caller identity ([getUserIdentifier], [hashString]) *)

Fixpoint hashLoop (str : string) (hash : Z) : Z :=
  match str with
  | EmptyString => hash
  | String c str' =>
      let char := Z.of_N (N_of_ascii c) in
      let hash1 := Js.ToInt32 (Z.shiftl hash 5) - hash + char in
      hashLoop str' (Js.ToInt32 hash1)
  end.

Definition hashString (str : string) : string :=
  Js.toString36 (Z.abs (hashLoop str 0)).

Record Identity := mkIdentity { userId : string; tier : Tier }.

Definition clientIp (request : Request) : string :=
  let forwardedFor := headers_get request "X-Forwarded-For" in
  let realIp := headers_get request "X-Real-IP" in
  Js.orElse (Js.trim ∘ Js.splitHead "," <$> forwardedFor) (Js.orElse realIp "unknown").

Definition getUserIdentifier (request : Request) : Identity :=
  let authHeader := headers_get request "Authorization" in
  if Js.optStartsWith "Bearer " authHeader then
    let token := Js.slice 7 (default "" authHeader) in
    mkIdentity ("github:" +:+ hashString token) authenticated
  else
    let githubUser := headers_get request "X-GitHub-User" in
    if Js.optTruthy githubUser then
      mkIdentity ("github:" +:+ default "" githubUser) authenticated
    else
      mkIdentity ("ip:" +:+ hashString (clientIp request)) anonymous.

(** ** Configuration ([process.env]) *)

(** [DAILY_BUDGET_CAP] is kept as the value of the decimal text it holds,
    which [parseFloat] rounds to binary64 ([Js.double]); a text that is not a
    number is outside the model. *)
Record Env := mkEnv {
  GEMINI_KEY_PRIMARY : option string;
  GEMINI_KEY_FALLBACK_1 : option string;
  GEMINI_KEY_FALLBACK_2 : option string;
  DAILY_BUDGET_CAP : option Q;
  SLACK_WEBHOOK_URL : option string;
  POSTHOG_API_KEY : option string;
  UPSTASH_REDIS_REST_URL : option string;
  UPSTASH_REDIS_REST_TOKEN : option string
}.

(** [parseFloat(process.env.DAILY_BUDGET_CAP ?? "10")] *)
Definition budgetCapOf (env : Env) : Q := default (10 # 1)%Q (DAILY_BUDGET_CAP env).

(** ** Calendar *)

Definition msPerDay : Z := 86400000.

(** Year, month and day of a day number counted from 1970-01-01. *)
Definition civil (days : Z) : Z * Z * Z :=
  let z := days + 719468 in
  let era := z / 146097 in
  let doe := z - era * 146097 in
  let yoe := (doe - doe / 1460 + doe / 36524 - doe / 146096) / 365 in
  let doy := doe - (365 * yoe + yoe / 4 - yoe / 100) in
  let mp := (5 * doy + 2) / 153 in
  let d := doy - (153 * mp + 2) / 5 + 1 in
  let m := if mp <? 10 then mp + 3 else mp - 9 in
  let y := yoe + era * 400 in
  (if m <=? 2 then y + 1 else y, m, d).

(** [String(n).padStart(2, "0")] for a month or a day *)
Definition pad2 (n : Z) : string :=
  if n <? 10 then "0" +:+ pretty n else pretty n.

(** [getTodayKey()]: the UTC date of [now] as YYYY-MM-DD.  The generate
    handler spells it [new Date().toISOString().split("T")[0]], the same
    text for the years 1000 to 9999. *)
Definition getTodayKey (now : Z) : string :=
  let '(y, m, d) := civil (now / msPerDay) in
  pretty y +:+ "-" +:+ pad2 m +:+ "-" +:+ pad2 d.

(** ** Credentials ([GeminiKey], [keyStates]) *)

Record GeminiKey := mkGeminiKey {
  key : string;
  name : string;
  isHealthy : bool;
  lastError : option string;
  lastUsed : option Z;
  requestCount : Z
}.

Record GenerateRequest := mkGenerateRequest {
  reqPrompt : string;
  systemInstruction : option string;
  reqTemperature : option Q;
  reqMaxTokens : option Q
}.

(** The [usage] of a [GenerateResult]. *)
Module Usage.
Record t := mk {
  promptTokens : Z;
  completionTokens : Z;
  totalTokens : Z
}.
End Usage.

Record GenerateResult := mkGenerateResult {
  text : string;
  model : string;
  usage : Usage.t;
  keyUsed : string
}.

(** The [usageMetadata] of an upstream response, each count optional. *)
Record UsageMetadata := mkUsageMetadata {
  promptTokenCount : option Z;
  candidatesTokenCount : option Z;
  totalTokenCount : option Z
}.

(** What [model.generateContent] does with a key on a given attempt: it
    resolves to a text with optional usage metadata, or rejects. *)
Inductive Outcome :=
| Generated (responseText : string) (usageMetadata : option UsageMetadata)
| Rejected (e : Error).

Definition Backend : Type := nat -> GeminiKey -> GenerateRequest -> Outcome.

(** ** Sessions ([AuthSession], [GitHubUser]) *)

Module GitHubUser.
Record t := mk {
  id : Z;
  login : string;
  name : option string;
  email : option string;
  avatar_url : string
}.
End GitHubUser.

Module AuthSession.
Record t := mk {
  userId : string;
  username : string;
  name : option string;
  email : option string;
  avatarUrl : string;
  accessToken : string;
  createdAt : Z;
  expiresAt : Z
}.
End AuthSession.

(** ** The shared store *)

(** What a key holds: a counter, a text, a session (stored as its JSON
    text and read back as the object), a set, a scored set. *)
Inductive RedisValue :=
| RInt (n : Z)
| RStr (s : string)
| RJson (session : AuthSession.t)
| RSet (members : gset string)
| RZSet (scores : gmap string Z).

(** A key with its value and, when it has one, the instant it expires. *)
Record Entry := mkEntry { value : RedisValue; expireAt : option Z }.

Definition live (now : Z) (e : Entry) : bool :=
  match expireAt e with
  | Some t => now <? t
  | None => true
  end.

Definition lookupLive (now : Z) (d : gmap string Entry) (k : string) : option Entry :=
  match d !! k with
  | Some e => if live now e then Some e else None
  | None => None
  end.

(** ** Analytics records *)

Record RequestLog := mkRequestLog {
  timestamp : Z;
  logUserId : string;
  logTier : Tier;
  tokens : Z;
  cost : Q;
  logModel : string;
  logKeyUsed : string
}.

(** [estimatedCost] is kept as the exact quotient of the counter by
    100000; the number the code holds is the binary64 number nearest to it. *)
Record UsageMetrics := mkUsageMetrics {
  totalRequests : Z;
  totalTokens : Z;
  estimatedCost : Q;
  anonymousRequests : Z;
  authenticatedRequests : Z
}.

(** ** The world an invocation runs in *)

(** A request sent with [fetch]: where to, and what it carries. *)
Record Fetch := mkFetch { fetchUrl : string; fetchBody : string }.

(** Two things the login flow relies on and the repository does not
    contain.  [deserialize] is the reading the store client ([@upstash/redis])
    gives of a stored text when it is fetched: a text that is JSON comes back
    as the value it denotes, any other text as it is.  [resolve input base] is
    the text of [new URL(input, base)], [None] when the constructor throws.
    Both are parameters of the world; a theorem that needs to know how a
    given text is read, or resolved, says so. *)
Record Platform := mkPlatform {
  deserialize : string -> Js.value;
  resolve : string -> string -> option string
}.

Record World := mkWorld {
  db : gmap string Entry;               (* the shared store *)
  faults : list bool;                   (* store round trips to come: [true] is rejected *)
  keyStates : gmap string GeminiKey;    (* process-local credential table *)
  outbox : list Fetch;                  (* requests sent out, latest first *)
  netFaults : list bool;                (* fetches to come: [true] is rejected *)
  tracked : list RequestLog;            (* arguments of [trackRequest], latest first *)
  platform : Platform                   (* the store client and the URL parser *)
}.

Definition with_db (d : gmap string Entry) (w : World) : World :=
  mkWorld d (faults w) (keyStates w) (outbox w) (netFaults w) (tracked w) (platform w).
Definition with_faults (f : list bool) (w : World) : World :=
  mkWorld (db w) f (keyStates w) (outbox w) (netFaults w) (tracked w) (platform w).
Definition with_keyStates (ks : gmap string GeminiKey) (w : World) : World :=
  mkWorld (db w) (faults w) ks (outbox w) (netFaults w) (tracked w) (platform w).
Definition with_outbox (o : list Fetch) (w : World) : World :=
  mkWorld (db w) (faults w) (keyStates w) o (netFaults w) (tracked w) (platform w).
Definition with_netFaults (f : list bool) (w : World) : World :=
  mkWorld (db w) (faults w) (keyStates w) (outbox w) f (tracked w) (platform w).
Definition with_tracked (t : list RequestLog) (w : World) : World :=
  mkWorld (db w) (faults w) (keyStates w) (outbox w) (netFaults w) t (platform w).

(** Asynchronous code that reads and writes the world and may reject. *)
Definition M (A : Type) : Type := World -> Result A * World.

Definition ret {A} (a : A) : M A := fun w => (Ok a, w).
Definition throw {A} (e : Error) : M A := fun w => (Throw e, w).

Definition bind {A B} (m : M A) (k : A -> M B) : M B :=
  fun w =>
    match m w with
    | (Ok a, w') => k a w'
    | (Throw e, w') => (Throw e, w')
    end.

(** [try { m } catch (e) { h e }] *)
Definition tryCatch {A} (m : M A) (h : Error -> M A) : M A :=
  fun w =>
    match m w with
    | (Ok a, w') => (Ok a, w')
    | (Throw e, w') => h e w'
    end.

Notation "'let*' x ':=' m 'in' k" := (bind m (fun x => k))
  (at level 10, x pattern, m at level 100, k at level 200).
Notation "m ';;' k" := (bind m (fun _ => k))
  (at level 100, k at level 200, right associativity).

Definition modifyDb (f : gmap string Entry -> gmap string Entry) : M unit :=
  fun w => (Ok tt, with_db (f (db w)) w).

(** One round trip to the store: it is rejected when the schedule says so. *)
Definition roundTrip : M unit :=
  fun w =>
    match faults w with
    | true :: rest => (Throw (mkError "fetch failed"), with_faults rest w)
    | false :: rest => (Ok tt, with_faults rest w)
    | [] => (Ok tt, w)
    end.

(** One [fetch] to the outside: logged in the outbox when it goes through. *)
Definition fetch (url body : string) : M unit :=
  fun w =>
    match netFaults w with
    | true :: rest => (Throw (mkError "fetch failed"), with_netFaults rest w)
    | false :: rest => (Ok tt, with_outbox (mkFetch url body :: outbox w) (with_netFaults rest w))
    | [] => (Ok tt, with_outbox (mkFetch url body :: outbox w) w)
    end.

Module Redis.

(** GET *)
Definition get (now : Z) (k : string) : M (option RedisValue) :=
  roundTrip ;; fun w => (Ok (value <$> lookupLive now (db w) k), w).

(** SET key value EX seconds *)
Definition setEx (now : Z) (k : string) (v : RedisValue) (seconds : Z) : M unit :=
  roundTrip ;; modifyDb (insert k (mkEntry v (Some (now + seconds * 1000)))).

(** DEL *)
Definition del (k : string) : M unit :=
  roundTrip ;; modifyDb (delete k).

(** What the client hands back for what a GET found: nothing is null, a
    counter is its number, a text goes through the client's deserialisation, a
    stored session comes back as the object; a GET of a set is an error of the
    store. *)
Definition deserialized (found : option RedisValue) : M Js.value :=
  fun w =>
    match found with
    | None => (Ok Js.JNull, w)
    | Some (RInt n) => (Ok (Js.JNumber (inject_Z n)), w)
    | Some (RStr s) => (Ok (deserialize (platform w) s), w)
    | Some (RJson _) => (Ok Js.JObject, w)
    | Some (RSet _) | Some (RZSet _) =>
        (Throw (mkError "WRONGTYPE Operation against a key holding the wrong kind of value"), w)
    end.

(** The commands that write: those a pipeline queues, and the set
    commands of the session index. *)
Inductive Command :=
| INCRBY (k : string) (by_ : Z)
| ZINCRBY (k : string) (by_ : Z) (member : string)
| EXPIRE (k : string) (seconds : Z)
| SADD (k member : string)
| SREM (k member : string).

(** A command against the data: the data afterwards, and whether the
    command was accepted (a command on a key of another type is refused and
    changes nothing). An expired key counts as absent. *)
Definition run (now : Z) (c : Command) (d : gmap string Entry) : gmap string Entry * bool :=
  match c with
  | INCRBY k n =>
      match lookupLive now d k with
      | Some (mkEntry (RInt m) t) => (<[k := mkEntry (RInt (m + n)) t]> d, true)
      | Some _ => (d, false)
      | None => (<[k := mkEntry (RInt n) None]> d, true)
      end
  | ZINCRBY k n member =>
      match lookupLive now d k with
      | Some (mkEntry (RZSet z) t) =>
          (<[k := mkEntry (RZSet (<[member := default 0 (z !! member) + n]> z)) t]> d, true)
      | Some _ => (d, false)
      | None => (<[k := mkEntry (RZSet {[member := n]}) None]> d, true)
      end
  | EXPIRE k seconds =>
      match lookupLive now d k with
      | Some (mkEntry v _) => (<[k := mkEntry v (Some (now + seconds * 1000))]> d, true)
      | None => (d, true)
      end
  | SADD k member =>
      match lookupLive now d k with
      | Some (mkEntry (RSet s) t) => (<[k := mkEntry (RSet ({[member]} ∪ s)) t]> d, true)
      | Some _ => (d, false)
      | None => (<[k := mkEntry (RSet {[member]}) None]> d, true)
      end
  | SREM k member =>
      match lookupLive now d k with
      | Some (mkEntry (RSet s) t) => (<[k := mkEntry (RSet (s ∖ {[member]})) t]> d, true)
      | Some _ => (d, false)
      | None => (d, true)
      end
  end.

Fixpoint runAll (now : Z) (cs : list Command) (d : gmap string Entry) : gmap string Entry * bool :=
  match cs with
  | [] => (d, true)
  | c :: cs' =>
      let '(d1, ok1) := run now c d in
      let '(d2, ok2) := runAll now cs' d1 in
      (d2, ok1 && ok2)
  end.

(** [pipeline.exec()]: one round trip for the whole batch; it rejects
    when a command of the batch was refused. *)
Definition exec (now : Z) (cs : list Command) : M unit :=
  roundTrip ;;
  fun w =>
    let '(d, ok) := runAll now cs (db w) in
    (if ok then Ok tt else Throw (mkError "Command failed: WRONGTYPE"), with_db d w).

(** SADD and SREM, each a round trip of its own. *)
Definition sadd (now : Z) (k member : string) : M unit := exec now [SADD k member].
Definition srem (now : Z) (k member : string) : M unit := exec now [SREM k member].

End Redis.

(** ** [Array.prototype.sort] *)

(** The sort of the runtime on a short array (fewer than 64 elements, which
    covers the three-key pool): the leading run is found, reversed when it
    descends strictly, and the remaining elements are put in place one by
    one by binary insertion.  [compare a b] is the comparator's number. *)
Section Sort.
Context {A : Type} (compare : A -> A -> Z).

(** How far the run that ends in [previous] extends into [rest]. *)
Fixpoint runLength (descending : bool) (previous : A) (rest : list A) : nat :=
  match rest with
  | [] => O
  | current :: rest' =>
      let order := compare current previous in
      if descending then
        if 0 <=? order then O else S (runLength descending current rest')
      else
        if order <? 0 then O else S (runLength descending current rest')
  end.

(** Where [pivot] belongs among the sorted [a], searching [left, right). *)
Fixpoint insertionPoint (fuel : nat) (pivot : A) (a : list A) (left right : nat) : nat :=
  match fuel with
  | O => left
  | S fuel' =>
      if (left <? right)%nat then
        let mid := (left + (right - left) / 2)%nat in
        match a !! mid with
        | Some x =>
            if compare pivot x <? 0
            then insertionPoint fuel' pivot a left mid
            else insertionPoint fuel' pivot a (S mid) right
        | None => left
        end
      else left
  end.

Definition binaryInsert (sorted : list A) (pivot : A) : list A :=
  let left := insertionPoint (length sorted) pivot sorted 0 (length sorted) in
  (take left sorted ++ pivot :: drop left sorted)%list.

Definition sort (a : list A) : list A :=
  match a with
  | low :: next :: rest =>
      let descending := compare next low <? 0 in
      let n := (2 + runLength descending next rest)%nat in
      let run := if descending then reverse (take n a) else take n a in
      fold_left binaryInsert (drop n a) run
  | _ => a
  end.
End Sort.

(** ** Credential pool ([lib/key-rotation.ts]) *)

(** [getOrCreateKeyState] *)
Definition getOrCreateKeyState (name key : string) (ks : gmap string GeminiKey)
  : GeminiKey * gmap string GeminiKey :=
  match ks !! name with
  | Some state => (state, ks)
  | None =>
      let state := mkGeminiKey key name true None None 0 in
      (state, <[name := state]> ks)
  end.

(** [if (v) keys.push(getOrCreateKeyState(name, v))] *)
Definition pushConfigured (name : string) (v : option string)
    (acc : list GeminiKey * gmap string GeminiKey) : list GeminiKey * gmap string GeminiKey :=
  let '(keys, ks) := acc in
  if Js.optTruthy v then
    let '(state, ks') := getOrCreateKeyState name (default "" v) ks in
    ((keys ++ [state])%list, ks')
  else (keys, ks).

Definition getConfiguredKeys (env : Env) (ks : gmap string GeminiKey)
  : list GeminiKey * gmap string GeminiKey :=
  pushConfigured "fallback2" (GEMINI_KEY_FALLBACK_2 env)
    (pushConfigured "fallback1" (GEMINI_KEY_FALLBACK_1 env)
       (pushConfigured "primary" (GEMINI_KEY_PRIMARY env) ([], ks))).

(** The comparator of both sorts in [selectKey]. *)
Definition byLastUsed (a b : GeminiKey) : Z :=
  match lastUsed a, lastUsed b with
  | None, _ => -1
  | Some _, None => 1
  | Some ta, Some tb => ta - tb
  end.

Definition setHealthy (h : bool) (k : GeminiKey) : GeminiKey :=
  mkGeminiKey (key k) (name k) h (lastError k) (lastUsed k) (requestCount k).

(** [selectKey]: the key objects live in [keyStates] and are named by
    their [name]; the assignment to [oldestError.isHealthy] is an update of
    the table entry, and the key returned is the entry as it then reads. *)
Definition selectKey (env : Env) (ks : gmap string GeminiKey)
  : option GeminiKey * gmap string GeminiKey :=
  let '(keys, ks1) := getConfiguredKeys env ks in
  if (length keys =? 0)%nat then (None, ks1)
  else
    let healthyKeys := List.filter isHealthy keys in
    if (length healthyKeys =? 0)%nat then
      match sort byLastUsed keys with
      | oldestError :: _ =>
          (Some (setHealthy true oldestError), alter (setHealthy true) (name oldestError) ks1)
      | [] => (None, ks1)
      end
    else
      match sort byLastUsed healthyKeys with
      | selected :: _ => (Some selected, ks1)
      | [] => (None, ks1)
      end.

(** [markKeyUnhealthy] *)
Definition markKeyUnhealthy (keyName error : string) (ks : gmap string GeminiKey)
  : gmap string GeminiKey :=
  alter (fun state =>
           mkGeminiKey (key state) (name state) false (Some error)
                       (lastUsed state) (requestCount state)) keyName ks.

(** The update of the key after a success. *)
Definition markKeyUsed (now : Z) (keyInfo : GeminiKey) : GeminiKey :=
  mkGeminiKey (key keyInfo) (name keyInfo) true None (Some now) (requestCount keyInfo + 1).

(** [generateWithKey]: the call to the backend and the result built from
    its response. *)
Definition generateWithKey (backend : Backend) (attempt : nat)
    (keyInfo : GeminiKey) (request : GenerateRequest) : Result GenerateResult :=
  match backend attempt keyInfo request with
  | Generated responseText usageMetadata =>
      Ok (mkGenerateResult responseText "gemini-1.5-flash"
            (Usage.mk
               (default 0 (usageMetadata ≫= promptTokenCount))
               (default 0 (usageMetadata ≫= candidatesTokenCount))
               (default 0 (usageMetadata ≫= totalTokenCount)))
            (name keyInfo))
  | Rejected e => Throw e
  end.

(** The two tests on the lower-cased message of a failure. *)
Definition isRateLimited (errorMessage : string) : bool :=
  Js.includes "rate limit" errorMessage
  || Js.includes "quota" errorMessage
  || Js.includes "resource exhausted" errorMessage
  || Js.includes "429" errorMessage.

Definition isInvalidKey (errorMessage : string) : bool :=
  Js.includes "api key" errorMessage
  || Js.includes "unauthorized" errorMessage
  || Js.includes "403" errorMessage
  || Js.includes "invalid" errorMessage.

(** The entry of the outbox a call to the backend leaves. *)
Definition backendCall (keyInfo : GeminiKey) : Fetch := mkFetch "generateContent" (name keyInfo).

(** The loop of [generateWithRotation] with [remaining] iterations to go;
    every call to the backend is logged in the outbox under the name of
    the key it used. *)
Fixpoint rotate (env : Env) (backend : Backend) (now : Z) (request : GenerateRequest)
    (remaining attempt : nat) (lastError : option Error) : M GenerateResult :=
  fun w =>
    match remaining with
    | O => (Throw (default (mkError "All API keys exhausted") lastError), w)
    | S remaining' =>
        match selectKey env (keyStates w) with
        | (None, ks1) => (Throw (mkError "No Gemini API keys configured"), with_keyStates ks1 w)
        | (Some keyInfo, ks1) =>
            let w1 := with_outbox (backendCall keyInfo :: outbox w) (with_keyStates ks1 w) in
            match generateWithKey backend attempt keyInfo request with
            | Ok result =>
                (Ok result, with_keyStates (alter (markKeyUsed now) (name keyInfo) ks1) w1)
            | Throw error =>
                let errorMessage := Js.toLowerCase (message error) in
                if isRateLimited errorMessage then
                  rotate env backend now request remaining' (S attempt) (Some error)
                    (with_keyStates (markKeyUnhealthy (name keyInfo) "Rate limited" ks1) w1)
                else if isInvalidKey errorMessage then
                  rotate env backend now request remaining' (S attempt) (Some error)
                    (with_keyStates (markKeyUnhealthy (name keyInfo) "Invalid API key" ks1) w1)
                else (Throw error, w1)
            end
        end
    end.

Definition maxRetries : nat := 3.

Definition generateWithRotation (env : Env) (backend : Backend) (now : Z)
    (request : GenerateRequest) : M GenerateResult :=
  rotate env backend now request maxRetries 0 None.

(** ** Usage analytics and alerting ([lib/analytics.ts]) *)

(** [PRICING.avgCostPer1KTokens], 0.0001875 *)
Definition avgCostPer1KTokens : Q := (1875 # 10000000)%Q.

(** [calculateCost] *)
Definition calculateCost (tokens : Z) : Q :=
  (inject_Z tokens / (1000 # 1) * avgCostPer1KTokens)%Q.

(** The number a [get<number>] yields, [?? 0] applied.  A ledger key only
    ever holds the integer its INCRBY wrote. *)
Definition numberOr0 (v : option RedisValue) : Z :=
  match v with
  | Some (RInt n) => n
  | _ => 0
  end.

(** Truthiness of what a [get] yields. *)
Definition valueTruthy (v : option RedisValue) : bool :=
  match v with
  | Some (RInt n) => negb (n =? 0)
  | Some (RStr s) => Js.truthy s
  | Some _ => true
  | None => false
  end.

(** The reads of a [Promise.all]: every request goes out, and the whole
    rejects when one of them does. *)
Fixpoint getAll (now : Z) (ks : list string) : M (list (option RedisValue)) :=
  match ks with
  | [] => ret []
  | k :: ks' =>
      fun w =>
        let '(r, w1) := Redis.get now k w in
        let '(rs, w2) := getAll now ks' w1 in
        (match r, rs with
         | Ok v, Ok vs => Ok (v :: vs)
         | Throw e, _ => Throw e
         | Ok _, Throw e => Throw e
         end, w2)
  end.

Definition zeroMetrics : UsageMetrics := mkUsageMetrics 0 0 0 0 0.

(** Whether [process.env] names the store: its URL and its token. *)
Definition storeConfigured (env : Env) : bool :=
  Js.optTruthy (UPSTASH_REDIS_REST_URL env) && Js.optTruthy (UPSTASH_REDIS_REST_TOKEN env).

(** [getRedis()], as [lib/analytics.ts] and [lib/rate-limit.ts] have it: it
    throws when the URL or the token of the store is missing.  The client it
    makes is kept for the later calls; the environment does not change while
    the process runs, so every call is decided by it alike. *)
Definition getRedis (env : Env) : M unit :=
  if storeConfigured env then ret tt
  else throw (mkError "Missing Upstash Redis configuration").

(** [getTodayMetrics]; [getRedis()] is called before the [try].  The ranked
    read of the per-user set goes out with the others, its result
    ([topUsers]) is not kept in the model. *)
Definition getTodayMetrics (env : Env) (now : Z) : M UsageMetrics :=
  let prefix := "rocket:analytics:" +:+ getTodayKey now in
  getRedis env ;;
  tryCatch
    (let* vs := getAll now [prefix +:+ ":requests"; prefix +:+ ":tokens"; prefix +:+ ":cost";
                            prefix +:+ ":tier:anonymous"; prefix +:+ ":tier:authenticated";
                            prefix +:+ ":users"] in
     match vs with
     | [requests; tokens; costRaw; anonRequests; authRequests; _] =>
         ret (mkUsageMetrics (numberOr0 requests) (numberOr0 tokens)
                (inject_Z (numberOr0 costRaw) / (100000 # 1))%Q
                (numberOr0 anonRequests) (numberOr0 authRequests))
     | _ => ret zeroMetrics
     end)
    (fun _ => ret zeroMetrics).

(** The key of the marker that keeps an alert from being sent again. *)
Definition alertKey (now : Z) (message : string) : string :=
  "rocket:alert:" +:+ getTodayKey now +:+ ":" +:+ Js.take 20 (Js.base64 message).

(** [sendSlackAlert]; the text of an alert is kept in its UTF-8 bytes.  The
    client is taken to be at hand, as it is once [trackRequest] has got as far
    as the check. *)
Definition sendSlackAlert (env : Env) (now : Z) (message : string) : M unit :=
  if negb (Js.optTruthy (SLACK_WEBHOOK_URL env)) then ret tt
  else
    let webhookUrl := default "" (SLACK_WEBHOOK_URL env) in
    let* exists_ := Redis.get now (alertKey now message) in
    if valueTruthy exists_ then ret tt
    else
      tryCatch
        (fetch webhookUrl message ;;
         Redis.setEx now (alertKey now message) (RStr "1") 3600)
        (fun _ => ret tt).

(** The texts of the two alerts.  [budgetCap] is the decimal of the
    environment; [metrics.estimatedCost] is the binary64 quotient of the
    counter by 100000, whose exact value [toFixed] rounds. *)
Definition criticalMessage (budgetCap : Q) (metrics : UsageMetrics) : string :=
  "üö® Rocket CLI Proxy Budget Alert!" +:+ Js.nl +:+
  "Daily budget of $" +:+ Js.numberToString budgetCap +:+ " has been exceeded." +:+ Js.nl +:+
  "Current spend: $" +:+ Js.toFixed4 (Js.double (estimatedCost metrics)) +:+ Js.nl +:+
  "Total requests: " +:+ pretty (totalRequests metrics) +:+ Js.nl +:+
  "Total tokens: " +:+ pretty (totalTokens metrics).

Definition warningMessage (budgetCap : Q) (metrics : UsageMetrics) : string :=
  "‚ö†Ô∏è Rocket CLI Proxy Budget Warning" +:+ Js.nl +:+
  "Daily spend at 80% of budget." +:+ Js.nl +:+
  "Current: $" +:+ Js.toFixed4 (Js.double (estimatedCost metrics)) +:+ " / $" +:+
  Js.numberToString budgetCap.

(** [checkBudgetAndAlert].  The comparisons are those of binary64 numbers:
    the cap [parseFloat] reads, the quotient of the counter by 100000, and the
    product of the cap and the literal 0.8, each rounded to the nearest
    binary64 number. *)
Definition checkBudgetAndAlert (env : Env) (now : Z) : M unit :=
  let budgetCap := Js.double (budgetCapOf env) in
  let* metrics := getTodayMetrics env now in
  let spent := Js.double (estimatedCost metrics) in
  if Qle_bool budgetCap spent then
    sendSlackAlert env now (criticalMessage (budgetCapOf env) metrics)
  else if Qle_bool (Js.double (budgetCap * Js.double (8 # 10))) spent then
    sendSlackAlert env now (warningMessage (budgetCapOf env) metrics)
  else ret tt.

(** [sendToPostHog] *)
Definition sendToPostHog (env : Env) (log : RequestLog) : M unit :=
  if negb (Js.optTruthy (POSTHOG_API_KEY env)) then ret tt
  else tryCatch (fetch "https://app.posthog.com/capture" (logUserId log)) (fun _ => ret tt).

Definition retention : Z := 7 * 24 * 60 * 60.

(** The batch [trackRequest] queues. *)
Definition trackCommands (prefix : string) (log : RequestLog) : list Redis.Command :=
  [ Redis.INCRBY (prefix +:+ ":requests") 1;
    Redis.INCRBY (prefix +:+ ":tokens") (tokens log);
    Redis.INCRBY (prefix +:+ ":cost") (Js.round (cost log * (100000 # 1))%Q);
    Redis.INCRBY (prefix +:+ ":tier:" +:+ tierName (logTier log)) 1;
    Redis.ZINCRBY (prefix +:+ ":users") 1 (logUserId log);
    Redis.INCRBY (prefix +:+ ":key:" +:+ logKeyUsed log) 1;
    Redis.EXPIRE (prefix +:+ ":requests") retention;
    Redis.EXPIRE (prefix +:+ ":tokens") retention;
    Redis.EXPIRE (prefix +:+ ":cost") retention;
    Redis.EXPIRE (prefix +:+ ":tier:" +:+ tierName (logTier log)) retention;
    Redis.EXPIRE (prefix +:+ ":users") retention;
    Redis.EXPIRE (prefix +:+ ":key:" +:+ logKeyUsed log) retention ].

(** [trackRequest]; the argument is also noted in [tracked].  The client is
    taken to be at hand: what is proved of the batch is proved of a store that
    answers. *)
Definition trackRequest (env : Env) (now : Z) (log : RequestLog) : M unit :=
  let prefix := "rocket:analytics:" +:+ getTodayKey now in
  (fun w => (Ok tt, with_tracked (log :: tracked w) w)) ;;
  tryCatch
    (Redis.exec now (trackCommands prefix log) ;;
     checkBudgetAndAlert env now ;;
     sendToPostHog env log)
    (fun _ => ret tt).

(** ** The rate limiter *)

(** Modelled from the spec: the fixed-window limiter of the
    [@upstash/ratelimit] package, which the handlers call and the repository
    does not contain.  A window is a day aligned to UTC midnight, all callers
    of a tier share its reset instant; [limit] consumes a unit with one atomic
    increment and compares afterwards, [remaining] is what is left once this
    request is counted (the admitted requests of a tier of 5 see 4, 3, 2, 1,
    0); [getRemaining] reads the counter and changes nothing. *)
Module Ratelimit.

Record Limiter := mkLimiter { tokens : Z; window : Z; prefix : string }.

Record Response := mkResponse {
  success : bool;
  limit_ : Z;
  remaining : Z;
  reset : Z
}.

Definition key (l : Limiter) (identifier : string) (now : Z) : string :=
  prefix l +:+ ":" +:+ identifier +:+ ":" +:+ pretty (now / window l).

Definition used (l : Limiter) (identifier : string) (now : Z) (d : gmap string Entry) : Z :=
  numberOr0 (value <$> lookupLive now d (key l identifier now)).

Definition resetOf (l : Limiter) (now : Z) : Z := (now / window l + 1) * window l.

Definition limit (l : Limiter) (identifier : string) (now : Z) : M Response :=
  roundTrip ;;
  fun w =>
    let usedAfter := used l identifier now (db w) + 1 in
    (Ok (mkResponse (usedAfter <=? tokens l) (tokens l)
           (Z.max 0 (tokens l - usedAfter)) (resetOf l now)),
     with_db (<[key l identifier now :=
                  mkEntry (RInt usedAfter) (Some (resetOf l now))]> (db w)) w).

Definition getRemaining (l : Limiter) (identifier : string) (now : Z) : M Response :=
  roundTrip ;;
  fun w =>
    let usedNow := used l identifier now (db w) in
    (Ok (mkResponse (usedNow <? tokens l) (tokens l)
           (Z.max 0 (tokens l - usedNow)) (resetOf l now)), w).

End Ratelimit.

(** [Ratelimit.fixedWindow(5, "1 d")] and [Ratelimit.fixedWindow(25, "1 d")] *)
Definition anonRatelimit : Ratelimit.Limiter :=
  Ratelimit.mkLimiter 5 msPerDay "rocket:ratelimit:anon".
Definition authRatelimit : Ratelimit.Limiter :=
  Ratelimit.mkLimiter 25 msPerDay "rocket:ratelimit:auth".

Definition ratelimitOf (t : Tier) : Ratelimit.Limiter :=
  match t with authenticated => authRatelimit | anonymous => anonRatelimit end.

(** ** The status read of [lib/rate-limit.ts] *)

Module RateLimiting.

(** [RATE_LIMITS] *)
Record Config := mkConfig { requests : Z; identifier : string }.

Definition RATE_LIMITS (t : Tier) : Config :=
  match t with
  | anonymous => mkConfig 5 "anon"
  | authenticated => mkConfig 25 "auth"
  end.

Record RateLimitResult := mkRateLimitResult {
  success : bool;
  limit : Z;
  remaining : Z;
  reset : Z;
  tier : Tier
}.

(** The end of the current UTC day, in seconds. *)
Definition endOfDay (now : Z) : Z := (now / msPerDay + 1) * msPerDay / 1000.

(** [getRateLimitStatus]; [getRedis()] is called before the [try].  The
    count is read as the number a counter holds: a key of the limiter holds
    a counter or nothing, any other content is outside the model. *)
Definition getRateLimitStatus (env : Env) (who : string) (t : Tier) (now : Z)
  : M RateLimitResult :=
  let config := RATE_LIMITS t in
  let prefix := "rocket:ratelimit:" +:+ identifier config in
  let key := prefix +:+ ":" +:+ who in
  getRedis env ;;
  tryCatch
    (let* found := Redis.get now key in
     let count := numberOr0 found in
     let remaining := Z.max 0 (requests config - count) in
     ret (mkRateLimitResult (0 <? remaining) (requests config) remaining (endOfDay now) t))
    (fun _ =>
       ret (mkRateLimitResult true (requests config) (requests config) (endOfDay now) t)).

End RateLimiting.

(** ** Responses *)

Inductive Payload :=
| NoBody
| GenerateBody (text model : string) (remaining limit reset : Z)
| ErrorBody (error code : string) (retryAfter : option Z)
| PlainError (error : string)
| LimitsBody (tier : Tier) (limit remaining reset : Z)
             (current : list string) (upgrade : option (list string))
| ErrorPage (error description : string)
| CliSuccessPage (token username : string)
| WebSuccessPage (token username redirectUrl : string)
| AuthorizeRedirect (state redirectUri : string).

Record Response := mkResponse {
  status : Z;
  payload : Payload;
  responseHeaders : list (string * string)
}.

(** ** POST /api/v1/generate *)

Module Generate.

Definition jsonResponse (data : Payload) (status : Z) (extraHeaders : list (string * string))
  : Response :=
  mkResponse status data
    ([("Content-Type", "application/json");
      ("Access-Control-Allow-Origin", "*");
      ("Access-Control-Allow-Methods", "POST, OPTIONS");
      ("Access-Control-Allow-Headers", "Content-Type, Authorization")] ++ extraHeaders)%list.

(** [checkBudgetExceeded] *)
Definition checkBudgetExceeded (env : Env) (now : Z) : M bool :=
  let budgetCap := budgetCapOf env in
  tryCatch
    (let today := getTodayKey now in
     let* costRaw := Redis.get now ("rocket:analytics:" +:+ today +:+ ":cost") in
     let currentCost := (inject_Z (numberOr0 costRaw) / (100000 # 1))%Q in
     ret (Qle_bool budgetCap currentCost))
    (fun _ => ret false).

(** The [catch] of the handler: the response for a failed generation. *)
Definition generationError (error : Error) : Response :=
  if Js.includes "rate limit" (message error) || Js.includes "429" (message error) then
    jsonResponse (ErrorBody "Upstream rate limit exceeded" "UPSTREAM_RATE_LIMIT" None) 503 []
  else if Js.includes "API key" (message error) then
    jsonResponse (ErrorBody "Service configuration error" "CONFIG_ERROR" None) 503 []
  else
    jsonResponse (ErrorBody "Failed to generate response" "GENERATION_FAILED" None) 500 [].

(** What follows the admission checks.  [trackRequest] is started and not
    awaited; here it has run by the time the response is returned.  The
    [X-Response-Time] header, a duration, is left out. *)
Definition generate (env : Env) (backend : Backend) (now : Z) (prompt : string)
    (temperature maxTokens : option Q) (who : Identity) (rl : Ratelimit.Response) : M Response :=
  tryCatch
    (let* result := generateWithRotation env backend now
                      (mkGenerateRequest prompt None temperature maxTokens) in
     let estimatedTokens :=
       Js.ceilDiv (Z.of_nat (String.length prompt) + Z.of_nat (String.length (text result))) 4 in
     let cost := calculateCost estimatedTokens in
     tryCatch
       (trackRequest env now
          (mkRequestLog now (userId who) (tier who) estimatedTokens cost
             (model result) (keyUsed result)))
       (fun _ => ret tt) ;;
     ret (jsonResponse
            (GenerateBody (text result) (model result)
               (Ratelimit.remaining rl - 1) (Ratelimit.limit_ rl) (Ratelimit.reset rl))
            200
            [("X-RateLimit-Limit", pretty (Ratelimit.limit_ rl));
             ("X-RateLimit-Remaining", pretty (Ratelimit.remaining rl - 1));
             ("X-RateLimit-Reset", pretty (Ratelimit.reset rl))]))
    (fun error => ret (generationError error)).

(** The admission checks: quota, then budget. *)
Definition admission (env : Env) (backend : Backend) (now : Z) (request : Request) (prompt : string)
    (temperature maxTokens : option Q) : M Response :=
  let who := getUserIdentifier request in
  let ratelimit := ratelimitOf (tier who) in
  let* rl := Ratelimit.limit ratelimit (userId who) now in
  if negb (Ratelimit.success rl) then
    let retryAfter := Js.ceilDiv (Ratelimit.reset rl - now) 1000 in
    ret (jsonResponse
           (ErrorBody "Rate limit exceeded" "RATE_LIMIT_EXCEEDED" (Some retryAfter))
           429
           [("X-RateLimit-Limit", pretty (Ratelimit.limit_ rl));
            ("X-RateLimit-Remaining", "0");
            ("X-RateLimit-Reset", pretty (Ratelimit.reset rl));
            ("Retry-After", pretty retryAfter)])
  else
    let* budgetExceeded := checkBudgetExceeded env now in
    if budgetExceeded then
      ret (jsonResponse
             (ErrorBody "Service temporarily unavailable due to high demand" "BUDGET_EXCEEDED" None)
             503 [])
    else generate env backend now prompt temperature maxTokens who rl.

Definition handler (env : Env) (backend : Backend) (now : Z) (request : Request) : M Response :=
  if negb (String.eqb (method request) "POST") then
    ret (jsonResponse (ErrorBody "Method not allowed" "METHOD_NOT_ALLOWED" None) 405 [])
  else
    match body request with
    | BodyInvalid => ret (jsonResponse (ErrorBody "Invalid JSON body" "INVALID_JSON" None) 400 [])
    | BodyNull => throw (mkError "Cannot read properties of null (reading 'prompt')")
    | BodyJson (PromptString prompt) temperature maxTokens =>
        if negb (Js.truthy prompt) then
          ret (jsonResponse (ErrorBody "Missing or invalid prompt" "INVALID_PROMPT" None) 400 [])
        else if 32000 <? Z.of_nat (String.length prompt) then
          ret (jsonResponse
                 (ErrorBody "Prompt too long (max 32000 chars)" "PROMPT_TOO_LONG" None) 400 [])
        else admission env backend now request prompt temperature maxTokens
    | BodyJson _ _ _ =>
        ret (jsonResponse (ErrorBody "Missing or invalid prompt" "INVALID_PROMPT" None) 400 [])
    end.

End Generate.

(** ** GET /api/v1/limits *)

Module Limits.

Definition jsonResponse (data : Payload) (status : Z) (extraHeaders : list (string * string))
  : Response :=
  mkResponse status data
    ([("Content-Type", "application/json");
      ("Access-Control-Allow-Origin", "*");
      ("Cache-Control", "no-cache")] ++ extraHeaders)%list.

(** The [resetAt] text of the body is the ISO form of [reset] and is not
    kept apart from it. *)
Definition handler (now : Z) (request : Request) : M Response :=
  if String.eqb (method request) "OPTIONS" then
    ret (mkResponse 204 NoBody
           [("Access-Control-Allow-Origin", "*");
            ("Access-Control-Allow-Methods", "GET, OPTIONS");
            ("Access-Control-Allow-Headers", "Content-Type, Authorization")])
  else if negb (String.eqb (method request) "GET") then
    ret (jsonResponse (PlainError "Method not allowed") 405 [])
  else
    let who := getUserIdentifier request in
    let ratelimit := ratelimitOf (tier who) in
    let* rl := Ratelimit.getRemaining ratelimit (userId who) now in
    let current :=
      match tier who with
      | authenticated =>
          ["25 requests per day"; "Priority support"; "Usage analytics";
           "Early access to new features"]
      | anonymous => ["5 requests per day"; "Basic LLM access"; "Community support"]
      end in
    let upgrade :=
      match tier who with
      | anonymous =>
          Some ["5x more daily requests (25/day)"; "Priority support";
                "Usage analytics dashboard"; "Early access to new features"]
      | authenticated => None
      end in
    ret (jsonResponse
           (LimitsBody (tier who) (Ratelimit.limit_ rl) (Ratelimit.remaining rl)
              (Ratelimit.reset rl) current upgrade)
           200
           [("X-RateLimit-Limit", pretty (Ratelimit.limit_ rl));
            ("X-RateLimit-Remaining", pretty (Ratelimit.remaining rl));
            ("X-RateLimit-Reset", pretty (Ratelimit.reset rl))]).

End Limits.

(** ** OAuth and sessions ([lib/auth.ts]) *)

(** What GitHub answers: to the exchange of a code, and to the request for
    the profile behind an access token. *)
Record TokenResponse := mkTokenResponse {
  tokenOk : bool;
  tokenStatus : Z;
  access_token : option string;
  error : option string;
  error_description : option string
}.

Record UserResponse := mkUserResponse {
  userOk : bool;
  userStatus : Z;
  user : GitHubUser.t
}.

Record GitHub := mkGitHub {
  tokenEndpoint : string -> TokenResponse;
  userEndpoint : string -> UserResponse
}.

(** The functions that use the store are modelled with the client at hand:
    what is proved of them is proved of a store that answers, or of a round
    trip that fails. *)
Module Auth.

Definition tokenUrl : string := "https://github.com/login/oauth/access_token".
Definition userUrl : string := "https://api.github.com/user".

(** [exchangeCodeForToken] *)
Definition exchangeCodeForToken (gh : GitHub) (code : string) : M string :=
  fetch tokenUrl code ;;
  let data := tokenEndpoint gh code in
  if negb (tokenOk data) then
    throw (mkError ("GitHub token exchange failed: " +:+ pretty (tokenStatus data)))
  else if Js.optTruthy (error data) then
    throw (mkError ("GitHub OAuth error: " +:+
                    Js.orElse (error_description data) (default "" (error data))))
  else if negb (Js.optTruthy (access_token data)) then
    throw (mkError "No access token in response")
  else ret (default "" (access_token data)).

(** [getGitHubUser] *)
Definition getGitHubUser (gh : GitHub) (accessToken : string) : M GitHubUser.t :=
  fetch userUrl accessToken ;;
  let response := userEndpoint gh accessToken in
  if negb (userOk response) then
    throw (mkError ("Failed to fetch GitHub user: " +:+ pretty (userStatus response)))
  else ret (user response).

Definition expiresIn : Z := 30 * 24 * 60 * 60 * 1000.

(** [createSession]; [random] is what [generateState()] draws.  The
    session records [expiresAt] from the [Date.now()] it reads; the store
    counts the thirty days of the record from the instant the SET reaches it,
    which is that instant or later, and which the model takes to be [now]: the
    record is held at least as long as the model holds it. *)
Definition createSession (gh : GitHub) (random : string) (now : Z) (accessToken : string)
  : M (string * AuthSession.t) :=
  let* user := getGitHubUser gh accessToken in
  let sessionToken := random in
  let session :=
    AuthSession.mk ("github:" +:+ pretty (GitHubUser.id user)) (GitHubUser.login user)
      (GitHubUser.name user) (GitHubUser.email user) (GitHubUser.avatar_url user)
      accessToken now (now + expiresIn) in
  Redis.setEx now ("rocket:session:" +:+ sessionToken) (RJson session) (expiresIn / 1000) ;;
  Redis.sadd now ("rocket:user_sessions:" +:+ pretty (GitHubUser.id user)) sessionToken ;;
  ret (sessionToken, session).

(** [session.userId.replace("github:", "")] *)
Fixpoint removeFirst (needle s : string) : string :=
  if Js.startsWith needle s then Js.slice (String.length needle) s
  else match s with
       | EmptyString => EmptyString
       | String c s' => String c (removeFirst needle s')
       end.

(** [getSession] and [deleteSession] call each other: an expired session
    that is still in the store is deleted by [deleteSession], which first
    asks [getSession] for it again.  [fuel] bounds the calls; [None] is a
    call that has not returned by then. *)
Fixpoint getSession (fuel : nat) (now : Z) (sessionToken : string)
  : M (option (option AuthSession.t)) :=
  match fuel with
  | O => ret None
  | S fuel' =>
      if negb (Js.truthy sessionToken) then ret (Some None)
      else
        let* sessionData := Redis.get now ("rocket:session:" +:+ sessionToken) in
        match sessionData with
        | Some (RJson session) =>
            if AuthSession.expiresAt session <? now then
              let* deleted := deleteSession fuel' now sessionToken in
              match deleted with
              | Some _ => ret (Some None)
              | None => ret None
              end
            else ret (Some (Some session))
        | _ => ret (Some None)
        end
  end
with deleteSession (fuel : nat) (now : Z) (sessionToken : string) : M (option unit) :=
  match fuel with
  | O => ret None
  | S fuel' =>
      let* found := getSession fuel' now sessionToken in
      match found with
      | None => ret None
      | Some session =>
          Redis.del ("rocket:session:" +:+ sessionToken) ;;
          match session with
          | Some s =>
              Redis.srem now
                ("rocket:user_sessions:" +:+ removeFirst "github:" (AuthSession.userId s))
                sessionToken ;;
              ret (Some tt)
          | None => ret (Some tt)
          end
      end
  end.

(** [storeState] *)
Definition storeState (now : Z) (state redirectUri : string) : M unit :=
  Redis.setEx now ("rocket:oauth_state:" +:+ state) (RStr redirectUri) 600.

(** [validateState].  What comes back is what the client makes of the
    stored text: the declared type is [string | null], the value is whatever
    the text denotes. *)
Definition validateState (now : Z) (state : string) : M Js.value :=
  let* found := Redis.get now ("rocket:oauth_state:" +:+ state) in
  let* redirectUri := Redis.deserialized found in
  (if Js.truthyValue redirectUri
   then Redis.del ("rocket:oauth_state:" +:+ state)
   else ret tt) ;;
  ret redirectUri.

End Auth.

(** ** GET /api/auth/github *)

Module Github.

(** [random] is what [generateState()] draws.  The redirect carries the
    state and the callback URL; the query string built around them is not
    part of the model. *)
Definition handler (random : string) (now : Z) (request : Request) : M Response :=
  if negb (String.eqb (method request) "GET") then
    ret (mkResponse 405 (PlainError "Method not allowed") [("Content-Type", "application/json")])
  else
    tryCatch
      (let redirectParam := Js.orElse (query request !! "redirect") "/api/auth/callback" in
       let callbackUrl := origin request +:+ "/api/auth/callback" in
       let state := random in
       Auth.storeState now state redirectParam ;;
       ret (mkResponse 302 (AuthorizeRedirect state callbackUrl) []))
      (fun _ =>
         ret (mkResponse 500 (PlainError "Failed to initiate OAuth")
                [("Content-Type", "application/json")])).

End Github.

(** ** GET /api/auth/callback *)

Module Callback.

Definition createErrorResponse (error description : string) : Response :=
  mkResponse 400 (ErrorPage error description) [("Content-Type", "text/html")].

Definition createCliSuccessResponse (token username : string) : Response :=
  mkResponse 200 (CliSuccessPage token username) [("Content-Type", "text/html")].

Definition createWebSuccessResponse (token username redirectUrl : string) : Response :=
  mkResponse 200 (WebSuccessPage token username redirectUrl) [("Content-Type", "text/html")].

(** [new URL(input, base).toString()] *)
Definition newURL (input base : string) : M string :=
  fun w =>
    match resolve (platform w) input base with
    | Some url => (Ok url, w)
    | None => (Throw (mkError "Invalid URL"), w)
    end.

(** [handler].  [storedRedirect.startsWith] is a call on whatever
    [validateState] returned: on a value that is not a text it throws, inside
    the [try], the session being stored by then. *)
Definition handler (gh : GitHub) (random : string) (now : Z) (request : Request) : M Response :=
  if negb (String.eqb (method request) "GET") then
    ret (mkResponse 405 (PlainError "Method not allowed") [("Content-Type", "application/json")])
  else
    tryCatch
      (let code := query request !! "code" in
       let state := query request !! "state" in
       let error := query request !! "error" in
       let errorDescription := query request !! "error_description" in
       if Js.optTruthy error then
         ret (createErrorResponse (default "" error)
                (Js.orElse errorDescription "Authorization failed"))
       else if negb (Js.optTruthy code) || negb (Js.optTruthy state) then
         ret (createErrorResponse "invalid_request" "Missing code or state parameter")
       else
         let* storedRedirect := Auth.validateState now (default "" state) in
         if negb (Js.truthyValue storedRedirect) then
           ret (createErrorResponse "invalid_state" "Invalid or expired state parameter")
         else
           let* accessToken := Auth.exchangeCodeForToken gh (default "" code) in
           let* (sessionToken, session) := Auth.createSession gh random now accessToken in
           match storedRedirect with
           | Js.JText redirect =>
               if Js.startsWith "/cli-callback" redirect then
                 ret (createCliSuccessResponse sessionToken (AuthSession.username session))
               else
                 let* redirectUrl := newURL redirect (origin request) in
                 ret (createWebSuccessResponse sessionToken (AuthSession.username session)
                        redirectUrl)
           | _ => throw (mkError "storedRedirect.startsWith is not a function")
           end)
      (fun error => ret (createErrorResponse "server_error" (message error))).

End Callback.

(** ** Scenarios *)

(** Serving the same request at successive instants, each invocation
    starting in the world the previous one left. *)
Fixpoint serve (handler : Z -> Request -> M Response) (request : Request) (nows : list Z)
  : World -> list (Result Response) * World :=
  fun w =>
    match nows with
    | [] => ([], w)
    | now :: rest =>
        let '(r, w1) := handler now request w in
        let '(rs, w2) := serve handler request rest w1 in
        (r :: rs, w2)
    end.

(** The [remaining] a response reports in its body. *)
Definition reportedRemaining (r : Result Response) : option Z :=
  match r with
  | Ok (mkResponse _ (GenerateBody _ _ remaining _ _) _) => Some remaining
  | Ok (mkResponse _ (LimitsBody _ _ remaining _ _ _) _) => Some remaining
  | _ => None
  end.

Definition statusOf (r : Result Response) : option Z :=
  match r with
  | Ok resp => Some (status resp)
  | Throw _ => None
  end.

Definition codeOf (r : Result Response) : option string :=
  match r with
  | Ok (mkResponse _ (ErrorBody _ code _) _) => Some code
  | _ => None
  end.

(** A platform for the scenarios.  Its client reads the text [null] as the
    value null and a text that starts with a slash as the text it is, as any
    client that parses JSON does (no JSON text starts with a slash); its URL
    parser resolves the callback path against the origin.  It is exact on
    those inputs and does not stand for the client or the parser on others,
    which it answers as a plain text and as a failure. *)
Definition scenarioPlatform : Platform :=
  mkPlatform
    (fun s => if String.eqb s "null" then Js.JNull else Js.JText s)
    (fun input base =>
       if String.eqb input "/api/auth/callback" then Some (base +:+ input) else None).

(** A fresh instance in front of an empty, reachable store. *)
Definition emptyWorld : World := mkWorld ∅ [] ∅ [] [] [] scenarioPlatform.

(** One configured credential, the default budget cap, no webhook. *)
Definition oneKeyEnv : Env :=
  mkEnv (Some "AIza-primary") None None None None None
    (Some "https://store.upstash.example") (Some "store-token").

(** A backend that answers every call. *)
Definition echoBackend : Backend := fun _ _ _ => Generated "hello" None.

(** A POST of a short prompt that carries none of the identity headers. *)
Definition anonymousPost : Request :=
  mkRequest "POST" "https://proxy.example" ∅ ∅ (BodyJson (PromptString "Say hi") None None).

(** The identity headers a request can do without. *)
Definition noIdentityHeaders (r : Request) : Prop :=
  Js.optStartsWith "Bearer " (headers_get r "Authorization") = false /\
  headers_get r "X-GitHub-User" = None /\
  headers_get r "X-Forwarded-For" = None /\
  headers_get r "X-Real-IP" = None.

(** The precedence of identity resolution as the specification words it:
    the session a bearer token resolves to, else the [X-GitHub-User] header,
    else the hashed address.  [session] is what the bearer token of the
    request resolves to. *)
Definition resolveIdentitySpec (session : option AuthSession.t) (request : Request) : Identity :=
  match session with
  | Some s => mkIdentity (AuthSession.userId s) authenticated
  | None =>
      match headers_get request "X-GitHub-User" with
      | Some githubUser => mkIdentity ("github:" +:+ githubUser) authenticated
      | None => mkIdentity ("ip:" +:+ hashString (clientIp request)) anonymous
      end
  end.

(** A caller with a live session: the token [tok] of user 42. *)
Definition aliceSession : AuthSession.t :=
  AuthSession.mk "github:42" "alice" None None "https://avatars.example/42" "gho_x"
    1700000000000 1702592000000.

Definition sessionWorld : World :=
  mkWorld {["rocket:session:tok" := mkEntry (RJson aliceSession) (Some 1702592000000)]}
    [] ∅ [] [] [] scenarioPlatform.

Definition bearerRequest : Request :=
  mkRequest "POST" "https://proxy.example" {["authorization" := "Bearer tok"]} ∅
    (BodyJson (PromptString "Say hi") None None).

(** Requests that exercise the branches of identity resolution. *)
Definition githubUserRequest : Request :=
  mkRequest "GET" "" {["x-github-user" := "octocat"; "x-real-ip" := "10.0.0.9"]} ∅ BodyInvalid.

Definition realIpRequest : Request :=
  mkRequest "GET" "" {["x-real-ip" := "10.0.0.9"]} ∅ BodyInvalid.

Definition curlRequest : Request :=
  mkRequest "GET" "" {["user-agent" := "curl"]} ∅ BodyInvalid.

(** The key of the store under which a state nonce is kept. *)
Definition stateKey (state : string) : string := "rocket:oauth_state:" +:+ state.

(** An instant of 14 November 2023, and the five seconds after it. *)
Definition t0 : Z := 1700000000000.

Definition sixInstants : list Z :=
  [t0; t0 + 1000; t0 + 2000; t0 + 3000; t0 + 4000; t0 + 5000].

(** Scenario A: six requests in a row by one anonymous caller. *)
Definition scenarioA : list (Result Response) * World :=
  serve (Generate.handler oneKeyEnv echoBackend) anonymousPost sixInstants emptyWorld.

(** A day on which 20 dollars are already on the ledger, the cap being 10;
    [schedule] says which round trips to the store fail. *)
Definition overBudgetWorld (schedule : list bool) : World :=
  mkWorld {["rocket:analytics:" +:+ getTodayKey t0 +:+ ":cost" := mkEntry (RInt 2000000) None]}
    schedule ∅ [] [] [] scenarioPlatform.

(** A backend that reports its exact token usage with every answer. *)
Definition meteredBackend : Backend :=
  fun _ _ _ => Generated "abcd" (Some (mkUsageMetadata (Some 400) (Some 600) (Some 1000))).


(** One credential and an alert webhook; the cap is the default 10. *)
Definition alertEnv : Env :=
  mkEnv (Some "AIza-primary") None None None (Some "https://hooks.slack.example/T000") None
    (Some "https://store.upstash.example") (Some "store-token").

(** Scenario C: the ledger of the day stands at 8.40 dollars, 84% of the cap. *)
Definition scenarioCWorld : World :=
  mkWorld {["rocket:analytics:" +:+ getTodayKey t0 +:+ ":cost" := mkEntry (RInt 840000) None]}
    [] ∅ [] [] [] scenarioPlatform.

(** The last second of 14 November 2023 and the second after midnight. *)
Definition beforeMidnight : Z := 1700006399000.
Definition afterMidnight : Z := 1700006401000.

(** A cap of a tenth of a cent, and a request of 4500 tokens, which costs
    84% of it. *)
Definition smallCapEnv : Env :=
  mkEnv (Some "AIza-primary") None None (Some (1 # 1000)%Q)
    (Some "https://hooks.slack.example/T000") None
    (Some "https://store.upstash.example") (Some "store-token").

Definition largeRequest (now : Z) : RequestLog :=
  mkRequestLog now "ip:4pl4mu" anonymous 4500 (calculateCost 4500) "gemini-1.5-flash" "primary".



(** A validated POST: what the handler requires before the admission checks. *)
Definition validPost (request : Request) (prompt : string) (temperature maxTokens : option Q)
  : Prop :=
  method request = "POST" /\
  body request = BodyJson (PromptString prompt) temperature maxTokens /\
  prompt <> "" /\
  Z.of_nat (String.length prompt) <= 32000.

(** [usedNoLater a b]: [a] was last used no later than [b], a key that was
    never used coming before any that was. *)
Definition usedNoLater (a b : GeminiKey) : Prop :=
  match lastUsed a, lastUsed b with
  | None, _ => True
  | Some _, None => False
  | Some ta, Some tb => ta <= tb
  end.

(** Every entry of the credential table sits under its own name, which is
    how [getOrCreateKeyState] files it. *)
Definition wellKeyed (ks : gmap string GeminiKey) : Prop :=
  forall n k, ks !! n = Some k -> name k = n.

(** The configured keys are the entries of the table under their names. *)
Definition filed (acc : list GeminiKey * gmap string GeminiKey) : Prop :=
  wellKeyed acc.2 /\ forall k, k ∈ acc.1 -> acc.2 !! name k = Some k.

(** The names [getConfiguredKeys] asks for, in its order, each with the
    variable of the environment that configures it. *)
Definition slots (env : Env) : list (string * option string) :=
  [("primary", GEMINI_KEY_PRIMARY env);
   ("fallback1", GEMINI_KEY_FALLBACK_1 env);
   ("fallback2", GEMINI_KEY_FALLBACK_2 env)].

(** The credentials to choose from when the table is [ks], as read off
    [seen]: for every name that is configured, the record the table holds
    under that name, with the health and the last use it records, or, when the
    table holds none, a new record, healthy and never used. *)
Definition candidateOf (seen : list (string * option string)) (ks : gmap string GeminiKey)
    (k : GeminiKey) : Prop :=
  exists n v,
    (n, v) ∈ seen /\
    Js.optTruthy v = true /\
    k = default (mkGeminiKey (default "" v) n true None None 0) (ks !! n).

(** [candidate env ks k]: [k] is one of the credentials [selectKey] has to
    choose from in the environment [env] when the table is [ks]. *)
Definition candidate (env : Env) (ks : gmap string GeminiKey) (k : GeminiKey) : Prop :=
  candidateOf (slots env) ks k.

(** What the accumulator of [getConfiguredKeys] holds once the names of
    [seen] have been asked for, the table having been [ks] at the start. *)
Definition collected (seen : list (string * option string)) (ks : gmap string GeminiKey)
    (acc : list GeminiKey * gmap string GeminiKey) : Prop :=
  (forall k, k ∈ acc.1 <-> candidateOf seen ks k) /\
  (forall m, m ∉ seen.*1 -> acc.2 !! m = ks !! m) /\
  (forall m k, acc.2 !! m = Some k -> ks !! m = Some k \/ (k ∈ acc.1 /\ ks !! m = None)).

(** The classification of a failure by [generateWithRotation]: whether the
    loop goes on to another attempt, and the [lastError] text it files. *)
Definition retryable (e : Error) : bool :=
  isRateLimited (Js.toLowerCase (message e)) || isInvalidKey (Js.toLowerCase (message e)).

Definition failureReason (e : Error) : string :=
  if isRateLimited (Js.toLowerCase (message e)) then "Rate limited" else "Invalid API key".

(** Whether a credential is configured at all. *)
Definition configured (env : Env) : bool :=
  Js.optTruthy (GEMINI_KEY_PRIMARY env)
  || Js.optTruthy (GEMINI_KEY_FALLBACK_1 env)
  || Js.optTruthy (GEMINI_KEY_FALLBACK_2 env).

(** A backend that turns every call down for quota. *)
Definition exhaustedBackend : Backend :=
  fun _ _ _ => Rejected (mkError "429 Too Many Requests").

(** Three credentials configured, and a table in which the primary was
    used at instant 100, the first fallback was never used and is unhealthy,
    and the second fallback was used at instant 50. *)
Definition threeKeyEnv : Env :=
  mkEnv (Some "AIza-primary") (Some "AIza-fallback1") (Some "AIza-fallback2") None None None
    (Some "https://store.upstash.example") (Some "store-token").

Definition primaryKey : GeminiKey :=
  mkGeminiKey "AIza-primary" "primary" true None (Some 100) 7.
Definition fallback1Key : GeminiKey :=
  mkGeminiKey "AIza-fallback1" "fallback1" false (Some "Rate limited") None 0.
Definition fallback2Key : GeminiKey :=
  mkGeminiKey "AIza-fallback2" "fallback2" true None (Some 50) 3.

Definition poolTable : gmap string GeminiKey :=
  <["primary" := primaryKey]> (<["fallback1" := fallback1Key]> (<["fallback2" := fallback2Key]> ∅)).

(** The start of a web login, and a status query by the anonymous caller. *)
Definition loginRequest : Request := mkRequest "GET" "https://proxy.example" ∅ ∅ BodyInvalid.

Definition anonymousGet : Request := mkRequest "GET" "https://proxy.example" ∅ ∅ BodyInvalid.

(** The world once the anonymous caller has had one request admitted. *)
Definition afterOneRequest : World :=
  snd (Generate.handler oneKeyEnv echoBackend t0 anonymousPost emptyWorld).

(** The start of a web login that asks to be sent on to [null]. *)
Definition nullRedirectLogin : Request :=
  mkRequest "GET" "https://proxy.example" ∅ {["redirect" := "null"]} BodyInvalid.

(** The world once a web login was started with the state [nonce]. *)
Definition afterLoginStart : World :=
  snd (Github.handler "nonce" t0 loginRequest emptyWorld).

(** [Keeps proj m]: running [m] never changes the part [proj] of the world. *)
Definition Keeps {X A : Type} (proj : World -> X) (m : M A) : Prop :=
  forall w, proj (snd (m w)) = proj w.

(** Reading a base-36 text back into the number it writes. *)
Definition digitValue (c : ascii) : Z :=
  let n := Z.of_N (N_of_ascii c) in
  if n <? 58 then n - 48 else n - 87.

Fixpoint parse36 (s : string) (acc : Z) : Z :=
  match s with
  | EmptyString => acc
  | String c s' => parse36 s' (acc * 36 + digitValue c)
  end.

(** ** Client address ([getClientIP] of [lib/rate-limit.ts]) *)

Definition getClientIP (headers : gmap string string) : string :=
  let forwardedFor := headers !! "x-forwarded-for" in
  if Js.optTruthy forwardedFor then Js.trim (Js.splitHead "," (default "" forwardedFor))
  else
    let realIP := headers !! "x-real-ip" in
    if Js.optTruthy realIP then default "" realIP
    else
      let vercelIP := headers !! "x-vercel-forwarded-for" in
      if Js.optTruthy vercelIP then Js.trim (Js.splitHead "," (default "" vercelIP))
      else "unknown".

(** ** Key health ([getKeyHealth], [hasConfiguredKeys]) *)

Module KeyHealth.
Record t := mk {
  name : string;
  isHealthy : bool;
  lastError : option string;
  requestCount : Z
}.
End KeyHealth.

Definition getKeyHealth (env : Env) (ks : gmap string GeminiKey)
  : list KeyHealth.t * gmap string GeminiKey :=
  let '(keys, ks1) := getConfiguredKeys env ks in
  (map (fun k => KeyHealth.mk (name k) (isHealthy k) (lastError k) (requestCount k)) keys, ks1).

Definition hasConfiguredKeys (env : Env) : bool := Js.optTruthy (GEMINI_KEY_PRIMARY env).

(** ** Metrics of a given day ([getMetricsForDate]) *)


(** ** GET /api/health *)

Module Health.

Inductive Status := healthy | degraded | unhealthy.

(** The state of a component: "ok", "degraded" or "error". *)
Inductive Component := ok | impaired | error.

Record Metrics := mkMetrics {
  requestsToday : Z;
  estimatedCostToday : Q;
  healthyKeys : Z;
  totalKeys : Z
}.

(** [timestamp] is the instant whose ISO text the body carries. *)
Record HealthResponse := mkHealthResponse {
  status : Status;
  timestamp : Z;
  version : string;
  redis : Component;
  gemini : Component;
  metrics : option Metrics
}.

Inductive Reply :=
| MethodNotAllowed
| Report (statusCode : Z) (health : HealthResponse).

Definition withStatus (s : Status) (h : HealthResponse) : HealthResponse :=
  mkHealthResponse s (timestamp h) (version h) (redis h) (gemini h) (metrics h).
Definition withRedis (c : Component) (h : HealthResponse) : HealthResponse :=
  mkHealthResponse (status h) (timestamp h) (version h) c (gemini h) (metrics h).
Definition withGemini (c : Component) (h : HealthResponse) : HealthResponse :=
  mkHealthResponse (status h) (timestamp h) (version h) (redis h) c (metrics h).
Definition withMetrics (m : Metrics) (h : HealthResponse) : HealthResponse :=
  mkHealthResponse (status h) (timestamp h) (version h) (redis h) (gemini h) (Some m).

(** The verdict on the credentials, given how many are healthy. *)
Definition judgeKeys (healthyKeys totalKeys : Z) (h : HealthResponse) : HealthResponse :=
  if totalKeys =? 0 then withStatus unhealthy (withGemini error h)
  else if healthyKeys =? 0 then withStatus unhealthy (withGemini error h)
  else if healthyKeys <? totalKeys then
    match status h with
    | healthy => withStatus degraded (withGemini impaired h)
    | _ => withGemini impaired h
    end
  else h.

(** [commitSha] is [process.env.VERCEL_GIT_COMMIT_SHA].  The probe makes
    its own client from the environment and pings with it: one round trip to
    the store, which cannot be made when the URL or the token is missing. *)
Definition handler (commitSha : option string) (env : Env) (now : Z) (request : Request)
  : M Reply :=
  if negb (String.eqb (method request) "GET") then ret MethodNotAllowed
  else
    let health0 :=
      mkHealthResponse healthy now (default "dev" (Js.take 7 <$> commitSha)) ok ok None in
    let* health1 :=
      tryCatch
        ((if storeConfigured env then roundTrip else throw (mkError "fetch failed")) ;;
         ret (withRedis ok health0))
        (fun _ => ret (withStatus unhealthy (withRedis error health0))) in
    let* health2 :=
      tryCatch
        (let* keyHealth :=
           (fun w => let '(found, ks1) := getKeyHealth env (keyStates w) in
                     (Ok found, with_keyStates ks1 w)) in
         let healthyKeys := Z.of_nat (length (List.filter KeyHealth.isHealthy keyHealth)) in
         let totalKeys := Z.of_nat (length keyHealth) in
         let judged := judgeKeys healthyKeys totalKeys health1 in
         let includeMetrics := bool_decide (query request !! "metrics" = Some "true") in
         if includeMetrics then
           let* today := getTodayMetrics env now in
           ret (withMetrics
                  (mkMetrics (totalRequests today) (estimatedCost today) healthyKeys totalKeys)
                  judged)
         else ret judged)
        (fun _ => ret (withStatus degraded (withGemini error health1))) in
    let statusCode :=
      match status health2 with
      | healthy => 200
      | degraded => 200
      | unhealthy => 503
      end in
    ret (Report statusCode health2).

End Health.

(** ** Device flow and request validation ([lib/auth.ts]) *)

Record DeviceCodeResponse := mkDeviceCodeResponse {
  device_code : string;
  user_code : string;
  verification_uri : string;
  expires_in : Z;
  interval : Z
}.

(** What GitHub answers to the start of a device flow and to a poll for
    its token. *)
Record DeviceGitHub := mkDeviceGitHub {
  deviceCodeOk : bool;
  deviceCodeStatus : Z;
  deviceCodeData : DeviceCodeResponse;
  deviceTokenEndpoint : string -> TokenResponse
}.

Module PollStatus.
Inductive t := pending | success | expired | error.
End PollStatus.

Module Poll.
Record t := mk {
  status : PollStatus.t;
  token : option string;
  error : option string
}.
End Poll.

Definition deviceCodeUrl : string := "https://github.com/login/device/code".

(** [startDeviceFlow] *)
Definition startDeviceFlow (gh : DeviceGitHub) : M DeviceCodeResponse :=
  fetch deviceCodeUrl "" ;;
  if negb (deviceCodeOk gh) then
    throw (mkError ("Device flow initiation failed: " +:+ pretty (deviceCodeStatus gh)))
  else ret (deviceCodeData gh).

(** [pollDeviceToken] *)
Definition pollDeviceToken (gh : DeviceGitHub) (deviceCode : string) : M Poll.t :=
  fetch Auth.tokenUrl deviceCode ;;
  let data := deviceTokenEndpoint gh deviceCode in
  if bool_decide (error data = Some "authorization_pending") then
    ret (Poll.mk PollStatus.pending None None)
  else if bool_decide (error data = Some "slow_down") then
    ret (Poll.mk PollStatus.pending None None)
  else if bool_decide (error data = Some "expired_token") then
    ret (Poll.mk PollStatus.expired None None)
  else if Js.optTruthy (error data) then
    ret (Poll.mk PollStatus.error None
           (Some (Js.orElse (error_description data) (default "" (error data)))))
  else if Js.optTruthy (access_token data) then
    ret (Poll.mk PollStatus.success (access_token data) None)
  else ret (Poll.mk PollStatus.error None (Some "Unknown response")).

(** [validateRequest]: the session, when the request is authenticated.
    As with [getSession], [None] is a call that has not returned. *)
Definition validateRequest (fuel : nat) (now : Z) (request : Request)
  : M (option (option AuthSession.t)) :=
  let authHeader := headers_get request "Authorization" in
  if negb (Js.optStartsWith "Bearer " authHeader) then ret (Some None)
  else
    let token := Js.slice 7 (default "" authHeader) in
    Auth.getSession fuel now token.

(** ** [escapeHtml] of [api/auth/callback.ts] *)

(** [s.replace(/c/g, by)] for a one-character pattern *)
Fixpoint replaceAll (c : ascii) (by_ : string) (s : string) : string :=
  match s with
  | EmptyString => EmptyString
  | String a s' =>
      if Ascii.eqb a c then by_ +:+ replaceAll c by_ s' else String a (replaceAll c by_ s')
  end.

Definition quote : ascii := ascii_of_N 34.

Definition escapeHtml (str : string) : string :=
  replaceAll "'" "&#039;"
    (replaceAll quote "&quot;"
       (replaceAll ">" "&gt;"
          (replaceAll "<" "&lt;"
             (replaceAll "&" "&amp;" str)))).

(** ** POST /api/auth/device and /api/auth/device/poll *)

(** [s.endsWith(suffix)] *)
Fixpoint endsWith (suffix s : string) : bool :=
  String.eqb suffix s ||
  match s with
  | EmptyString => false
  | String _ s' => endsWith suffix s'
  end.

Module Device.

(** What [await request.json()] gives to the poll: a rejection, [null], or
    an object with its [device_code], if it has one. *)
Inductive PollBody :=
| PollInvalid (e : Error)
| PollNull
| PollJson (device_code : option string).

Inductive Payload :=
| NoContent
| Failure (error : string)
| Started (user_code verification_uri : string) (expires_in interval : Z) (device_code : string)
| Polled (status : PollStatus.t) (token : option string)
         (user : option (string * option string)) (error : option string).

Record Reply := mkReply {
  status : Z;
  payload : Payload;
  replyHeaders : list (string * string)
}.

Definition corsHeaders : list (string * string) :=
  [("Access-Control-Allow-Origin", "*");
   ("Access-Control-Allow-Methods", "POST, OPTIONS");
   ("Access-Control-Allow-Headers", "Content-Type")].

Definition jsonResponse (data : Payload) (status : Z) : Reply :=
  mkReply status data (("Content-Type", "application/json") :: corsHeaders).

Definition handleStart (dgh : DeviceGitHub) (request : Request) : M Reply :=
  if negb (String.eqb (method request) "POST") then
    ret (jsonResponse (Failure "Method not allowed") 405)
  else
    tryCatch
      (let* deviceCode := startDeviceFlow dgh in
       ret (jsonResponse
              (Started (user_code deviceCode) (verification_uri deviceCode)
                 (expires_in deviceCode) (interval deviceCode) (device_code deviceCode))
              200))
      (fun error => ret (jsonResponse (Failure (message error)) 500)).

Definition isSuccess (s : PollStatus.t) : bool :=
  match s with PollStatus.success => true | _ => false end.

Definition handlePoll (gh : GitHub) (dgh : DeviceGitHub) (random : string) (now : Z)
    (request : Request) (body : PollBody) : M Reply :=
  if negb (String.eqb (method request) "POST") then
    ret (jsonResponse (Failure "Method not allowed") 405)
  else
    tryCatch
      (match body with
       | PollInvalid e => throw e
       | PollNull => throw (mkError "Cannot read properties of null (reading 'device_code')")
       | PollJson device_code =>
           if negb (Js.optTruthy device_code) then
             ret (jsonResponse (Failure "Missing device_code") 400)
           else
             let* result := pollDeviceToken dgh (default "" device_code) in
             if isSuccess (Poll.status result) && Js.optTruthy (Poll.token result) then
               let* (sessionToken, session) :=
                 Auth.createSession gh random now (default "" (Poll.token result)) in
               ret (jsonResponse
                      (Polled PollStatus.success (Some sessionToken)
                         (Some (AuthSession.username session, AuthSession.name session)) None)
                      200)
             else
               ret (jsonResponse (Polled (Poll.status result) None None (Poll.error result)) 200)
       end)
      (fun error => ret (jsonResponse (Failure (message error)) 500)).

(** [pathname] is the path of the request URL, [body] what
    [await request.json()] gives. *)
Definition handler (gh : GitHub) (dgh : DeviceGitHub) (random : string) (now : Z)
    (pathname : string) (request : Request) (body : PollBody) : M Reply :=
  if String.eqb (method request) "OPTIONS" then ret (mkReply 204 NoContent corsHeaders)
  else if endsWith "/device/poll" pathname then handlePoll gh dgh random now request body
  else handleStart dgh request.

End Device.

(** ** GET and DELETE /api/auth/me *)

Module Me.

(** The [created_at] and [expires_at] of the body are the ISO texts of the
    two instants. *)
Inductive Payload :=
| NoContent
| Failure (error : string)
| Message (message : string)
| Unauthenticated
| Authenticated (id username : string) (name email : option string) (avatar_url : string)
                (created_at expires_at : Z).

Record Reply := mkReply {
  status : Z;
  payload : Payload;
  replyHeaders : list (string * string)
}.

Definition corsHeaders : list (string * string) :=
  [("Access-Control-Allow-Origin", "*");
   ("Access-Control-Allow-Methods", "GET, DELETE, OPTIONS");
   ("Access-Control-Allow-Headers", "Content-Type, Authorization")].

Definition jsonResponse (data : Payload) (status : Z) : Reply :=
  mkReply status data (("Content-Type", "application/json") :: corsHeaders).

Definition handleGetUser (fuel : nat) (now : Z) (request : Request) : M (option Reply) :=
  let* validated := validateRequest fuel now request in
  match validated with
  | None => ret None
  | Some None => ret (Some (jsonResponse Unauthenticated 200))
  | Some (Some session) =>
      ret (Some (jsonResponse
                   (Authenticated (AuthSession.userId session) (AuthSession.username session)
                      (AuthSession.name session) (AuthSession.email session)
                      (AuthSession.avatarUrl session)
                      (AuthSession.createdAt session) (AuthSession.expiresAt session))
                   200))
  end.

Definition handleLogout (fuel : nat) (now : Z) (request : Request) : M (option Reply) :=
  let authHeader := headers_get request "Authorization" in
  if negb (Js.optStartsWith "Bearer " authHeader) then
    ret (Some (jsonResponse (Failure "Not authenticated") 401))
  else
    let token := Js.slice 7 (default "" authHeader) in
    tryCatch
      (let* deleted := Auth.deleteSession fuel now token in
       match deleted with
       | None => ret None
       | Some _ => ret (Some (jsonResponse (Message "Logged out successfully") 200))
       end)
      (fun _ => ret (Some (jsonResponse (Failure "Logout failed") 500))).

(** [None] is an invocation that has not returned within [fuel] calls
    between [getSession] and [deleteSession]. *)
Definition handler (fuel : nat) (now : Z) (request : Request) : M (option Reply) :=
  if String.eqb (method request) "OPTIONS" then ret (Some (mkReply 204 NoContent corsHeaders))
  else if String.eqb (method request) "DELETE" then handleLogout fuel now request
  else if String.eqb (method request) "GET" then handleGetUser fuel now request
  else ret (Some (jsonResponse (Failure "Method not allowed") 405)).

End Me.

(** The world scenario A ends in: the quota of the anonymous caller is used up. *)
Definition quotaSpentWorld : World := snd scenarioA.

(** A deployment whose environment does not name the store. *)
Definition unconfiguredEnv : Env :=
  mkEnv (Some "AIza-primary") None None None None None None None.

(** A deployment without any credential. *)
Definition noKeyEnv : Env :=
  mkEnv None None None None None None
    (Some "https://store.upstash.example") (Some "store-token").

(** The store, the schedules of its round trips and of the network, and the
    analytics log are the same in both worlds. *)
Definition sameLedgerAndLog (w w' : World) : Prop :=
  db w' = db w /\ faults w' = faults w /\ tracked w' = tracked w /\ netFaults w' = netFaults w.

(** A request that carries the bearer token [token]. *)
Definition withBearer (token : string) : Request :=
  mkRequest "POST" "https://proxy.example" {["authorization" := "Bearer " +:+ token]} ∅
    (BodyJson (PromptString "Say hi") None None).

(** The code unit of a character, as [charCodeAt] gives it. *)
Definition charCode (c : ascii) : Z := Z.of_N (N_of_ascii c).

(** The successes the table counts for the key named [n]. *)
Definition successes (ks : gmap string GeminiKey) (n : string) : Z :=
  default 0 (requestCount <$> ks !! n).

(** [k] was last used before [now], if ever. *)
Definition usedBefore (now : Z) (k : GeminiKey) : Prop :=
  match lastUsed k with
  | None => True
  | Some t => t < now
  end.

(** An instance whose table is [poolTable], in front of an empty store. *)
Definition poolWorld : World := mkWorld ∅ [] poolTable [] [] [] scenarioPlatform.

(** The counter the store holds under [k], an absent or expired key
    counting as zero. *)
Definition counterAt (now : Z) (d : gmap string Entry) (k : string) : Z :=
  numberOr0 (value <$> lookupLive now d k).

(** The key [k] is free or holds a counter. *)
Definition holdsCounter (now : Z) (d : gmap string Entry) (k : string) : Prop :=
  forall e, lookupLive now d k = Some e -> exists n, value e = RInt n.

(** The key of the store a command acts on. *)
Definition commandKey (c : Redis.Command) : string :=
  match c with
  | Redis.INCRBY k _ => k
  | Redis.ZINCRBY k _ _ => k
  | Redis.EXPIRE k _ => k
  | Redis.SADD k _ => k
  | Redis.SREM k _ => k
  end.



(** A request of 1000 tokens by an authenticated caller. *)
Definition sampleLog : RequestLog :=
  mkRequestLog t0 "github:2gr4" authenticated 1000 (calculateCost 1000) "gemini-1.5-flash"
    "primary".

(** A day's figures: 9 dollars spent, and later 9.50. *)
Definition nineDollars : UsageMetrics := mkUsageMetrics 4000 48000000 (9 # 1) 4000 0.
Definition nineFifty : UsageMetrics := mkUsageMetrics 4200 50600000 (95 # 10) 4200 0.

(** The key [k] is free or holds a set. *)
Definition holdsSet (now : Z) (d : gmap string Entry) (k : string) : Prop :=
  forall e, lookupLive now d k = Some e -> exists members, value e = RSet members.

(** The session [createSession] builds for a user at [now]. *)
Definition sessionOf (user : GitHubUser.t) (accessToken : string) (now : Z) : AuthSession.t :=
  AuthSession.mk ("github:" +:+ pretty (GitHubUser.id user)) (GitHubUser.login user)
    (GitHubUser.name user) (GitHubUser.email user) (GitHubUser.avatar_url user)
    accessToken now (now + Auth.expiresIn).

(** The keys of a session and of the sessions of a user. *)
Definition sessionKey (sessionToken : string) : string := "rocket:session:" +:+ sessionToken.
Definition userSessionsKey (id : string) : string := "rocket:user_sessions:" +:+ id.

(** Whether [member] is in the set the store holds under [k]. *)
Definition inSet (now : Z) (d : gmap string Entry) (k member : string) : Prop :=
  exists e members, lookupLive now d k = Some e /\ value e = RSet members /\ member ∈ members.

(** A GitHub that knows the user octocat behind the access token "gho_x". *)
Definition octocat : GitHubUser.t :=
  GitHubUser.mk 583231 "octocat" (Some "The Octocat") None "https://avatars.example/583231".

Definition friendlyGitHub : GitHub :=
  mkGitHub (fun _ => mkTokenResponse true 200 (Some "gho_x") None None)
           (fun _ => mkUserResponse true 200 octocat).

(** A request to /api/auth/me that carries the bearer token [token]. *)
Definition meRequest (method token : string) : Request :=
  mkRequest method "https://proxy.example" {["authorization" := "Bearer " +:+ token]} ∅
    BodyInvalid.

(** The world after octocat has logged in and holds the session "5f2a". *)
Definition loggedInWorld : World :=
  snd (Auth.createSession friendlyGitHub "5f2a" t0 "gho_x" emptyWorld).

(** The callback GitHub redirects to, with a code and the state. *)
Definition callbackRequest (code state : string) : Request :=
  mkRequest "GET" "https://proxy.example" ∅ {["code" := code; "state" := state]} BodyInvalid.

(** A GitHub that refuses every code. *)
Definition refusingGitHub : GitHub :=
  mkGitHub (fun _ => mkTokenResponse true 200 None (Some "bad_verification_code") None)
           (fun _ => mkUserResponse false 401 octocat).

(** A POST without the identity headers, and a GitHub whose device flow is
    still waiting for the user, or has been confirmed. *)
Definition pollRequest : Request :=
  mkRequest "POST" "https://proxy.example" ∅ ∅ BodyInvalid.

Definition sampleDeviceCode : DeviceCodeResponse :=
  mkDeviceCodeResponse "dev-1" "WDJB-MJHT" "https://github.com/login/device" 900 5.

Definition waitingGitHub : DeviceGitHub :=
  mkDeviceGitHub true 200 sampleDeviceCode
    (fun _ => mkTokenResponse true 200 None (Some "authorization_pending") None).

Definition confirmedGitHub : DeviceGitHub :=
  mkDeviceGitHub true 200 sampleDeviceCode
    (fun _ => mkTokenResponse true 200 (Some "gho_x") None None).

(** No configured credential is healthy in the table (none is, when none
    is configured). *)
Definition noHealthyKey (env : Env) (ks : gmap string GeminiKey) : Prop :=
  forall k, k ∈ (getConfiguredKeys env ks).1 -> isHealthy k = false.

(** The table holds every record of [ks] as it is. *)
Definition keepsRecords (ks ks' : gmap string GeminiKey) : Prop :=
  forall n k, ks !! n = Some k -> ks' !! n = Some k.

(** A health probe that asks for the metrics. *)
Definition healthRequest : Request :=
  mkRequest "GET" "https://proxy.example" ∅ {["metrics" := "true"]} BodyInvalid.

(** Whether the character [c] occurs in [s]. *)
Fixpoint hasChar (c : ascii) (s : string) : bool :=
  match s with
  | EmptyString => false
  | String a s' => Ascii.eqb a c || hasChar c s'
  end.

(** The entity [escapeHtml] is meant to write for a character. *)
Definition escapeChar (c : ascii) : string :=
  if Ascii.eqb c "&" then "&amp;"
  else if Ascii.eqb c "<" then "&lt;"
  else if Ascii.eqb c ">" then "&gt;"
  else if Ascii.eqb c quote then "&quot;"
  else if Ascii.eqb c "'" then "&#039;"
  else String c EmptyString.

(** * Properties *)

(** ** Base-36 text *)

Lemma digitValue_digit36 (d : Z) : 0 <= d < 36 -> digitValue (Js.digit36 d) = d.
Proof.
  intros Hd. unfold digitValue, Js.digit36.
  destruct (Z.ltb_spec d 10).
  - rewrite N_ascii_embedding by lia. rewrite Z2N.id by lia.
    destruct (Z.ltb_spec (48 + d) 58); lia.
  - rewrite N_ascii_embedding by lia. rewrite Z2N.id by lia.
    destruct (Z.ltb_spec (87 + d) 58); lia.
Qed.

Lemma digits36_parse (fuel : nat) :
  forall n acc,
    (1 <= fuel)%nat ->
    0 <= n < 2 ^ Z.of_nat fuel ->
    parse36 (Js.digits36 fuel n acc) 0 = parse36 acc n.
Proof.
  induction fuel as [| fuel IH]; intros n acc Hfuel Hn; [lia |].
  cbn [Js.digits36].
  assert (Hmod : 0 <= n mod 36 < 36) by (apply Z.mod_pos_bound; lia).
  assert (Hdiv : n = n / 36 * 36 + n mod 36) by (rewrite Z.mul_comm; apply Z.div_mod; lia).
  destruct (Z.eqb_spec (n / 36) 0) as [Hz | Hnz].
  - cbn [parse36]. rewrite digitValue_digit36 by done. f_equal. lia.
  - assert (0 < n / 36) by (pose proof (Z.div_pos n 36); lia).
    rewrite Nat2Z.inj_succ, Z.pow_succ_r in Hn by lia.
    assert (Hlt : n / 36 < 2 ^ Z.of_nat fuel) by (apply Z.div_lt_upper_bound; lia).
    rewrite IH.
    + cbn [parse36]. rewrite digitValue_digit36 by done. f_equal. lia.
    + destruct fuel; [cbn in Hlt; lia | lia].
    + lia.
Qed.

(** The text [toString36] writes for a non-negative number reads back as
    that number: the digits are all there, in the order of base 36. *)
Lemma toString36_parse (n : Z) : 0 <= n -> parse36 (Js.toString36 n) 0 = n.
Proof.
  intros Hn. unfold Js.toString36. rewrite digits36_parse; [reflexivity | lia |].
  rewrite Nat2Z.inj_succ, Z2Nat.id by apply Z.log2_nonneg.
  destruct (Z.eq_dec n 0) as [-> | Hne]; [cbn; lia |].
  pose proof (Z.log2_spec n). lia.
Qed.

(** ** Identity resolution *)

(** The first entry of a forwarded-for list, trimmed. *)
Example clientIp_forwarded :
  clientIp (mkRequest "GET" "" {["x-forwarded-for" := " 10.0.0.1 , 10.0.0.2"]} ∅ BodyInvalid)
  = "10.0.0.1".
Proof. vm_compute. reflexivity. Qed.

Example hashString_unknown : hashString "unknown" = "4pl4mu".
Proof. vm_compute. reflexivity. Qed.

Lemma getUserIdentifier_bearer (r : Request) (authHeader : string) :
  headers_get r "Authorization" = Some authHeader ->
  Js.startsWith "Bearer " authHeader = true ->
  getUserIdentifier r = mkIdentity ("github:" +:+ hashString (Js.slice 7 authHeader)) authenticated.
Proof.
  intros Hget Hpre. unfold getUserIdentifier. rewrite Hget. cbn [Js.optStartsWith].
  rewrite Hpre. reflexivity.
Qed.

Lemma getUserIdentifier_githubUser (r : Request) (githubUser : string) :
  Js.optStartsWith "Bearer " (headers_get r "Authorization") = false ->
  headers_get r "X-GitHub-User" = Some githubUser ->
  githubUser <> "" ->
  getUserIdentifier r = mkIdentity ("github:" +:+ githubUser) authenticated.
Proof.
  intros Hno Hget Hne. unfold getUserIdentifier. rewrite Hno, Hget.
  destruct githubUser; [congruence | reflexivity].
Qed.

Lemma getUserIdentifier_ip (r : Request) :
  Js.optStartsWith "Bearer " (headers_get r "Authorization") = false ->
  Js.optTruthy (headers_get r "X-GitHub-User") = false ->
  getUserIdentifier r = mkIdentity ("ip:" +:+ hashString (clientIp r)) anonymous.
Proof.
  intros Hno Hgh. unfold getUserIdentifier. rewrite Hno, Hgh. reflexivity.
Qed.

(** C3 (as stated) fails: a bearer token that resolves to a live session
    does not yield the identity of that session.  The token [tok] resolves
    to the session of [github:42], and the request is billed to the hash of
    the token text. *)
Lemma C3_bearer_is_not_resolved :
  fst (Auth.getSession 1 1700000001000 "tok" sessionWorld) = Ok (Some (Some aliceSession)) /\
  headers_get bearerRequest "Authorization" = Some "Bearer tok" /\
  getUserIdentifier bearerRequest = mkIdentity "github:2gr4" authenticated /\
  getUserIdentifier bearerRequest <> resolveIdentitySpec (Some aliceSession) bearerRequest.
Proof. vm_compute. repeat split; congruence. Qed.

(** C3 (amended): the precedence of [getUserIdentifier].  A header that
    starts with [Bearer ] yields [github:<hashString of the token text>]
    with tier authenticated, no session being looked up; otherwise a
    non-empty [X-GitHub-User] yields [github:<user>] with tier authenticated;
    otherwise the address (first forwarded-for entry trimmed, else the real-IP
    header, else the text unknown) is hashed into [ip:<hash>] with tier
    anonymous. *)
Theorem C3_identity_precedence (r : Request) :
  (forall authHeader,
      headers_get r "Authorization" = Some authHeader ->
      Js.startsWith "Bearer " authHeader = true ->
      getUserIdentifier r
      = mkIdentity ("github:" +:+ hashString (Js.slice 7 authHeader)) authenticated) /\
  (forall githubUser,
      Js.optStartsWith "Bearer " (headers_get r "Authorization") = false ->
      headers_get r "X-GitHub-User" = Some githubUser ->
      githubUser <> "" ->
      getUserIdentifier r = mkIdentity ("github:" +:+ githubUser) authenticated) /\
  (Js.optStartsWith "Bearer " (headers_get r "Authorization") = false ->
   Js.optTruthy (headers_get r "X-GitHub-User") = false ->
   getUserIdentifier r = mkIdentity ("ip:" +:+ hashString (clientIp r)) anonymous /\
   clientIp r
   = Js.orElse (Js.trim ∘ Js.splitHead "," <$> headers_get r "X-Forwarded-For")
       (Js.orElse (headers_get r "X-Real-IP") "unknown")).
Proof.
  split; [| split].
  - apply getUserIdentifier_bearer.
  - apply getUserIdentifier_githubUser.
  - intros Hno Hgh. split; [by apply getUserIdentifier_ip | reflexivity].
Qed.

(** The three branches of the precedence, on concrete requests. *)
Lemma C3_identity_precedence_witness :
  getUserIdentifier bearerRequest
  = mkIdentity ("github:" +:+ hashString (Js.slice 7 "Bearer tok")) authenticated /\
  getUserIdentifier githubUserRequest = mkIdentity ("github:" +:+ "octocat") authenticated /\
  getUserIdentifier realIpRequest
  = mkIdentity ("ip:" +:+ hashString (clientIp realIpRequest)) anonymous.
Proof.
  split; [| split].
  - refine (proj1 (C3_identity_precedence bearerRequest) "Bearer tok" _ _);
      vm_compute; reflexivity.
  - refine (proj1 (proj2 (C3_identity_precedence githubUserRequest)) "octocat" _ _ _);
      [vm_compute; reflexivity | vm_compute; reflexivity | discriminate].
  - refine (proj1 (proj2 (proj2 (C3_identity_precedence realIpRequest)) _ _));
      vm_compute; reflexivity.
Defined.

(** C10: a request with no bearer Authorization header and none of the
    X-GitHub-User, X-Forwarded-For and X-Real-IP headers is resolved to tier
    anonymous under the one identity [ip:<hashString "unknown">], so any two
    such requests are counted against the same key of the anonymous limiter. *)
Theorem C10_unknown_callers_share_bucket (r1 r2 : Request) :
  noIdentityHeaders r1 ->
  noIdentityHeaders r2 ->
  getUserIdentifier r1 = mkIdentity ("ip:" +:+ hashString "unknown") anonymous /\
  getUserIdentifier r1 = getUserIdentifier r2 /\
  ratelimitOf (tier (getUserIdentifier r1)) = anonRatelimit /\
  forall now,
    Ratelimit.key (ratelimitOf (tier (getUserIdentifier r1))) (userId (getUserIdentifier r1)) now
    = Ratelimit.key (ratelimitOf (tier (getUserIdentifier r2))) (userId (getUserIdentifier r2)) now.
Proof.
  assert (Hone : forall r, noIdentityHeaders r ->
            getUserIdentifier r = mkIdentity ("ip:" +:+ hashString "unknown") anonymous).
  { intros r (Hno & Hgh & Hff & Hip).
    rewrite getUserIdentifier_ip by (try rewrite Hgh; done).
    unfold clientIp. rewrite Hff, Hip. reflexivity. }
  intros H1 H2. rewrite (Hone r1 H1), (Hone r2 H2). done.
Qed.

Lemma C10_unknown_callers_share_bucket_witness :
  noIdentityHeaders anonymousPost /\
  noIdentityHeaders curlRequest /\
  getUserIdentifier anonymousPost = mkIdentity ("ip:" +:+ hashString "unknown") anonymous.
Proof.
  assert (H1 : noIdentityHeaders anonymousPost) by (repeat split; vm_compute; reflexivity).
  assert (H2 : noIdentityHeaders curlRequest) by (repeat split; vm_compute; reflexivity).
  split; [exact H1 | split; [exact H2 |]].
  exact (proj1 (C10_unknown_callers_share_bucket anonymousPost curlRequest H1 H2)).
Defined.

#[global] Arguments getTodayKey : simpl never.
#[global] Arguments pretty : simpl never.
#[global] Arguments hashString : simpl never.
#[global] Arguments Js.base64 : simpl never.

(** ** What a computation leaves alone *)

Section Keeps.
Context {X : Type} (proj : World -> X).

Lemma Keeps_ret {A} (a : A) : Keeps proj (ret a).
Proof. intros w. reflexivity. Qed.

Lemma Keeps_throw {A} (e : Error) : Keeps proj (@throw A e).
Proof. intros w. reflexivity. Qed.

Lemma Keeps_bind {A B} (m : M A) (k : A -> M B) :
  Keeps proj m -> (forall a, Keeps proj (k a)) -> Keeps proj (bind m k).
Proof.
  intros Hm Hk w. unfold bind. specialize (Hm w).
  destruct (m w) as [[a | e] w1]; cbn in *; [rewrite Hk |]; exact Hm.
Qed.

Lemma Keeps_tryCatch {A} (m : M A) (h : Error -> M A) :
  Keeps proj m -> (forall e, Keeps proj (h e)) -> Keeps proj (tryCatch m h).
Proof.
  intros Hm Hh w. unfold tryCatch. specialize (Hm w).
  destruct (m w) as [[a | e] w1]; cbn in *; [| rewrite Hh]; exact Hm.
Qed.

Lemma Keeps_deserialized found : Keeps proj (Redis.deserialized found).
Proof. intros w. unfold Redis.deserialized. by destruct found as [[] |]. Qed.

Lemma Keeps_newURL input base : Keeps proj (Callback.newURL input base).
Proof. intros w. unfold Callback.newURL. by destruct (resolve _ _ _). Qed.

Lemma Keeps_getRedis env : Keeps proj (getRedis env).
Proof. unfold getRedis. destruct (storeConfigured env); [apply Keeps_ret | apply Keeps_throw]. Qed.

(** A part of the world that the schedule of store faults is not in. *)
Hypothesis proj_faults : forall f w, proj (with_faults f w) = proj w.

Lemma Keeps_roundTrip : Keeps proj roundTrip.
Proof.
  intros w. unfold roundTrip. destruct (faults w) as [| [] rest]; cbn; auto.
Qed.

Lemma Keeps_get now k : Keeps proj (Redis.get now k).
Proof.
  apply Keeps_bind; [apply Keeps_roundTrip | intros _ w; reflexivity].
Qed.

Lemma Keeps_getRemaining l identifier now :
  Keeps proj (Ratelimit.getRemaining l identifier now).
Proof.
  apply Keeps_bind; [apply Keeps_roundTrip | intros _ w; reflexivity].
Qed.

Lemma Keeps_getAll now ks : Keeps proj (getAll now ks).
Proof.
  induction ks as [| k ks IH]; intros w; cbn; [reflexivity |].
  pose proof (Keeps_get now k w) as Hg.
  destruct (Redis.get now k w) as [r w1]. specialize (IH w1).
  destruct (getAll now ks w1) as [rs w2]. cbn in *. congruence.
Qed.
End Keeps.

(** ** The store when it answers *)

Lemma roundTrip_ok (w : World) : faults w = [] -> roundTrip w = (Ok tt, w).
Proof. intros H. unfold roundTrip. rewrite H. reflexivity. Qed.

Lemma roundTrip_fails (w : World) (rest : list bool) :
  faults w = true :: rest ->
  roundTrip w = (Throw (mkError "fetch failed"), with_faults rest w).
Proof. intros H. unfold roundTrip. rewrite H. reflexivity. Qed.

Lemma get_ok (now : Z) (k : string) (w : World) :
  faults w = [] -> Redis.get now k w = (Ok (value <$> lookupLive now (db w) k), w).
Proof. intros H. unfold Redis.get, bind. rewrite roundTrip_ok by done. reflexivity. Qed.

Lemma get_fails (now : Z) (k : string) (w : World) (rest : list bool) :
  faults w = true :: rest ->
  Redis.get now k w = (Throw (mkError "fetch failed"), with_faults rest w).
Proof. intros H. unfold Redis.get, bind. rewrite (roundTrip_fails w rest) by done. reflexivity. Qed.

(** ** The advisory status query *)

(** Within a window the count read for a caller does not depend on the
    instant, as long as the counter outlives the window. *)
Lemma used_same_window (l : Ratelimit.Limiter) (identifier : string) (d : gmap string Entry)
    (now now' : Z) :
  now / Ratelimit.window l = now' / Ratelimit.window l ->
  0 < Ratelimit.window l ->
  (forall e t, d !! Ratelimit.key l identifier now = Some e -> expireAt e = Some t ->
               Ratelimit.resetOf l now <= t) ->
  Ratelimit.used l identifier now' d = Ratelimit.used l identifier now d.
Proof.
  intros Hday Hpos Hexp. unfold Ratelimit.used, Ratelimit.key, lookupLive in *.
  rewrite <- Hday.
  destruct (d !! _) as [e |] eqn:He; [| reflexivity].
  assert (Hlive : forall t, t / Ratelimit.window l = now / Ratelimit.window l -> live t e = true).
  { intros t Ht. unfold live. destruct (expireAt e) as [x |] eqn:Hx; [| reflexivity].
    specialize (Hexp e x eq_refl Hx). unfold Ratelimit.resetOf in Hexp.
    apply Z.ltb_lt. rewrite <- Ht in Hexp.
    pose proof (Z.mul_succ_div_gt t (Ratelimit.window l) Hpos). lia. }
  rewrite !Hlive by done. reflexivity.
Qed.

(** What [limit] writes is a counter that expires when its window ends. *)
Lemma limit_writes_window_end (l : Ratelimit.Limiter) (identifier : string) (now : Z) (w : World) :
  faults w = [] ->
  exists rl w',
    Ratelimit.limit l identifier now w = (Ok rl, w') /\
    db w' !! Ratelimit.key l identifier now
    = Some (mkEntry (RInt (Ratelimit.used l identifier now (db w) + 1))
              (Some (Ratelimit.resetOf l now))).
Proof.
  intros H. unfold Ratelimit.limit, bind. rewrite roundTrip_ok by done.
  eexists _, _. split; [reflexivity |]. cbn. apply lookup_insert_eq.
Qed.

Lemma limits_handler_frame (now : Z) (request : Request) :
  Keeps db (Limits.handler now request) /\
  Keeps keyStates (Limits.handler now request) /\
  Keeps outbox (Limits.handler now request) /\
  Keeps tracked (Limits.handler now request).
Proof.
  unfold Limits.handler.
  repeat split;
    (destruct (String.eqb _ "OPTIONS"); [apply Keeps_ret |];
     destruct (negb _); [apply Keeps_ret |];
     apply Keeps_bind; [apply Keeps_getRemaining; reflexivity | intros rl; apply Keeps_ret]).
Qed.

Lemma limits_handler_get (now : Z) (request : Request) (w : World) :
  method request = "GET" ->
  faults w = [] ->
  exists resp,
    Limits.handler now request w = (Ok resp, w) /\
    reportedRemaining (Ok resp)
    = Some (Z.max 0 (Ratelimit.tokens (ratelimitOf (tier (getUserIdentifier request)))
                     - Ratelimit.used (ratelimitOf (tier (getUserIdentifier request)))
                         (userId (getUserIdentifier request)) now (db w))).
Proof.
  intros Hm Hf. unfold Limits.handler. rewrite Hm. cbn [String.eqb Ascii.eqb Bool.eqb negb].
  unfold bind, Ratelimit.getRemaining, bind. rewrite roundTrip_ok by done.
  eexists. split; reflexivity.
Qed.

Lemma getRateLimitStatus_frame (env : Env) (who : string) (t : Tier) (now : Z) :
  Keeps db (RateLimiting.getRateLimitStatus env who t now).
Proof.
  apply Keeps_bind; [apply Keeps_getRedis | intros _].
  apply Keeps_tryCatch; [| intros _; apply Keeps_ret].
  apply Keeps_bind; [by apply Keeps_get | intros found; apply Keeps_ret].
Qed.

Lemma serve_keeps {X : Type} (proj : World -> X) (handler : Z -> Request -> M Response)
    (request : Request) (nows : list Z) :
  (forall now, Keeps proj (handler now request)) ->
  forall w, proj (snd (serve handler request nows w)) = proj w.
Proof.
  intros Hk. induction nows as [| now rest IH]; intros w; cbn; [reflexivity |].
  specialize (Hk now w). destruct (handler now request w) as [r w1].
  specialize (IH w1). destruct (serve handler request rest w1) as [rs w2].
  cbn in *. congruence.
Qed.

(** C9 (as stated) fails across the end of a window: the anonymous caller
    has had one request admitted, and asks for the status in the last second
    of that day and in the first second of the next.  Nothing is admitted in
    between and the store is left as it was, yet the first answer reports 4
    remaining and the second 5: the window of the day before is over. *)
Lemma C9_remaining_differs_across_midnight :
  map reportedRemaining
    (fst (serve Limits.handler anonymousGet [beforeMidnight; afterMidnight] afterOneRequest))
  = [Some 4; Some 5] /\
  snd (serve Limits.handler anonymousGet [beforeMidnight; afterMidnight] afterOneRequest)
  = afterOneRequest.
Proof. vm_compute. split; reflexivity. Qed.

(** C9 (amended): the status query leaves the stored quota state (and the
    rest of the store) as it found it, whatever the request and the instants
    of the calls, and so does the status read of the rate-limiting module;
    and N calls for one identity within one window (a UTC day), against a
    store that answers and a counter that lasts to the end of its window, all
    report one and the same remaining value. *)
Theorem C9_status_never_consumes (request : Request) (nows : list Z) (w : World) :
  db (snd (serve Limits.handler request nows w)) = db w /\
  (forall env who t now, db (snd (RateLimiting.getRateLimitStatus env who t now w)) = db w) /\
  forall day now0,
    method request = "GET" ->
    faults w = [] ->
    Forall (fun now => now / msPerDay = day) (now0 :: nows) ->
    (forall e t,
        db w !! Ratelimit.key (ratelimitOf (tier (getUserIdentifier request)))
                  (userId (getUserIdentifier request)) now0 = Some e ->
        expireAt e = Some t -> (day + 1) * msPerDay <= t) ->
    Forall (fun r => reportedRemaining r = reportedRemaining (fst (Limits.handler now0 request w)))
      (fst (serve Limits.handler request nows w)).
Proof.
  split; [| split].
  - apply serve_keeps. intros now. apply limits_handler_frame.
  - intros env who t now. apply getRateLimitStatus_frame.
  - intros day now0 Hm Hf Hdays Hexp.
    apply Forall_cons in Hdays as [Hday0 Hdays].
    destruct (limits_handler_get now0 request w Hm Hf) as (resp0 & Hrun0 & Hrem0).
    rewrite Hrun0. cbn [fst]. rewrite Hrem0. clear resp0 Hrun0 Hrem0.
    induction nows as [| now rest IH]; cbn [serve]; [constructor |].
    apply Forall_cons in Hdays as [Hday Hdays].
    destruct (limits_handler_get now request w Hm Hf) as (resp & Hrun & Hrem).
    rewrite Hrun. specialize (IH Hdays).
    destruct (serve Limits.handler request rest w) as [rs w2]. cbn [fst] in *.
    constructor; [| exact IH].
    rewrite Hrem. f_equal. f_equal. f_equal.
    apply used_same_window.
    + assert (Hw : Ratelimit.window (ratelimitOf (tier (getUserIdentifier request))) = msPerDay)
        by (destruct (tier _); reflexivity).
      rewrite Hw. congruence.
    + destruct (tier _); reflexivity.
    + intros e t He Ht. specialize (Hexp e t He Ht).
      unfold Ratelimit.resetOf.
      assert (Hw : Ratelimit.window (ratelimitOf (tier (getUserIdentifier request))) = msPerDay)
        by (destruct (tier _); reflexivity).
      rewrite Hw, Hday0. exact Hexp.
Qed.

(** Commands that write the store leave alone whatever is neither the
    store nor its fault schedule. *)
Section KeepsOutsideStore.
Context {X : Type} (proj : World -> X).
Hypothesis proj_faults : forall f w, proj (with_faults f w) = proj w.
Hypothesis proj_db : forall d w, proj (with_db d w) = proj w.

Lemma Keeps_modifyDb f : Keeps proj (modifyDb f).
Proof. intros w. cbn. apply proj_db. Qed.

Lemma Keeps_del k : Keeps proj (Redis.del k).
Proof. apply Keeps_bind; [by apply Keeps_roundTrip | intros _; apply Keeps_modifyDb]. Qed.

Lemma Keeps_setEx now k v seconds : Keeps proj (Redis.setEx now k v seconds).
Proof. apply Keeps_bind; [by apply Keeps_roundTrip | intros _; apply Keeps_modifyDb]. Qed.

Lemma Keeps_exec now cs : Keeps proj (Redis.exec now cs).
Proof.
  apply Keeps_bind; [by apply Keeps_roundTrip |].
  intros _ w. cbn. destruct (Redis.runAll now cs (db w)) as [d ok]. cbn. apply proj_db.
Qed.

Lemma Keeps_limit l identifier now : Keeps proj (Ratelimit.limit l identifier now).
Proof.
  apply Keeps_bind; [by apply Keeps_roundTrip |]. intros _ w. cbn. apply proj_db.
Qed.

Lemma Keeps_validateState now state : Keeps proj (Auth.validateState now state).
Proof.
  apply Keeps_bind; [by apply Keeps_get |]. intros found.
  apply Keeps_bind; [apply Keeps_deserialized |]. intros redirectUri.
  apply Keeps_bind; [| intros _; apply Keeps_ret].
  destruct (Js.truthyValue _); [apply Keeps_del | apply Keeps_ret].
Qed.
End KeepsOutsideStore.

Lemma del_ok (k : string) (w : World) :
  faults w = [] -> Redis.del k w = (Ok tt, with_db (delete k (db w)) w).
Proof. intros H. unfold Redis.del, bind. rewrite roundTrip_ok by done. reflexivity. Qed.

Lemma setEx_ok (now : Z) (k : string) (v : RedisValue) (seconds : Z) (w : World) :
  faults w = [] ->
  Redis.setEx now k v seconds w
  = (Ok tt, with_db (<[k := mkEntry v (Some (now + seconds * 1000))]> (db w)) w).
Proof. intros H. unfold Redis.setEx, bind. rewrite roundTrip_ok by done. reflexivity. Qed.

(** ** The OAuth state nonce *)

(** A live state whose redirect the client reads as something truthy is
    returned as the client reads it, and deleted. *)
Lemma validateState_consumes (w : World) (state redirect : string) (expiry : option Z) (now : Z) :
  faults w = [] ->
  lookupLive now (db w) (stateKey state) = Some (mkEntry (RStr redirect) expiry) ->
  Js.truthyValue (deserialize (platform w) redirect) = true ->
  Auth.validateState now state w
  = (Ok (deserialize (platform w) redirect), with_db (delete (stateKey state) (db w)) w).
Proof.
  intros Hf Hlive Htruthy. unfold Auth.validateState. unfold bind at 1. fold (stateKey state).
  rewrite get_ok by done. rewrite Hlive. cbn [fmap option_fmap option_map value].
  unfold bind at 1. unfold Redis.deserialized at 1. rewrite Htruthy.
  unfold bind. rewrite del_ok by done. reflexivity.
Qed.

(** A live state whose redirect the client reads as something falsy is
    not returned and stays where it is. *)
Lemma validateState_falsy (w : World) (state redirect : string) (expiry : option Z) (now : Z) :
  faults w = [] ->
  lookupLive now (db w) (stateKey state) = Some (mkEntry (RStr redirect) expiry) ->
  Js.truthyValue (deserialize (platform w) redirect) = false ->
  Auth.validateState now state w = (Ok (deserialize (platform w) redirect), w).
Proof.
  intros Hf Hlive Hfalsy. unfold Auth.validateState. unfold bind at 1. fold (stateKey state).
  rewrite get_ok by done. rewrite Hlive. cbn [fmap option_fmap option_map value].
  unfold bind at 1. unfold Redis.deserialized at 1. now rewrite Hfalsy.
Qed.

(** A state that is not in the store is not found, and nothing changes. *)
Lemma validateState_absent (w : World) (state : string) (now : Z) :
  faults w = [] ->
  db w !! stateKey state = None ->
  Auth.validateState now state w = (Ok Js.JNull, w).
Proof.
  intros Hf Hnone. unfold Auth.validateState, bind. fold (stateKey state).
  rewrite get_ok by done. unfold lookupLive. rewrite Hnone. reflexivity.
Qed.

(** What the start of the flow stores under the state it drew. *)
Lemma github_handler_stores (random : string) (now : Z) (request : Request) (w : World) :
  method request = "GET" ->
  faults w = [] ->
  exists redirect,
    redirect <> "" /\
    redirect = Js.orElse (query request !! "redirect") "/api/auth/callback" /\
    db (snd (Github.handler random now request w)) !! stateKey random
    = Some (mkEntry (RStr redirect) (Some (now + 600 * 1000))) /\
    faults (snd (Github.handler random now request w)) = [] /\
    platform (snd (Github.handler random now request w)) = platform w.
Proof.
  intros Hm Hf. unfold Github.handler. rewrite Hm. cbn [String.eqb Ascii.eqb Bool.eqb negb].
  unfold tryCatch, bind, Auth.storeState. rewrite setEx_ok by done. cbn.
  eexists. split; [| split; [reflexivity | split; [apply lookup_insert_eq | done]]].
  unfold Js.orElse. destruct (query request !! "redirect") as [[| c s] |]; cbn; congruence.
Qed.

(** The callback, once it is past the parameter checks, either finds the
    state or answers with an error page without any request going out. *)
Lemma callback_failed_validation (gh : GitHub) (random : string) (now : Z)
    (request : Request) (w : World) :
  (forall stored,
      fst (Auth.validateState now (default "" (query request !! "state")) w) = Ok stored ->
      Js.truthyValue stored = false) ->
  exists resp w',
    Callback.handler gh random now request w = (Ok resp, w') /\
    outbox w' = outbox w /\
    netFaults w' = netFaults w /\
    (status resp = 400 \/ status resp = 405) /\
    forall token username redirectUrl,
      payload resp <> CliSuccessPage token username /\
      payload resp <> WebSuccessPage token username redirectUrl.
Proof.
  intros Hfail. unfold Callback.handler.
  destruct (negb _).
  { eexists _, _. split; [reflexivity |]. do 2 (split; [reflexivity |]). split; [by right |].
    by intros. }
  unfold tryCatch.
  destruct (Js.optTruthy (query request !! "error")).
  { eexists _, _. split; [reflexivity |]. do 2 (split; [reflexivity |]). split; [by left |].
    by intros. }
  destruct (negb (Js.optTruthy (query request !! "code")) || _).
  { eexists _, _. split; [reflexivity |]. do 2 (split; [reflexivity |]). split; [by left |].
    by intros. }
  unfold bind.
  pose proof (Keeps_validateState outbox (fun _ _ => eq_refl) (fun _ _ => eq_refl)
                now (default "" (query request !! "state")) w) as Hkeep.
  pose proof (Keeps_validateState netFaults (fun _ _ => eq_refl) (fun _ _ => eq_refl)
                now (default "" (query request !! "state")) w) as Hnet.
  destruct (Auth.validateState now (default "" (query request !! "state")) w)
    as [[stored | e] w1] eqn:Hrun; cbn [fst snd] in *.
  - rewrite (Hfail stored eq_refl). cbn.
    eexists _, _. split; [reflexivity |]. split; [exact Hkeep |]. split; [exact Hnet |].
    split; [by left |]. by intros.
  - cbn. eexists _, _. split; [reflexivity |]. split; [exact Hkeep |]. split; [exact Hnet |].
    split; [by left |]. by intros.
Qed.

(** C8: a state is not always consumed.  A login started with
    [?redirect=null] stores the text [null] under its state.  A client that
    reads that text back as the value null, as a client that parses JSON
    does, makes [validateState] take the state for missing: the call returns
    null and deletes nothing, at the first call as at any later one while the
    record lives, and the callback that brings the state back is answered 400
    "invalid_state".  The state does not succeed once and is not consumed. *)
Theorem C8_null_redirect_is_not_consumed (gh : GitHub) (random random' code : string)
    (now now' : Z) (start callback : Request) (w : World) :
  method start = "GET" ->
  query start !! "redirect" = Some "null" ->
  faults w = [] ->
  deserialize (platform w) "null" = Js.JNull ->
  now' < now + 600 * 1000 ->
  method callback = "GET" ->
  Js.optTruthy (query callback !! "error") = false ->
  query callback !! "code" = Some code ->
  code <> "" ->
  query callback !! "state" = Some random ->
  random <> "" ->
  lookupLive now' (db (snd (Github.handler random now start w))) (stateKey random)
  = Some (mkEntry (RStr "null") (Some (now + 600 * 1000))) /\
  Auth.validateState now' random (snd (Github.handler random now start w))
  = (Ok Js.JNull, snd (Github.handler random now start w)) /\
  Callback.handler gh random' now' callback (snd (Github.handler random now start w))
  = (Ok (Callback.createErrorResponse "invalid_state" "Invalid or expired state parameter"),
     snd (Github.handler random now start w)).
Proof.
  intros Hm Hredirect Hf Hnull Hbefore Hm' Herr Hcode Hc Hstate Hs.
  destruct (github_handler_stores random now start w Hm Hf)
    as (redirect & _ & Hr & Hstored & Hf1 & Hp1).
  rewrite Hredirect in Hr. cbn in Hr. subst redirect.
  set (w1 := snd (Github.handler random now start w)) in *.
  assert (Hlive : lookupLive now' (db w1) (stateKey random)
                  = Some (mkEntry (RStr "null") (Some (now + 600 * 1000)))).
  { unfold lookupLive. rewrite Hstored. unfold live. cbn [expireAt].
    destruct (Z.ltb_spec now' (now + 600 * 1000)); [reflexivity | lia]. }
  assert (Hread : deserialize (platform w1) "null" = Js.JNull) by now rewrite Hp1.
  assert (Hvalidate : Auth.validateState now' random w1 = (Ok Js.JNull, w1)).
  { rewrite (validateState_falsy w1 random "null" _ now' Hf1 Hlive); rewrite Hread; reflexivity. }
  split; [exact Hlive |]. split; [exact Hvalidate |].
  unfold Callback.handler. rewrite Hm', Herr, Hcode, Hstate.
  cbn [String.eqb Ascii.eqb Bool.eqb negb].
  destruct code as [| c1 code]; [congruence |]. destruct random as [| c2 random]; [congruence |].
  cbn [Js.optTruthy Js.truthy negb orb default from_option id].
  unfold tryCatch, bind. rewrite Hvalidate. reflexivity.
Qed.

(** Requests that go out leave alone whatever is neither the outbox nor
    the schedule of network faults. *)
Section KeepsOutsideNetwork.
Context {X : Type} (proj : World -> X).
Hypothesis proj_netFaults : forall f w, proj (with_netFaults f w) = proj w.
Hypothesis proj_outbox : forall o w, proj (with_outbox o w) = proj w.

Lemma Keeps_fetch url body : Keeps proj (fetch url body).
Proof.
  intros w. unfold fetch. destruct (netFaults w) as [| [] rest]; cbn;
    rewrite ?proj_outbox, ?proj_netFaults; reflexivity.
Qed.
End KeepsOutsideNetwork.

(** The analytics and the alerts never touch the credential table nor the
    record of what was tracked. *)
Section KeepsSideEffects.
Context {X : Type} (proj : World -> X).
Hypothesis proj_faults : forall f w, proj (with_faults f w) = proj w.
Hypothesis proj_db : forall d w, proj (with_db d w) = proj w.
Hypothesis proj_netFaults : forall f w, proj (with_netFaults f w) = proj w.
Hypothesis proj_outbox : forall o w, proj (with_outbox o w) = proj w.

Lemma Keeps_getTodayMetrics env now : Keeps proj (getTodayMetrics env now).
Proof.
  apply Keeps_bind; [apply Keeps_getRedis | intros _].
  apply Keeps_tryCatch; [| intros _; apply Keeps_ret].
  apply Keeps_bind; [by apply Keeps_getAll |].
  intros vs. do 7 (destruct vs as [| ? vs]; try apply Keeps_ret).
Qed.

Lemma Keeps_sendSlackAlert env now message : Keeps proj (sendSlackAlert env now message).
Proof.
  unfold sendSlackAlert. destruct (negb _); [apply Keeps_ret |].
  apply Keeps_bind; [by apply Keeps_get |]. intros found.
  destruct (valueTruthy found); [apply Keeps_ret |].
  apply Keeps_tryCatch; [| intros _; apply Keeps_ret].
  apply Keeps_bind; [by apply Keeps_fetch | intros _; by apply Keeps_setEx].
Qed.

Lemma Keeps_checkBudgetAndAlert env now : Keeps proj (checkBudgetAndAlert env now).
Proof.
  apply Keeps_bind; [apply Keeps_getTodayMetrics |]. intros metrics. cbv zeta.
  destruct (Qle_bool _ _); [apply Keeps_sendSlackAlert |].
  destruct (Qle_bool _ _); [apply Keeps_sendSlackAlert | apply Keeps_ret].
Qed.

Lemma Keeps_sendToPostHog env log : Keeps proj (sendToPostHog env log).
Proof.
  unfold sendToPostHog. destruct (negb _); [apply Keeps_ret |].
  apply Keeps_tryCatch; [by apply Keeps_fetch | intros _; apply Keeps_ret].
Qed.

Lemma Keeps_afterTrack env now log prefix :
  Keeps proj
    (tryCatch
       (Redis.exec now (trackCommands prefix log) ;;
        checkBudgetAndAlert env now ;;
        sendToPostHog env log)
       (fun _ => ret tt)).
Proof.
  apply Keeps_tryCatch; [| intros _; apply Keeps_ret].
  apply Keeps_bind; [by apply Keeps_exec |]. intros _.
  apply Keeps_bind; [apply Keeps_checkBudgetAndAlert | intros _; apply Keeps_sendToPostHog].
Qed.
End KeepsSideEffects.

(** [trackRequest] never rejects, and notes its argument once. *)
Lemma trackRequest_runs (env : Env) (now : Z) (log : RequestLog) (w : World) :
  exists w',
    trackRequest env now log w = (Ok tt, w') /\
    tracked w' = log :: tracked w /\
    keyStates w' = keyStates w.
Proof.
  unfold trackRequest.
  set (rest := tryCatch _ _). unfold bind. cbn [fst snd].
  pose proof (Keeps_afterTrack tracked (fun _ _ => eq_refl) (fun _ _ => eq_refl)
                (fun _ _ => eq_refl) (fun _ _ => eq_refl) env now log
                ("rocket:analytics:" +:+ getTodayKey now)
                (with_tracked (log :: tracked w) w)) as Ht.
  pose proof (Keeps_afterTrack keyStates (fun _ _ => eq_refl) (fun _ _ => eq_refl)
                (fun _ _ => eq_refl) (fun _ _ => eq_refl) env now log
                ("rocket:analytics:" +:+ getTodayKey now)
                (with_tracked (log :: tracked w) w)) as Hk.
  fold rest in Ht, Hk.
  assert (Hok : exists w', rest (with_tracked (log :: tracked w) w) = (Ok tt, w')).
  { subst rest. unfold tryCatch.
    match goal with
    | |- context [match ?run with _ => _ end] => destruct run as [[[] | e] w']
    end; cbn; eauto. }
  destruct Hok as (w' & Hrun). rewrite Hrun in *. cbn [fst snd] in *.
  exists w'. split; [reflexivity |]. split; [exact Ht | exact Hk].
Qed.

(** ** Token estimate and cost *)

Lemma ceilDiv_4 (n : Z) : Js.ceilDiv n 4 = (n + 3) / 4.
Proof. unfold Js.ceilDiv, Qceiling, Qfloor. cbn. Z.div_mod_to_equations. lia. Qed.

(** [ceilDiv n 4] is the least integer that is at least [n / 4]. *)
Lemma ceilDiv_4_least (n : Z) : 4 * (Js.ceilDiv n 4 - 1) < n <= 4 * Js.ceilDiv n 4.
Proof. rewrite ceilDiv_4. Z.div_mod_to_equations. lia. Qed.

Lemma calculateCost_rate (tokens : Z) :
  (calculateCost tokens == inject_Z tokens / (1000 # 1) * (1875 # 10000000))%Q.
Proof. reflexivity. Qed.

(** What [generate] does once the rotation has produced a result. *)
Lemma generate_success (env : Env) (backend : Backend) (now : Z) (prompt : string)
    (temperature maxTokens : option Q) (who : Identity) (rl : Ratelimit.Response)
    (w w1 : World) (result : GenerateResult) :
  generateWithRotation env backend now (mkGenerateRequest prompt None temperature maxTokens) w
  = (Ok result, w1) ->
  let estimatedTokens :=
    Js.ceilDiv (Z.of_nat (String.length prompt) + Z.of_nat (String.length (text result))) 4 in
  exists w2,
    Generate.generate env backend now prompt temperature maxTokens who rl w
    = (Ok (Generate.jsonResponse
             (GenerateBody (text result) (model result)
                (Ratelimit.remaining rl - 1) (Ratelimit.limit_ rl) (Ratelimit.reset rl))
             200
             [("X-RateLimit-Limit", pretty (Ratelimit.limit_ rl));
              ("X-RateLimit-Remaining", pretty (Ratelimit.remaining rl - 1));
              ("X-RateLimit-Reset", pretty (Ratelimit.reset rl))]), w2) /\
    tracked w2
    = mkRequestLog now (userId who) (tier who) estimatedTokens (calculateCost estimatedTokens)
        (model result) (keyUsed result) :: tracked w1.
Proof.
  intros Hgen estimatedTokens. unfold Generate.generate, tryCatch, bind. rewrite Hgen.
  destruct (trackRequest_runs env now
              (mkRequestLog now (userId who) (tier who) estimatedTokens
                 (calculateCost estimatedTokens) (model result) (keyUsed result)) w1)
    as (w2 & Hrun & Htr & _).
  fold estimatedTokens. rewrite Hrun. cbn. eauto.
Qed.

(** ** Admission when the store does not answer *)

(** C1 (as stated) fails: with 20 dollars spent against a cap of 10 the
    handler answers 503 BUDGET_EXCEEDED while the store answers; when the
    read of the ledger is the round trip that fails, the same request is
    admitted, generated and answered 200. *)
Lemma C1_budget_read_failure_lets_through :
  statusOf (fst (Generate.handler oneKeyEnv echoBackend t0 anonymousPost (overBudgetWorld [])))
  = Some 503 /\
  codeOf (fst (Generate.handler oneKeyEnv echoBackend t0 anonymousPost (overBudgetWorld [])))
  = Some "BUDGET_EXCEEDED" /\
  statusOf (fst (Generate.handler oneKeyEnv echoBackend t0 anonymousPost
                   (overBudgetWorld [false; true])))
  = Some 200 /\
  outbox (snd (Generate.handler oneKeyEnv echoBackend t0 anonymousPost
                 (overBudgetWorld [false; true])))
  = [mkFetch "generateContent" "primary"].
Proof. vm_compute. repeat split. Qed.

Lemma checkBudgetExceeded_fails_open (env : Env) (now : Z) (w : World) (rest : list bool) :
  faults w = true :: rest ->
  Generate.checkBudgetExceeded env now w = (Ok false, with_faults rest w).
Proof.
  intros Hf. unfold Generate.checkBudgetExceeded, tryCatch, bind.
  rewrite (get_fails _ _ w rest Hf). reflexivity.
Qed.

(** A validated POST goes through the admission checks. *)
Lemma handler_validPost (env : Env) (backend : Backend) (now : Z) (request : Request)
    (prompt : string) (temperature maxTokens : option Q) :
  validPost request prompt temperature maxTokens ->
  Generate.handler env backend now request
  = Generate.admission env backend now request prompt temperature maxTokens.
Proof.
  intros (Hm & Hb & Hne & Hlen). unfold Generate.handler. rewrite Hm, Hb.
  cbn [String.eqb Ascii.eqb Bool.eqb negb].
  destruct prompt as [| c rest]; [congruence |]. cbn [Js.truthy negb].
  destruct (Z.ltb_spec 32000 (Z.of_nat (String.length (String c rest)))); [lia | reflexivity].
Qed.

(** C1 (amended): on the admission path of a validated request a failure
    of the store during the quota check is not caught: it leaves the handler
    as an exception, and nothing is generated; a failure of the read of the
    budget ledger is caught inside [checkBudgetExceeded] and answered "not
    exceeded", so that after an admitted quota check the handler goes on to
    the generation. *)
Theorem C1_store_failure_on_admission (env : Env) (backend : Backend) (now : Z)
    (request : Request) (prompt : string) (temperature maxTokens : option Q) :
  validPost request prompt temperature maxTokens ->
  (forall w rest,
      faults w = true :: rest ->
      Generate.handler env backend now request w
      = (Throw (mkError "fetch failed"), with_faults rest w)) /\
  (forall w rest,
      faults w = true :: rest ->
      Generate.checkBudgetExceeded env now w = (Ok false, with_faults rest w)) /\
  (forall w w1 rl rest,
      Ratelimit.limit (ratelimitOf (tier (getUserIdentifier request)))
        (userId (getUserIdentifier request)) now w = (Ok rl, w1) ->
      Ratelimit.success rl = true ->
      faults w1 = true :: rest ->
      Generate.handler env backend now request w
      = Generate.generate env backend now prompt temperature maxTokens
          (getUserIdentifier request) rl (with_faults rest w1)).
Proof.
  intros Hvalid.
  rewrite (handler_validPost env backend now request prompt temperature maxTokens Hvalid).
  split; [| split].
  - intros w rest Hf. unfold Generate.admission, bind at 1.
    unfold Ratelimit.limit, bind at 1. rewrite (roundTrip_fails w rest Hf). reflexivity.
  - intros w rest. apply checkBudgetExceeded_fails_open.
  - intros w w1 rl rest Hlimit Hok Hf. unfold Generate.admission, bind at 1.
    rewrite Hlimit, Hok. cbn [negb]. unfold bind at 1.
    rewrite (checkBudgetExceeded_fails_open env now w1 rest Hf). reflexivity.
Qed.

Lemma C1_store_failure_on_admission_witness :
  validPost anonymousPost "Say hi" None None /\
  Generate.handler oneKeyEnv echoBackend t0 anonymousPost (overBudgetWorld [true])
  = (Throw (mkError "fetch failed"), with_faults [] (overBudgetWorld [true])).
Proof.
  assert (Hvalid : validPost anonymousPost "Say hi" None None).
  { repeat split; [discriminate | vm_compute; discriminate]. }
  split; [exact Hvalid |].
  exact (proj1 (C1_store_failure_on_admission oneKeyEnv echoBackend t0 anonymousPost
                  "Say hi" None None Hvalid) (overBudgetWorld [true]) [] eq_refl).
Defined.

(** ** Scenario A *)

(** C2: what the code does in scenario A.  The five admitted requests of
    an anonymous caller report remaining 3, 2, 1, 0 and -1 (one less than
    the limiter's 4, 3, 2, 1, 0), the sixth is refused with 429,
    RATE_LIMIT_EXCEEDED and a Retry-After header. *)
Theorem C2_scenario_A_reported_remaining :
  map reportedRemaining (fst scenarioA) = [Some 3; Some 2; Some 1; Some 0; Some (-1); None] /\
  map statusOf (fst scenarioA) = [Some 200; Some 200; Some 200; Some 200; Some 200; Some 429] /\
  (codeOf <$> last (fst scenarioA)) = Some (Some "RATE_LIMIT_EXCEEDED") /\
  (fun r => match r with
            | Ok resp => List.find (fun h => String.eqb (fst h) "Retry-After") (responseHeaders resp)
            | Throw _ => None
            end) <$> last (fst scenarioA) = Some (Some ("Retry-After", "6395")).
Proof. vm_compute. repeat split. Qed.

(** The body of an admitted answer carries the limiter's [remaining] less one. *)
Lemma generate_reports_remaining_less_one (env : Env) (backend : Backend) (now : Z)
    (prompt : string) (temperature maxTokens : option Q) (who : Identity)
    (rl : Ratelimit.Response) (w w1 : World) (result : GenerateResult) :
  generateWithRotation env backend now (mkGenerateRequest prompt None temperature maxTokens) w
  = (Ok result, w1) ->
  reportedRemaining (fst (Generate.generate env backend now prompt temperature maxTokens who rl w))
  = Some (Ratelimit.remaining rl - 1).
Proof.
  intros Hgen.
  destruct (generate_success env backend now prompt temperature maxTokens who rl w w1 result Hgen)
    as (w2 & Hrun & _).
  rewrite Hrun. reflexivity.
Qed.

(** ** The usage charge *)

(** C6 (as stated) fails in its second half: the backend reports 1000
    tokens for the answer, and the charge that is tracked is the estimate, 3
    tokens for the 10 characters of prompt and answer. *)
Lemma C6_reported_usage_is_not_used :
  fst (generateWithRotation oneKeyEnv meteredBackend t0
         (mkGenerateRequest "Say hi" None None None) emptyWorld)
  = Ok (mkGenerateResult "abcd" "gemini-1.5-flash" (Usage.mk 400 600 1000) "primary") /\
  statusOf (fst (Generate.handler oneKeyEnv meteredBackend t0 anonymousPost emptyWorld))
  = Some 200 /\
  map tokens (tracked (snd (Generate.handler oneKeyEnv meteredBackend t0 anonymousPost emptyWorld)))
  = [3].
Proof. vm_compute. repeat split. Qed.

(** C6 (amended): on a successful generation the charge handed to
    [trackRequest] has tokens = ceil((promptChars + responseChars) / 4) and
    cost = tokens / 1000 x 0.0001875, whatever usage the backend reported
    with the answer. *)
Theorem C6_usage_charge (env : Env) (backend : Backend) (now : Z) (prompt : string)
    (temperature maxTokens : option Q) (who : Identity) (rl : Ratelimit.Response)
    (w w1 : World) (result : GenerateResult) :
  generateWithRotation env backend now (mkGenerateRequest prompt None temperature maxTokens) w
  = (Ok result, w1) ->
  exists resp w2 log,
    Generate.generate env backend now prompt temperature maxTokens who rl w = (Ok resp, w2) /\
    status resp = 200 /\
    tracked w2 = log :: tracked w1 /\
    4 * (tokens log - 1)
      < Z.of_nat (String.length prompt) + Z.of_nat (String.length (text result))
      <= 4 * tokens log /\
    (cost log == inject_Z (tokens log) / (1000 # 1) * (1875 # 10000000))%Q.
Proof.
  intros Hgen.
  destruct (generate_success env backend now prompt temperature maxTokens who rl w w1 result Hgen)
    as (w2 & Hrun & Htracked).
  eexists _, w2, _. split; [exact Hrun |]. split; [reflexivity |]. split; [exact Htracked |].
  cbn [tokens cost]. split; [apply ceilDiv_4_least | apply calculateCost_rate].
Qed.

(** ** Budget alerts *)


Lemma getRedis_ok (env : Env) (w : World) :
  storeConfigured env = true -> getRedis env w = (Ok tt, w).
Proof. intros Hc. unfold getRedis. now rewrite Hc. Qed.

Lemma getRedis_throws (env : Env) (w : World) :
  storeConfigured env = false ->
  getRedis env w = (Throw (mkError "Missing Upstash Redis configuration"), w).
Proof. intros Hc. unfold getRedis. now rewrite Hc. Qed.


(** With no live marker the alert goes out and the marker is written. *)
Lemma sendSlackAlert_sends (env : Env) (url : string) (now : Z) (message : string) (w : World) :
  SLACK_WEBHOOK_URL env = Some url ->
  url <> "" ->
  faults w = [] ->
  netFaults w = [] ->
  lookupLive now (db w) (alertKey now message) = None ->
  sendSlackAlert env now message w
  = (Ok tt,
     with_db (<[alertKey now message := mkEntry (RStr "1") (Some (now + 3600 * 1000))]> (db w))
       (with_outbox (mkFetch url message :: outbox w) w)).
Proof.
  intros Henv Hurl Hf Hn Hmark. unfold sendSlackAlert. rewrite Henv.
  destruct url as [| c url]; [congruence |]. cbn [Js.optTruthy Js.truthy negb default].
  unfold bind at 1. rewrite get_ok by done. rewrite Hmark. cbn [fmap option_fmap option_map valueTruthy].
  unfold tryCatch, bind, fetch. rewrite Hn.
  rewrite setEx_ok by done. reflexivity.
Qed.

(** With a live marker nothing goes out and nothing is written. *)
Lemma sendSlackAlert_suppressed (env : Env) (now : Z) (message : string) (w : World)
    (expiry : option Z) :
  faults w = [] ->
  lookupLive now (db w) (alertKey now message) = Some (mkEntry (RStr "1") expiry) ->
  sendSlackAlert env now message w = (Ok tt, w).
Proof.
  intros Hf Hmark. unfold sendSlackAlert.
  destruct (negb _); [reflexivity |].
  unfold bind. rewrite get_ok by done. rewrite Hmark. reflexivity.
Qed.

(** C7: the same alert is sent twice within one hour.  The code means to
    send an alert once per hour, as the comment in [sendSlackAlert] says, but
    the marker is keyed by the UTC date.  With a cap of 0.001 dollars, a
    request of 4500 tokens tracked in the last second of a day puts the
    ledger at 84% of the cap and posts the warning; a like request tracked two
    seconds later, in the first second of the next day, posts the very same
    warning text again, while the marker of the first post is still live
    under the key of the day before. *)
Theorem C7_same_alert_twice_across_midnight :
  afterMidnight - beforeMidnight < 3600 * 1000 /\
  outbox (snd (trackRequest smallCapEnv afterMidnight (largeRequest afterMidnight)
                 (snd (trackRequest smallCapEnv beforeMidnight (largeRequest beforeMidnight)
                         emptyWorld))))
  = [mkFetch "https://hooks.slack.example/T000"
       (warningMessage (1 # 1000) (mkUsageMetrics 1 4500 (84 # 100000) 1 0));
     mkFetch "https://hooks.slack.example/T000"
       (warningMessage (1 # 1000) (mkUsageMetrics 1 4500 (84 # 100000) 1 0))] /\
  lookupLive afterMidnight
    (db (snd (trackRequest smallCapEnv beforeMidnight (largeRequest beforeMidnight) emptyWorld)))
    (alertKey beforeMidnight
       (warningMessage (1 # 1000) (mkUsageMetrics 1 4500 (84 # 100000) 1 0)))
  = Some (mkEntry (RStr "1") (Some (beforeMidnight + 3600 * 1000))) /\
  alertKey afterMidnight (warningMessage (1 # 1000) (mkUsageMetrics 1 4500 (84 # 100000) 1 0))
  <> alertKey beforeMidnight
       (warningMessage (1 # 1000) (mkUsageMetrics 1 4500 (84 # 100000) 1 0)).
Proof.
  split; [reflexivity |]. split; [vm_compute; reflexivity |].
  split; [vm_compute; reflexivity |].
  intros Heq. vm_compute in Heq. discriminate Heq.
Qed.

(** Once the batch of increments has gone through, [trackRequest] goes on
    to the threshold check. *)
Lemma trackRequest_then_checks (env : Env) (now : Z) (log : RequestLog) (w w1 : World) :
  Redis.exec now (trackCommands ("rocket:analytics:" +:+ getTodayKey now) log)
    (with_tracked (log :: tracked w) w) = (Ok tt, w1) ->
  snd (trackRequest env now log w)
  = snd (tryCatch (checkBudgetAndAlert env now ;; sendToPostHog env log) (fun _ => ret tt) w1).
Proof.
  intros Hexec. unfold trackRequest. unfold bind at 1. cbn [fst snd].
  unfold tryCatch. unfold bind at 1. rewrite Hexec. reflexivity.
Qed.




(** ** The sort *)

(** The sort orders its argument along any transitive relation the
    comparator agrees with: a negative number puts the first argument before
    the second, any other number the second before the first.  Nothing else
    is asked of the comparator (the one of [selectKey] answers -1 for two
    keys that were never used, whichever comes first). *)
Section SortSpec.
Context {A : Type} (compare : A -> A -> Z) (le : relation A) `{!Transitive le}.
Hypothesis compare_neg : forall x y, compare x y < 0 -> le x y.
Hypothesis compare_nonneg : forall x y, 0 <= compare x y -> le y x.

Lemma run_ascending (previous : A) (rest : list A) :
  Sorted le (previous :: take (runLength compare false previous rest) rest).
Proof.
  revert previous. induction rest as [| current rest IH]; intros previous; cbn.
  - repeat constructor.
  - destruct (Z.ltb_spec (compare current previous) 0); cbn.
    + repeat constructor.
    + constructor; [apply IH | constructor; by apply compare_nonneg].
Qed.

Lemma run_descending (previous : A) (rest : list A) :
  Sorted (flip le) (previous :: take (runLength compare true previous rest) rest).
Proof.
  revert previous. induction rest as [| current rest IH]; intros previous; cbn.
  - repeat constructor.
  - destruct (Z.leb_spec 0 (compare current previous)); cbn.
    + repeat constructor.
    + constructor; [apply IH | constructor; by apply compare_neg].
Qed.

Lemma StronglySorted_lookup_lt (l : list A) (i j : nat) (x y : A) :
  StronglySorted le l -> (i < j)%nat -> l !! i = Some x -> l !! j = Some y -> le x y.
Proof.
  intros Hs. revert i j. induction Hs as [| a l Hs IH Hall]; intros i j Hij Hi Hj.
  - by rewrite lookup_nil in Hi.
  - destruct j as [| j]; [lia |]. cbn in Hj.
    destruct i as [| i]; cbn in Hi.
    + injection Hi as <-. rewrite Forall_forall in Hall. apply Hall.
      by eapply list_elem_of_lookup_2.
    + apply (IH i j); [lia | done | done].
Qed.

(** The binary search ends on a position with nothing greater than the
    pivot before it and nothing smaller from it on. *)
Lemma insertionPoint_spec (pivot : A) (a : list A) :
  StronglySorted le a ->
  forall fuel left right,
    (right - left <= fuel)%nat ->
    (left <= right <= length a)%nat ->
    (forall i x, (i < left)%nat -> a !! i = Some x -> le x pivot) ->
    (forall i x, (right <= i)%nat -> a !! i = Some x -> le pivot x) ->
    let p := insertionPoint compare fuel pivot a left right in
    (p <= length a)%nat /\
    (forall i x, (i < p)%nat -> a !! i = Some x -> le x pivot) /\
    (forall i x, (p <= i)%nat -> a !! i = Some x -> le pivot x).
Proof.
  intros Hs. induction fuel as [| fuel IH]; intros left right Hfuel Hrange Hbelow Habove;
    cbn [insertionPoint].
  - assert (left = right) as -> by lia. split; [lia | split; assumption].
  - destruct (Nat.ltb_spec left right) as [Hlt | Hge].
    2: { assert (left = right) as -> by lia. split; [lia | split; assumption]. }
    set (mid := (left + (right - left) / 2)%nat).
    assert (Hmid : (left <= mid < right)%nat).
    { subst mid. pose proof (Nat.Div0.div_le_upper_bound (right - left) 2 (right - left)).
      assert ((right - left) / 2 < right - left)%nat by (apply Nat.div_lt; lia). lia. }
    destruct (a !! mid) as [x |] eqn:Hx.
    2: { apply lookup_ge_None in Hx. lia. }
    destruct (Z.ltb_spec (compare pivot x) 0) as [Hneg | Hpos].
    + apply IH; [lia | lia | assumption |].
      intros i y Hi Hy. destruct (decide (i = mid)) as [-> | Hne].
      * rewrite Hx in Hy. injection Hy as <-. by apply compare_neg.
      * transitivity x; [by apply compare_neg |].
        apply (StronglySorted_lookup_lt a mid i); [done | lia | done | done].
    + apply IH; [lia | lia | | assumption].
      intros i y Hi Hy. destruct (decide (i = mid)) as [-> | Hne].
      * rewrite Hx in Hy. injection Hy as <-. by apply compare_nonneg.
      * transitivity x; [| by apply compare_nonneg].
        apply (StronglySorted_lookup_lt a i mid); [done | lia | done | done].
Qed.

Lemma binaryInsert_Permutation (sorted : list A) (pivot : A) :
  binaryInsert compare sorted pivot ≡ₚ pivot :: sorted.
Proof.
  unfold binaryInsert. rewrite <- Permutation_middle. by rewrite take_drop.
Qed.

Lemma binaryInsert_sorted (sorted : list A) (pivot : A) :
  StronglySorted le sorted -> StronglySorted le (binaryInsert compare sorted pivot).
Proof.
  intros Hs. unfold binaryInsert.
  destruct (insertionPoint_spec pivot sorted Hs (length sorted) 0 (length sorted))
    as (Hp & Hbelow & Habove); [lia | lia | intros; lia | |].
  { intros i x Hi Hx. apply lookup_lt_Some in Hx. lia. }
  set (p := insertionPoint compare (length sorted) pivot sorted 0 (length sorted)) in *.
  rewrite <- (take_drop p sorted) in Hs. apply StronglySorted_app in Hs as (Hcross & Hl & Hr).
  apply StronglySorted_app_2; [| exact Hl |].
  - intros x1 x2 H1 H2. apply elem_of_take in H1 as (i & Hi & Hip).
    apply elem_of_cons in H2 as [-> | H2]; [by eapply Hbelow |].
    apply Hcross; [| done]. apply elem_of_take. eauto.
  - apply StronglySorted_cons. split; [| exact Hr].
    apply Forall_forall. intros x Hx. apply list_elem_of_lookup in Hx as (i & Hi).
    rewrite lookup_drop in Hi. apply (Habove (p + i)%nat); [lia | done].
Qed.

Lemma insertAll_sorted (rest sorted : list A) :
  StronglySorted le sorted ->
  StronglySorted le (fold_left (binaryInsert compare) rest sorted).
Proof.
  revert sorted. induction rest as [| pivot rest IH]; intros sorted Hs; cbn; [done |].
  apply IH. by apply binaryInsert_sorted.
Qed.

Lemma insertAll_Permutation (rest sorted : list A) :
  fold_left (binaryInsert compare) rest sorted ≡ₚ sorted ++ rest.
Proof.
  revert sorted. induction rest as [| pivot rest IH]; intros sorted; cbn.
  - by rewrite app_nil_r.
  - rewrite IH, binaryInsert_Permutation. by rewrite <- Permutation_middle.
Qed.

Theorem sort_Permutation (a : list A) : sort compare a ≡ₚ a.
Proof.
  destruct a as [| low [| next rest]]; [done | done |].
  unfold sort. rewrite insertAll_Permutation.
  destruct (compare next low <? 0); [rewrite reverse_Permutation |]; by rewrite take_drop.
Qed.

Theorem sort_sorted (a : list A) : StronglySorted le (sort compare a).
Proof.
  destruct a as [| low [| next rest]]; [constructor | repeat constructor |].
  unfold sort. apply insertAll_sorted.
  destruct (Z.ltb_spec (compare next low) 0) as [Hneg | Hpos]; cbn [Nat.add take].
  - apply Sorted_StronglySorted; [done |].
    apply (Sorted_reverse (flip le)).
    constructor; [apply run_descending | constructor; by apply compare_neg].
  - apply Sorted_StronglySorted; [done |].
    constructor; [apply run_ascending | constructor; by apply compare_nonneg].
Qed.

(** The first element of a sorted array comes from the array and has
    nothing of the array before it. *)
Corollary sort_head (a : list A) (first : A) (others : list A) :
  sort compare a = first :: others ->
  first ∈ a /\ forall x, x ∈ a -> x = first \/ le first x.
Proof.
  intros Hsort. pose proof (sort_sorted a) as Hs. pose proof (sort_Permutation a) as Hp.
  rewrite Hsort in Hs, Hp. split.
  - rewrite <- Hp. by left.
  - intros x Hx. rewrite <- Hp in Hx. apply elem_of_cons in Hx as [-> | Hx]; [by left |].
    right. apply StronglySorted_cons in Hs as [Hall _].
    rewrite Forall_forall in Hall. by apply Hall.
Qed.

Lemma sort_nonempty (a : list A) : a <> [] -> sort compare a <> [].
Proof.
  intros Hne Hnil. pose proof (sort_Permutation a) as Hp. rewrite Hnil in Hp.
  apply Permutation_nil_l in Hp. congruence.
Qed.
End SortSpec.

(** ** Credential selection *)

#[global] Instance usedNoLater_Transitive : Transitive usedNoLater.
Proof.
  intros a b c. unfold usedNoLater.
  destruct (lastUsed a), (lastUsed b), (lastUsed c); intros; try done; lia.
Qed.

#[global] Instance usedNoLater_Reflexive : Reflexive usedNoLater.
Proof. intros a. unfold usedNoLater. destruct (lastUsed a); [lia | done]. Qed.

Lemma byLastUsed_neg (a b : GeminiKey) : byLastUsed a b < 0 -> usedNoLater a b.
Proof.
  unfold byLastUsed, usedNoLater. destruct (lastUsed a), (lastUsed b); intros; try done; lia.
Qed.

Lemma byLastUsed_nonneg (a b : GeminiKey) : 0 <= byLastUsed a b -> usedNoLater b a.
Proof.
  unfold byLastUsed, usedNoLater. destruct (lastUsed a), (lastUsed b); intros; try done; lia.
Qed.

(** The head of the array sorted by [byLastUsed] is a least recently used
    element of the array. *)
Lemma sort_byLastUsed_head (keys : list GeminiKey) (first : GeminiKey) (others : list GeminiKey) :
  sort byLastUsed keys = first :: others ->
  first ∈ keys /\ forall k, k ∈ keys -> usedNoLater first k.
Proof.
  intros Hsort.
  destruct (sort_head byLastUsed usedNoLater byLastUsed_neg byLastUsed_nonneg keys first others Hsort)
    as [Hin Hmin].
  split; [exact Hin |]. intros k Hk. destruct (Hmin k Hk) as [-> | Hle]; [reflexivity | exact Hle].
Qed.

Lemma wellKeyed_empty : wellKeyed ∅.
Proof. intros n k H. by rewrite lookup_empty in H. Qed.

Lemma wellKeyed_alter (f : GeminiKey -> GeminiKey) (n : string) (ks : gmap string GeminiKey) :
  (forall k, name (f k) = name k) -> wellKeyed ks -> wellKeyed (alter f n ks).
Proof.
  intros Hf Hwk m k. rewrite lookup_alter. case_decide as Hnm.
  - subst m. destruct (ks !! n) as [k0 |] eqn:Hk0; cbn; [| done].
    intros [= <-]. rewrite Hf. by apply Hwk.
  - apply Hwk.
Qed.

Lemma pushConfigured_filed (n : string) (v : option string)
    (acc : list GeminiKey * gmap string GeminiKey) :
  filed acc -> filed (pushConfigured n v acc).
Proof.
  destruct acc as [keys ks]. intros [Hwk Hin]. unfold pushConfigured, getOrCreateKeyState.
  destruct (Js.optTruthy v); [| by split].
  destruct (ks !! n) as [state |] eqn:Hn; unfold filed; cbn [fst snd] in *.
  - split; [exact Hwk |]. intros k Hk. apply elem_of_app in Hk as [Hk | Hk]; [by apply Hin |].
    apply list_elem_of_singleton in Hk as ->. by rewrite (Hwk n state Hn).
  - split.
    + intros m k. rewrite lookup_insert. case_decide as Hnm; [| apply Hwk].
      intros [= <-]. by subst m.
    + intros k Hk. apply elem_of_app in Hk as [Hk | Hk].
      * rewrite lookup_insert_ne; [by apply Hin |].
        intros Heq. rewrite Heq, (Hin k Hk) in Hn. done.
      * apply list_elem_of_singleton in Hk as ->. cbn. apply lookup_insert_eq.
Qed.

Lemma getConfiguredKeys_filed (env : Env) (ks : gmap string GeminiKey) :
  wellKeyed ks -> filed (getConfiguredKeys env ks).
Proof.
  intros Hwk. unfold getConfiguredKeys. do 3 apply pushConfigured_filed.
  split; [exact Hwk |]. intros k Hk. by apply elem_of_nil in Hk.
Qed.

Lemma filter_healthy (keys : list GeminiKey) (k : GeminiKey) :
  k ∈ List.filter isHealthy keys <-> k ∈ keys /\ isHealthy k = true.
Proof. rewrite !list_elem_of_In. apply filter_In. Qed.

Lemma length_zero_nil {A} (l : list A) : (length l =? 0)%nat = true <-> l = [].
Proof. destruct l; cbn; split; intros; congruence. Qed.

(** [selectKey] once the configured keys are read. *)
Lemma selectKey_unfold (env : Env) (ks : gmap string GeminiKey) :
  let keys := (getConfiguredKeys env ks).1 in
  let ks1 := (getConfiguredKeys env ks).2 in
  selectKey env ks
  = if (length keys =? 0)%nat then (None, ks1)
    else if (length (List.filter isHealthy keys) =? 0)%nat then
      match sort byLastUsed keys with
      | oldestError :: _ =>
          (Some (setHealthy true oldestError), alter (setHealthy true) (name oldestError) ks1)
      | [] => (None, ks1)
      end
    else
      match sort byLastUsed (List.filter isHealthy keys) with
      | selected :: _ => (Some selected, ks1)
      | [] => (None, ks1)
      end.
Proof. unfold selectKey. by destruct (getConfiguredKeys env ks). Qed.

(** With a healthy key configured, the least recently used healthy key is
    selected and the table stays as it is. *)
Lemma selectKey_picks_healthy (env : Env) (ks : gmap string GeminiKey) :
  let keys := (getConfiguredKeys env ks).1 in
  let ks1 := (getConfiguredKeys env ks).2 in
  (exists k, k ∈ keys /\ isHealthy k = true) ->
  exists selected,
    selectKey env ks = (Some selected, ks1) /\
    selected ∈ keys /\
    isHealthy selected = true /\
    forall k, k ∈ keys -> isHealthy k = true -> usedNoLater selected k.
Proof.
  intros keys ks1 (k0 & Hk0 & Hh0). rewrite selectKey_unfold. fold keys ks1.
  destruct (length keys =? 0)%nat eqn:Hlen.
  { apply length_zero_nil in Hlen. rewrite Hlen in Hk0. by apply elem_of_nil in Hk0. }
  destruct (length (List.filter isHealthy keys) =? 0)%nat eqn:Hhl.
  { apply length_zero_nil in Hhl.
    assert (k0 ∈ List.filter isHealthy keys) as Hin by by apply filter_healthy.
    rewrite Hhl in Hin. by apply elem_of_nil in Hin. }
  destruct (sort byLastUsed (List.filter isHealthy keys)) as [| selected others] eqn:Hsort.
  { exfalso. apply (sort_nonempty byLastUsed (List.filter isHealthy keys)); [| done].
    intros Hnil. rewrite Hnil in Hhl. done. }
  apply sort_byLastUsed_head in Hsort as [Hin Hmin].
  apply filter_healthy in Hin as [Hin Hh].
  exists selected. split; [reflexivity |]. split; [exact Hin |]. split; [exact Hh |].
  intros k Hk Hkh. apply Hmin. by apply filter_healthy.
Qed.

(** The candidates are the keys [getConfiguredKeys] returns, and the table
    it returns is the table it was given with the new records added. *)
Lemma pushConfigured_collected (seen : list (string * option string))
    (ks : gmap string GeminiKey) (n : string) (v : option string)
    (acc : list GeminiKey * gmap string GeminiKey) :
  n ∉ seen.*1 ->
  collected seen ks acc ->
  collected (seen ++ [(n, v)])%list ks (pushConfigured n v acc).
Proof.
  destruct acc as [keys t]. intros Hnew (Hkeys & Hrest & Hfrom). cbn [fst snd] in *.
  assert (Hn : t !! n = ks !! n) by now apply Hrest.
  assert (Hseen : forall k, candidateOf (seen ++ [(n, v)])%list ks k <->
                    candidateOf seen ks k \/
                    (Js.optTruthy v = true /\
                     k = default (mkGeminiKey (default "" v) n true None None 0) (ks !! n))).
  { intros k. unfold candidateOf. split.
    - intros (m & u & Hin & Hu & Hk). apply elem_of_app in Hin as [Hin | Hin].
      + left. eauto.
      + apply list_elem_of_singleton in Hin. injection Hin as -> ->. right. eauto.
    - intros [(m & u & Hin & Hu & Hk) | [Hu Hk]].
      + exists m, u. split; [apply elem_of_app; by left | eauto].
      + exists n, v. split; [apply elem_of_app; right; by apply list_elem_of_singleton | eauto]. }
  assert (Hnames : forall m, m ∉ ((seen ++ [(n, v)])%list).*1 -> (m ∉ seen.*1) /\ m <> n).
  { intros m Hm. rewrite fmap_app, not_elem_of_app in Hm. destruct Hm as [Hm Hmn].
    split; [exact Hm |]. intros ->. apply Hmn. cbn. by left. }
  unfold pushConfigured, getOrCreateKeyState, collected.
  destruct (Js.optTruthy v) eqn:Hv.
  2: { repeat split; cbn [fst snd].
       - intros Hk. apply Hseen. left. by apply Hkeys.
       - intros Hk. apply Hseen in Hk as [Hk | [Hu _]]; [by apply Hkeys | discriminate Hu].
       - intros m Hm. apply Hrest. by apply Hnames.
       - exact Hfrom. }
  rewrite Hn. destruct (ks !! n) as [state |] eqn:Hstate; cbn [fst snd].
  - repeat split.
    + intros Hk. apply Hseen. apply elem_of_app in Hk as [Hk | Hk]; [left; by apply Hkeys |].
      apply list_elem_of_singleton in Hk as ->. by right.
    + intros Hk. apply elem_of_app. apply Hseen in Hk as [Hk | [_ ->]]; [left; by apply Hkeys |].
      right. by apply list_elem_of_singleton.
    + intros m Hm. apply Hrest. by apply Hnames.
    + intros m k Hm. destruct (Hfrom m k Hm) as [Hks | [Hk Hnone]]; [by left |].
      right. split; [apply elem_of_app; by left | exact Hnone].
  - repeat split.
    + intros Hk. apply Hseen. apply elem_of_app in Hk as [Hk | Hk]; [left; by apply Hkeys |].
      apply list_elem_of_singleton in Hk as ->. by right.
    + intros Hk. apply elem_of_app. apply Hseen in Hk as [Hk | [_ ->]]; [left; by apply Hkeys |].
      right. by apply list_elem_of_singleton.
    + intros m Hm. destruct (Hnames m Hm) as [Hm' Hmn].
      rewrite lookup_insert_ne by congruence. by apply Hrest.
    + intros m k. rewrite lookup_insert. case_decide as Hmn.
      * intros [= <-]. subst m. right. split; [| exact Hstate].
        apply elem_of_app. right. by apply list_elem_of_singleton.
      * intros Hm. destruct (Hfrom m k Hm) as [Hks | [Hk Hnone]]; [by left |].
        right. split; [apply elem_of_app; by left | exact Hnone].
Qed.

Lemma getConfiguredKeys_collected (env : Env) (ks : gmap string GeminiKey) :
  collected (slots env) ks (getConfiguredKeys env ks).
Proof.
  unfold getConfiguredKeys, slots.
  apply (pushConfigured_collected [("primary", _); ("fallback1", _)]).
  { cbn. intros Hin. repeat (apply elem_of_cons in Hin as [Hin | Hin]; [discriminate Hin |]).
    by apply elem_of_nil in Hin. }
  apply (pushConfigured_collected [("primary", _)]).
  { cbn. intros Hin. repeat (apply elem_of_cons in Hin as [Hin | Hin]; [discriminate Hin |]).
    by apply elem_of_nil in Hin. }
  apply (pushConfigured_collected []).
  { cbn. intros Hin. by apply elem_of_nil in Hin. }
  repeat split; cbn [fst snd].
  - intros Hk. by apply elem_of_nil in Hk.
  - intros (n & v & Hin & _). by apply elem_of_nil in Hin.
  - intros m k Hm. by left.
Qed.

Lemma getConfiguredKeys_keeps (env : Env) (ks : gmap string GeminiKey) (n : string) (k : GeminiKey) :
  ks !! n = Some k -> (getConfiguredKeys env ks).2 !! n = Some k.
Proof.
  assert (Hpush : forall m v acc, acc.2 !! n = Some k -> (pushConfigured m v acc).2 !! n = Some k).
  { intros m v [keys t] Hn. unfold pushConfigured, getOrCreateKeyState. cbn [snd] in *.
    destruct (Js.optTruthy v); [| done].
    destruct (t !! m) eqn:Hm; cbn [snd]; [done |].
    rewrite lookup_insert_ne; [done | congruence]. }
  intros Hn. unfold getConfiguredKeys. by do 3 apply Hpush.
Qed.

(** [selectKey] among the keys [getConfiguredKeys] returns. *)
Lemma selectKey_among (env : Env) (ks : gmap string GeminiKey) :
  wellKeyed ks ->
  let keys := (getConfiguredKeys env ks).1 in
  let ks1 := (getConfiguredKeys env ks).2 in
  (keys = [] -> selectKey env ks = (None, ks1)) /\
  ((exists k, k ∈ keys /\ isHealthy k = true) ->
   exists selected,
     selectKey env ks = (Some selected, ks1) /\
     selected ∈ keys /\
     isHealthy selected = true /\
     forall k, k ∈ keys -> isHealthy k = true -> usedNoLater selected k) /\
  (keys <> [] ->
   (forall k, k ∈ keys -> isHealthy k = false) ->
   exists oldest,
     oldest ∈ keys /\
     (forall k, k ∈ keys -> usedNoLater oldest k) /\
     selectKey env ks
     = (Some (setHealthy true oldest), alter (setHealthy true) (name oldest) ks1) /\
     alter (setHealthy true) (name oldest) ks1 !! name oldest = Some (setHealthy true oldest)) /\
  (forall k ks', selectKey env ks = (Some k, ks') -> isHealthy k = true).
Proof.
  intros Hwk keys ks1.
  destruct (getConfiguredKeys_filed env ks Hwk) as [Hwk1 Hfiled]. fold keys ks1 in Hwk1, Hfiled.
  split; [| split; [| split]].
  - intros Hnil. rewrite selectKey_unfold. fold keys ks1. by rewrite Hnil.
  - apply selectKey_picks_healthy.
  - intros Hne Hnone. rewrite selectKey_unfold. fold keys ks1.
    destruct (length keys =? 0)%nat eqn:Hlen; [by apply length_zero_nil in Hlen |].
    destruct (length (List.filter isHealthy keys) =? 0)%nat eqn:Hhl.
    2: { exfalso. destruct (List.filter isHealthy keys) as [| k others] eqn:Hf; [done |].
         assert (k ∈ List.filter isHealthy keys) as Hin by (rewrite Hf; by left).
         apply filter_healthy in Hin as [Hin Hh]. rewrite (Hnone k Hin) in Hh. done. }
    destruct (sort byLastUsed keys) as [| oldest others] eqn:Hsort.
    { exfalso. by apply (sort_nonempty byLastUsed keys). }
    apply sort_byLastUsed_head in Hsort as [Hin Hmin].
    exists oldest. split; [exact Hin |]. split; [exact Hmin |]. split; [reflexivity |].
    rewrite lookup_alter. rewrite decide_True by done. by rewrite (Hfiled oldest Hin).
  - intros k ks'. rewrite selectKey_unfold. fold keys ks1.
    destruct (length keys =? 0)%nat; [done |].
    destruct (length (List.filter isHealthy keys) =? 0)%nat.
    + destruct (sort byLastUsed keys); [done |]. by intros [= <- _].
    + destruct (sort byLastUsed (List.filter isHealthy keys)) as [| selected others] eqn:Hsort;
        [done |].
      intros [= <- _]. apply sort_byLastUsed_head in Hsort as [Hin _].
      by apply filter_healthy in Hin as [_ Hh].
Qed.

(** C4: credential selection.  The credentials to choose from are, for
    each name configured in the environment, the record the table holds under
    that name, with the health and the last use recorded there, or a new
    record, healthy and never used, for a name the table does not hold yet;
    the table [selectKey] goes on from is the table given with those new
    records added.  With no credential configured nothing is returned.  With
    a healthy credential among the candidates, a healthy candidate is
    returned that was used no later than any other healthy one (never-used
    first), and the table is left at that.  With credentials configured and
    none healthy, a candidate used no later than any other is returned and
    set back to healthy in the table.  In no case does the credential
    returned read unhealthy. *)
Theorem C4_selectKey (env : Env) (ks : gmap string GeminiKey) :
  wellKeyed ks ->
  let ks1 := (getConfiguredKeys env ks).2 in
  (forall n k,
      ks1 !! n = Some k <->
      ks !! n = Some k \/ (ks !! n = None /\ candidate env ks k /\ name k = n)) /\
  ((forall k, ~ candidate env ks k) -> selectKey env ks = (None, ks1)) /\
  ((exists k, candidate env ks k /\ isHealthy k = true) ->
   exists selected,
     selectKey env ks = (Some selected, ks1) /\
     candidate env ks selected /\
     isHealthy selected = true /\
     forall k, candidate env ks k -> isHealthy k = true -> usedNoLater selected k) /\
  ((exists k, candidate env ks k) ->
   (forall k, candidate env ks k -> isHealthy k = false) ->
   exists oldest,
     candidate env ks oldest /\
     (forall k, candidate env ks k -> usedNoLater oldest k) /\
     selectKey env ks
     = (Some (setHealthy true oldest), alter (setHealthy true) (name oldest) ks1) /\
     alter (setHealthy true) (name oldest) ks1 !! name oldest = Some (setHealthy true oldest)) /\
  (forall k ks', selectKey env ks = (Some k, ks') -> isHealthy k = true).
Proof.
  intros Hwk ks1.
  destruct (selectKey_among env ks Hwk) as (Hnone & Hhealthy & Hrevive & Hnever).
  destruct (getConfiguredKeys_collected env ks) as (Hkeys & _ & Hfrom).
  destruct (getConfiguredKeys_filed env ks Hwk) as [Hwk1 Hfiled].
  fold ks1 in Hnone, Hhealthy, Hrevive, Hfrom, Hwk1, Hfiled.
  fold (candidate env ks) in Hkeys.
  split; [| split; [| split; [| split]]].
  - intros n k. split.
    + intros Hn. destruct (Hfrom n k Hn) as [Hks | [Hk Hnot]]; [by left |].
      right. split; [exact Hnot |]. split; [by apply Hkeys | by apply Hwk1].
    + intros [Hks | (_ & Hk & <-)]; [by apply getConfiguredKeys_keeps |].
      apply Hfiled. by apply Hkeys.
  - intros Hno. apply Hnone.
    destruct (getConfiguredKeys env ks).1 as [| k keys] eqn:Hlist; [reflexivity |].
    exfalso. apply (Hno k), Hkeys. by left.
  - intros (k & Hk & Hh).
    destruct Hhealthy as (selected & Hsel & Hin & Hsh & Hmin).
    { exists k. split; [by apply Hkeys | exact Hh]. }
    exists selected. split; [exact Hsel |]. split; [by apply Hkeys |]. split; [exact Hsh |].
    intros k' Hk' Hh'. apply Hmin; [by apply Hkeys | exact Hh'].
  - intros (k & Hk) Hall.
    destruct Hrevive as (oldest & Hin & Hmin & Hsel & Htable).
    { intros Hnil. apply Hkeys in Hk. rewrite Hnil in Hk. by apply elem_of_nil in Hk. }
    { intros k' Hk'. apply Hall. by apply Hkeys. }
    exists oldest. split; [by apply Hkeys |]. split; [| split; [exact Hsel | exact Htable]].
    intros k' Hk'. apply Hmin. by apply Hkeys.
  - exact Hnever.
Qed.

Lemma C4_selectKey_witness :
  wellKeyed poolTable /\
  (exists k, candidate threeKeyEnv poolTable k /\ isHealthy k = true) /\
  selectKey threeKeyEnv poolTable = (Some fallback2Key, poolTable) /\
  exists selected,
    selectKey threeKeyEnv poolTable = (Some selected, (getConfiguredKeys threeKeyEnv poolTable).2) /\
    candidate threeKeyEnv poolTable selected /\
    isHealthy selected = true /\
    forall k, candidate threeKeyEnv poolTable k -> isHealthy k = true -> usedNoLater selected k.
Proof.
  assert (Hwk : wellKeyed poolTable).
  { intros n k. unfold poolTable. rewrite !lookup_insert, lookup_empty.
    repeat case_decide; intros [= <-]; by subst. }
  assert (Hcandidate : exists k, candidate threeKeyEnv poolTable k /\ isHealthy k = true).
  { exists fallback2Key. split; [| reflexivity].
    exists "fallback2", (Some "AIza-fallback2").
    split; [do 2 apply list_elem_of_further; apply list_elem_of_here |].
    split; reflexivity. }
  split; [exact Hwk |]. split; [exact Hcandidate |]. split; [vm_compute; reflexivity |].
  exact (proj1 (proj2 (proj2 (C4_selectKey threeKeyEnv poolTable Hwk))) Hcandidate).
Defined.

(** ** The retry loop *)

(** The key [selectKey] returns is the entry of the table under its name. *)
Lemma selectKey_filed (env : Env) (ks ks' : gmap string GeminiKey) (k : GeminiKey) :
  wellKeyed ks ->
  selectKey env ks = (Some k, ks') ->
  wellKeyed ks' /\ ks' !! name k = Some k /\ isHealthy k = true.
Proof.
  intros Hwk Hsel.
  destruct (getConfiguredKeys_filed env ks Hwk) as [Hwk1 Hfiled].
  unfold selectKey in Hsel. destruct (getConfiguredKeys env ks) as [keys ks1]. cbn [fst snd] in *.
  destruct (length keys =? 0)%nat; [done |].
  destruct (length (List.filter isHealthy keys) =? 0)%nat.
  - destruct (sort byLastUsed keys) as [| oldest others] eqn:Hsort; [done |].
    injection Hsel as <- <-. apply sort_byLastUsed_head in Hsort as [Hin _].
    split; [by apply wellKeyed_alter |]. split; [| done].
    cbn [name setHealthy]. rewrite lookup_alter, decide_True by done.
    by rewrite (Hfiled oldest Hin).
  - destruct (sort byLastUsed (List.filter isHealthy keys)) as [| selected others] eqn:Hsort;
      [done |].
    injection Hsel as <- <-. apply sort_byLastUsed_head in Hsort as [Hin _].
    apply filter_healthy in Hin as [Hin Hh]. split; [done |]. split; [by apply Hfiled | done].
Qed.

(** With a credential configured [selectKey] always returns one. *)
Lemma selectKey_configured (env : Env) (ks : gmap string GeminiKey) :
  configured env = true -> exists k ks', selectKey env ks = (Some k, ks').
Proof.
  intros Hc.
  assert (Hne : (getConfiguredKeys env ks).1 <> []).
  { assert (Hpush : forall m v acc,
              acc.1 <> [] \/ Js.optTruthy v = true -> (pushConfigured m v acc).1 <> []).
    { intros m v [keys t] H. unfold pushConfigured. cbn [fst] in *.
      destruct (Js.optTruthy v).
      - destruct (getOrCreateKeyState m (default "" v) t). cbn. by destruct keys.
      - by destruct H. }
    unfold getConfiguredKeys, configured in *.
    apply Hpush. destruct (Js.optTruthy (GEMINI_KEY_FALLBACK_2 env)); [by right | left].
    apply Hpush. destruct (Js.optTruthy (GEMINI_KEY_FALLBACK_1 env)); [by right | left].
    apply Hpush. right. by destruct (Js.optTruthy (GEMINI_KEY_PRIMARY env)). }
  unfold selectKey. destruct (getConfiguredKeys env ks) as [keys ks1]. cbn [fst] in Hne.
  destruct (length keys =? 0)%nat eqn:Hlen; [by apply length_zero_nil in Hlen |].
  destruct (length (List.filter isHealthy keys) =? 0)%nat eqn:Hhl.
  - destruct (sort byLastUsed keys) eqn:Hsort; [| eauto].
    exfalso. by apply (sort_nonempty byLastUsed keys).
  - destruct (sort byLastUsed (List.filter isHealthy keys)) eqn:Hsort; [| eauto].
    exfalso. apply (sort_nonempty byLastUsed (List.filter isHealthy keys)); [| done].
    intros Hnil. by rewrite Hnil in Hhl.
Qed.

Section Rotation.
Context (env : Env) (backend : Backend) (now : Z) (request : GenerateRequest).

Lemma generateWithKey_rejected (attempt : nat) (keyInfo : GeminiKey) (e : Error) :
  backend attempt keyInfo request = Rejected e ->
  generateWithKey backend attempt keyInfo request = Throw e.
Proof. intros H. unfold generateWithKey. by rewrite H. Qed.

(** A failure that is classified goes on to the next attempt with the
    key that failed marked unhealthy. *)
Lemma rotate_retry (remaining attempt : nat) (lastError : option Error) (w : World)
    (keyInfo : GeminiKey) (ks1 : gmap string GeminiKey) (e : Error) :
  selectKey env (keyStates w) = (Some keyInfo, ks1) ->
  backend attempt keyInfo request = Rejected e ->
  retryable e = true ->
  rotate env backend now request (S remaining) attempt lastError w
  = rotate env backend now request remaining (S attempt) (Some e)
      (with_keyStates (markKeyUnhealthy (name keyInfo) (failureReason e) ks1)
         (with_outbox (backendCall keyInfo :: outbox w) (with_keyStates ks1 w))).
Proof.
  intros Hsel Hrej Hretry. cbn [rotate]. rewrite Hsel.
  rewrite (generateWithKey_rejected attempt keyInfo e Hrej).
  unfold retryable, failureReason in *.
  destruct (isRateLimited _); [reflexivity |].
  cbn [orb] in Hretry. rewrite Hretry. reflexivity.
Qed.

(** Any other failure ends the loop at once. *)
Lemma rotate_abort (remaining attempt : nat) (lastError : option Error) (w : World)
    (keyInfo : GeminiKey) (ks1 : gmap string GeminiKey) (e : Error) :
  selectKey env (keyStates w) = (Some keyInfo, ks1) ->
  backend attempt keyInfo request = Rejected e ->
  retryable e = false ->
  rotate env backend now request (S remaining) attempt lastError w
  = (Throw e, with_outbox (backendCall keyInfo :: outbox w) (with_keyStates ks1 w)).
Proof.
  intros Hsel Hrej Hretry. cbn [rotate]. rewrite Hsel.
  rewrite (generateWithKey_rejected attempt keyInfo e Hrej).
  unfold retryable in Hretry. apply orb_false_iff in Hretry as [-> ->]. reflexivity.
Qed.

(** Each iteration calls the backend at most once. *)
Lemma rotate_calls (remaining attempt : nat) (lastError : option Error) (w : World) :
  (length (outbox (rotate env backend now request remaining attempt lastError w).2)
   <= length (outbox w) + remaining)%nat.
Proof.
  revert attempt lastError w.
  induction remaining as [| remaining IH]; intros attempt lastError w; cbn [rotate].
  - cbn. lia.
  - destruct (selectKey env (keyStates w)) as [[keyInfo |] ks1]; [| cbn; lia].
    destruct (generateWithKey backend attempt keyInfo request) as [result | e]; [cbn; lia |].
    destruct (isRateLimited _); [| destruct (isInvalidKey _)].
    + etransitivity; [apply IH |]. cbn. lia.
    + etransitivity; [apply IH |]. cbn. lia.
    + cbn. lia.
Qed.

(** After a classified failure the key that failed reads unhealthy, and
    as long as some configured key is healthy the next one selected is
    another one. *)
Lemma retry_marks_and_moves_on (ks ks1 : gmap string GeminiKey) (keyInfo : GeminiKey)
    (reason : string) :
  wellKeyed ks ->
  selectKey env ks = (Some keyInfo, ks1) ->
  let marked := markKeyUnhealthy (name keyInfo) reason ks1 in
  wellKeyed marked /\
  isHealthy <$> marked !! name keyInfo = Some false /\
  forall next ks2,
    selectKey env marked = (Some next, ks2) ->
    (exists k, k ∈ (getConfiguredKeys env marked).1 /\ isHealthy k = true) ->
    name next <> name keyInfo.
Proof.
  intros Hwk Hsel marked.
  destruct (selectKey_filed env ks ks1 keyInfo Hwk Hsel) as (Hwk1 & Hfiled & _).
  assert (Hwkm : wellKeyed marked) by (by apply wellKeyed_alter).
  assert (Hmarked : marked !! name keyInfo
                    = Some (mkGeminiKey (key keyInfo) (name keyInfo) false (Some reason)
                              (lastUsed keyInfo) (requestCount keyInfo))).
  { unfold marked, markKeyUnhealthy. rewrite lookup_alter, decide_True by done.
    by rewrite Hfiled. }
  split; [exact Hwkm |]. split; [by rewrite Hmarked |].
  intros next ks2 Hnext Hhealthy Hsame.
  destruct (selectKey_picks_healthy env marked Hhealthy) as (selected & Hsel' & Hin & Hh & _).
  rewrite Hsel' in Hnext. injection Hnext as -> _.
  destruct (getConfiguredKeys_filed env marked Hwkm) as [_ Hlook].
  specialize (Hlook next Hin).
  rewrite Hsame, (getConfiguredKeys_keeps env marked _ _ Hmarked) in Hlook.
  injection Hlook as <-. done.
Qed.
End Rotation.

(** C5 (as stated) fails in "continues with another credential": with one
    credential configured and a backend that answers 429, the three attempts
    all go to that same credential, and the last error is what is thrown. *)
Lemma C5_retries_same_credential :
  fst (generateWithRotation oneKeyEnv exhaustedBackend t0
         (mkGenerateRequest "Say hi" None None None) emptyWorld)
  = Throw (mkError "429 Too Many Requests") /\
  outbox (snd (generateWithRotation oneKeyEnv exhaustedBackend t0
                 (mkGenerateRequest "Say hi" None None None) emptyWorld))
  = [mkFetch "generateContent" "primary"; mkFetch "generateContent" "primary";
     mkFetch "generateContent" "primary"].
Proof. vm_compute. split; reflexivity. Qed.

(** When every call is turned down with a classified failure, each of the
    iterations left makes its call, and what is thrown is the failure of the
    last one. *)
Lemma rotate_exhausts (env : Env) (backend : Backend) (now : Z) (request : GenerateRequest) :
  configured env = true ->
  (forall attempt k, exists e, backend attempt k request = Rejected e /\ retryable e = true) ->
  forall remaining attempt lastError w,
  exists k e w',
    rotate env backend now request (S remaining) attempt lastError w = (Throw e, w') /\
    backend (attempt + remaining)%nat k request = Rejected e /\
    length (outbox w') = (length (outbox w) + S remaining)%nat.
Proof.
  intros Hconf Hall. induction remaining as [| remaining IH]; intros attempt lastError w.
  - destruct (selectKey_configured env (keyStates w) Hconf) as (k & ks1 & Hsel).
    destruct (Hall attempt k) as (e & Hrej & Hretry).
    rewrite (rotate_retry env backend now request 0 attempt lastError w k ks1 e Hsel Hrej Hretry).
    exists k, e. eexists. cbn [rotate default]. split; [reflexivity |].
    split; [by rewrite Nat.add_0_r |]. cbn. lia.
  - destruct (selectKey_configured env (keyStates w) Hconf) as (k & ks1 & Hsel).
    destruct (Hall attempt k) as (e & Hrej & Hretry).
    rewrite (rotate_retry env backend now request (S remaining) attempt lastError w k ks1 e
               Hsel Hrej Hretry).
    match goal with
    | |- context [rotate _ _ _ _ (S remaining) (S attempt) (Some e) ?w1] =>
        destruct (IH (S attempt) (Some e) w1) as (k' & e' & w' & Hrun & Hlast & Hlen)
    end.
    exists k', e', w'. split; [exact Hrun |].
    split; [by rewrite Nat.add_succ_r |]. rewrite Hlen. cbn. lia.
Qed.

(** C5 (amended): the loop of [generateWithRotation] makes at most three
    attempts.  A failure classified as quota/rate-limited or as
    invalid/unauthorized marks the credential that was used unhealthy and goes
    on to the next attempt with the credential [selectKey] then returns, a
    different one as long as some configured credential is still healthy (the
    same one may come back when none is).  Any other failure is thrown at
    once: the credential is not marked and no further call is made.  When
    the attempts are used up, the failure of the last one is thrown. *)
Theorem C5_retry_loop (env : Env) (backend : Backend) (now : Z) (request : GenerateRequest) :
  generateWithRotation env backend now request = rotate env backend now request 3 0 None /\
  (forall w,
      (length (outbox (generateWithRotation env backend now request w).2)
       <= length (outbox w) + 3)%nat) /\
  (forall remaining attempt lastError w keyInfo ks1 e,
      wellKeyed (keyStates w) ->
      selectKey env (keyStates w) = (Some keyInfo, ks1) ->
      backend attempt keyInfo request = Rejected e ->
      retryable e = true ->
      let marked := markKeyUnhealthy (name keyInfo) (failureReason e) ks1 in
      rotate env backend now request (S remaining) attempt lastError w
      = rotate env backend now request remaining (S attempt) (Some e)
          (with_keyStates marked
             (with_outbox (backendCall keyInfo :: outbox w) (with_keyStates ks1 w))) /\
      isHealthy <$> marked !! name keyInfo = Some false /\
      forall next ks2,
        selectKey env marked = (Some next, ks2) ->
        (exists k, k ∈ (getConfiguredKeys env marked).1 /\ isHealthy k = true) ->
        name next <> name keyInfo) /\
  (forall remaining attempt lastError w keyInfo ks1 e,
      selectKey env (keyStates w) = (Some keyInfo, ks1) ->
      backend attempt keyInfo request = Rejected e ->
      retryable e = false ->
      rotate env backend now request (S remaining) attempt lastError w
      = (Throw e, with_outbox (backendCall keyInfo :: outbox w) (with_keyStates ks1 w))) /\
  (forall attempt lastError w keyInfo ks1 e,
      selectKey env (keyStates w) = (Some keyInfo, ks1) ->
      backend attempt keyInfo request = Rejected e ->
      retryable e = true ->
      fst (rotate env backend now request 1 attempt lastError w) = Throw e) /\
  (configured env = true ->
   (forall attempt k, exists e, backend attempt k request = Rejected e /\ retryable e = true) ->
   forall w, exists k e w',
     generateWithRotation env backend now request w = (Throw e, w') /\
     backend 2%nat k request = Rejected e /\
     length (outbox w') = (length (outbox w) + 3)%nat).
Proof.
  split; [reflexivity |]. split; [| split; [| split; [| split]]].
  - intros w. apply rotate_calls.
  - intros remaining attempt lastError w keyInfo ks1 e Hwk Hsel Hrej Hretry marked.
    split; [by apply rotate_retry |].
    destruct (retry_marks_and_moves_on env (keyStates w) ks1 keyInfo (failureReason e) Hwk Hsel)
      as (_ & Hmarked & Hnext).
    split; [exact Hmarked | exact Hnext].
  - intros remaining attempt lastError w keyInfo ks1 e. apply rotate_abort.
  - intros attempt lastError w keyInfo ks1 e Hsel Hrej Hretry.
    rewrite (rotate_retry env backend now request 0 attempt lastError w keyInfo ks1 e
               Hsel Hrej Hretry).
    reflexivity.
  - intros Hconf Hall w.
    apply (rotate_exhausts env backend now request Hconf Hall 2 0%nat None w).
Qed.

(** ** The theorems at work on the scenarios *)

Lemma C5_retry_loop_witness :
  configured oneKeyEnv = true /\
  exists k e w',
    generateWithRotation oneKeyEnv exhaustedBackend t0
      (mkGenerateRequest "Say hi" None None None) emptyWorld = (Throw e, w') /\
    exhaustedBackend 2%nat k (mkGenerateRequest "Say hi" None None None) = Rejected e /\
    length (outbox w') = (length (outbox emptyWorld) + 3)%nat.
Proof.
  split; [reflexivity |].
  refine (proj2 (proj2 (proj2 (proj2 (proj2
            (C5_retry_loop oneKeyEnv exhaustedBackend t0
               (mkGenerateRequest "Say hi" None None None)))))) _ _ emptyWorld).
  - reflexivity.
  - intros attempt k. exists (mkError "429 Too Many Requests"). split; reflexivity.
Defined.

Lemma C6_usage_charge_witness :
  generateWithRotation oneKeyEnv meteredBackend t0
    (mkGenerateRequest "Say hi" None None None) emptyWorld
  = (Ok (mkGenerateResult "abcd" "gemini-1.5-flash" (Usage.mk 400 600 1000) "primary"),
     snd (generateWithRotation oneKeyEnv meteredBackend t0
            (mkGenerateRequest "Say hi" None None None) emptyWorld)) /\
  exists resp w2 log,
    Generate.generate oneKeyEnv meteredBackend t0 "Say hi" None None
      (mkIdentity "ip:4pl4mu" anonymous) (Ratelimit.mkResponse true 5 4 1700006400000) emptyWorld
    = (Ok resp, w2) /\
    status resp = 200 /\
    tracked w2
    = log :: tracked (snd (generateWithRotation oneKeyEnv meteredBackend t0
                             (mkGenerateRequest "Say hi" None None None) emptyWorld)) /\
    4 * (tokens log - 1)
      < Z.of_nat (String.length "Say hi") + Z.of_nat (String.length "abcd")
      <= 4 * tokens log /\
    (cost log == inject_Z (tokens log) / (1000 # 1) * (1875 # 10000000))%Q.
Proof.
  assert (Hgen : generateWithRotation oneKeyEnv meteredBackend t0
                   (mkGenerateRequest "Say hi" None None None) emptyWorld
                 = (Ok (mkGenerateResult "abcd" "gemini-1.5-flash" (Usage.mk 400 600 1000)
                          "primary"),
                    snd (generateWithRotation oneKeyEnv meteredBackend t0
                           (mkGenerateRequest "Say hi" None None None) emptyWorld))).
  { vm_compute. reflexivity. }
  split; [exact Hgen |].
  exact (C6_usage_charge oneKeyEnv meteredBackend t0 "Say hi" None None
           (mkIdentity "ip:4pl4mu" anonymous) (Ratelimit.mkResponse true 5 4 1700006400000)
           emptyWorld _ _ Hgen).
Defined.

Lemma C8_null_redirect_is_not_consumed_witness :
  query nullRedirectLogin !! "redirect" = Some "null" /\
  faults emptyWorld = [] /\
  deserialize (platform emptyWorld) "null" = Js.JNull /\
  lookupLive (t0 + 60000) (db (snd (Github.handler "nonce" t0 nullRedirectLogin emptyWorld)))
    (stateKey "nonce")
  = Some (mkEntry (RStr "null") (Some (t0 + 600 * 1000))) /\
  Auth.validateState (t0 + 60000) "nonce"
    (snd (Github.handler "nonce" t0 nullRedirectLogin emptyWorld))
  = (Ok Js.JNull, snd (Github.handler "nonce" t0 nullRedirectLogin emptyWorld)) /\
  Callback.handler friendlyGitHub "5f2a" (t0 + 60000) (callbackRequest "c0de" "nonce")
    (snd (Github.handler "nonce" t0 nullRedirectLogin emptyWorld))
  = (Ok (Callback.createErrorResponse "invalid_state" "Invalid or expired state parameter"),
     snd (Github.handler "nonce" t0 nullRedirectLogin emptyWorld)).
Proof.
  split; [reflexivity |]. split; [reflexivity |]. split; [reflexivity |].
  refine (C8_null_redirect_is_not_consumed friendlyGitHub "nonce" "5f2a" "c0de" t0 (t0 + 60000)
            nullRedirectLogin (callbackRequest "c0de" "nonce") emptyWorld
            eq_refl eq_refl eq_refl eq_refl _ eq_refl eq_refl eq_refl _ eq_refl _).
  - unfold t0. lia.
  - discriminate.
  - discriminate.
Defined.

Lemma C9_status_never_consumes_witness :
  method anonymousGet = "GET" /\
  faults afterOneRequest = [] /\
  Forall (fun r => reportedRemaining r
                   = reportedRemaining (fst (Limits.handler (t0 + 1000) anonymousGet afterOneRequest)))
    (fst (serve Limits.handler anonymousGet [t0 + 2000; t0 + 3000; t0 + 4000] afterOneRequest)).
Proof.
  split; [reflexivity |]. split; [vm_compute; reflexivity |].
  refine (proj2 (proj2 (C9_status_never_consumes anonymousGet [t0 + 2000; t0 + 3000; t0 + 4000]
                          afterOneRequest)) (t0 / msPerDay) (t0 + 1000) eq_refl _ _ _).
  - vm_compute. reflexivity.
  - repeat constructor.
  - intros e t He Ht. vm_compute in He. injection He as <-. cbn in Ht. injection Ht as <-.
    vm_compute. discriminate.
Defined.

(** ** Requests the generate handler turns away *)

Lemma append_assoc (a b c : string) : (a +:+ b) +:+ c = a +:+ (b +:+ c).
Proof.
  induction a as [| x a IH]; [reflexivity |].
  change (String x ((a +:+ b) +:+ c) = String x (a +:+ (b +:+ c))). now rewrite IH.
Qed.

(** X1: a request that is not a validated POST is answered 405 or 400
    with an error body, and the world is left as it was: no round trip to
    the store, no quota spent, no credential touched, no call to the
    backend.  The one request that is not answered at all is a POST whose
    JSON body is [null]: reading its [prompt] throws outside any [try]. *)
Theorem generate_rejects_unvalidated (env : Env) (backend : Backend) (now : Z)
    (request : Request) (w : World) :
  (body request <> BodyNull ->
   (forall prompt temperature maxTokens, ~ validPost request prompt temperature maxTokens) ->
   exists resp error code,
     Generate.handler env backend now request w = (Ok resp, w) /\
     (status resp = 405 \/ status resp = 400) /\
     payload resp = ErrorBody error code None) /\
  (method request = "POST" ->
   body request = BodyNull ->
   exists e, Generate.handler env backend now request w = (Throw e, w)).
Proof.
  split.
  - intros Hnull Hinvalid. unfold Generate.handler.
    destruct (String.eqb (method request) "POST") eqn:Hm; cbn [negb].
    + apply String.eqb_eq in Hm.
      destruct (body request) as [| | [| truthy | prompt] temperature maxTokens] eqn:Hb;
        try congruence; try (eexists _, _, _; cbn; eauto; fail).
      destruct (Js.truthy prompt) eqn:Ht; cbn [negb]; [| eexists _, _, _; cbn; eauto].
      destruct (Z.ltb_spec 32000 (Z.of_nat (String.length prompt))) as [Hlong | Hshort];
        [eexists _, _, _; cbn; eauto |].
      exfalso. apply (Hinvalid prompt temperature maxTokens).
      repeat split; try assumption. intros ->. discriminate Ht.
    + eexists _, _, _; cbn; eauto.
  - intros Hm Hb. unfold Generate.handler. rewrite Hm, Hb. cbn. eauto.
Qed.

Lemma generate_rejects_unvalidated_witness :
  body anonymousGet <> BodyNull /\
  exists resp error code,
    Generate.handler oneKeyEnv echoBackend t0 anonymousGet emptyWorld = (Ok resp, emptyWorld) /\
    (status resp = 405 \/ status resp = 400) /\
    payload resp = ErrorBody error code None.
Proof.
  split; [discriminate |].
  refine (proj1 (generate_rejects_unvalidated oneKeyEnv echoBackend t0 anonymousGet emptyWorld) _ _).
  - discriminate.
  - intros prompt temperature maxTokens [Hm _]. discriminate Hm.
Defined.

Lemma ceilDiv_1000 (n : Z) : Js.ceilDiv n 1000 = (n + 999) / 1000.
Proof. unfold Js.ceilDiv, Qceiling, Qfloor. cbn. Z.div_mod_to_equations. lia. Qed.

Lemma ratelimitOf_window (t : Tier) : Ratelimit.window (ratelimitOf t) = msPerDay.
Proof. now destruct t. Qed.

(** The credential loop reads and writes the key table and the outbox only. *)
Lemma Keeps_rotate {X : Type} (proj : World -> X) (env : Env) (backend : Backend) (now : Z)
    (request : GenerateRequest) :
  (forall ks w, proj (with_keyStates ks w) = proj w) ->
  (forall o w, proj (with_outbox o w) = proj w) ->
  forall remaining attempt lastError,
    Keeps proj (rotate env backend now request remaining attempt lastError).
Proof.
  intros Hk Ho. induction remaining as [| remaining IH]; intros attempt lastError w.
  - reflexivity.
  - cbn [rotate]. destruct (selectKey env (keyStates w)) as [[keyInfo |] ks1].
    + destruct (generateWithKey backend attempt keyInfo request) as [result | error].
      * cbn [snd]. now rewrite Hk, Ho, Hk.
      * destruct (isRateLimited _); [| destruct (isInvalidKey _)];
          try rewrite IH; cbn [snd]; now rewrite ?Hk, ?Ho, ?Hk.
    + cbn [snd]. apply Hk.
Qed.

(** X2: once the quota of the caller is used up, a validated request is
    answered 429 RATE_LIMIT_EXCEEDED; the [retryAfter] of the body, also in
    the [Retry-After] header, is the number of seconds to the next UTC
    midnight rounded up, between 1 and 86400; no credential is touched, the
    backend is not called and nothing is recorded. *)
Theorem quota_refusal (env : Env) (backend : Backend) (now : Z) (request : Request)
    (prompt : string) (temperature maxTokens : option Q) (w : World) :
  validPost request prompt temperature maxTokens ->
  faults w = [] ->
  Ratelimit.tokens (ratelimitOf (tier (getUserIdentifier request)))
  <= Ratelimit.used (ratelimitOf (tier (getUserIdentifier request)))
       (userId (getUserIdentifier request)) now (db w) ->
  exists resp w' retryAfter,
    Generate.handler env backend now request w = (Ok resp, w') /\
    status resp = 429 /\
    payload resp = ErrorBody "Rate limit exceeded" "RATE_LIMIT_EXCEEDED" (Some retryAfter) /\
    In ("Retry-After", pretty retryAfter) (responseHeaders resp) /\
    1 <= retryAfter <= 86400 /\
    1000 * (retryAfter - 1) < (now / msPerDay + 1) * msPerDay - now <= 1000 * retryAfter /\
    outbox w' = outbox w /\
    keyStates w' = keyStates w /\
    tracked w' = tracked w.
Proof.
  intros Hvalid Hf Hused. rewrite (handler_validPost _ _ _ _ _ _ _ Hvalid).
  unfold Generate.admission, Ratelimit.limit, bind. rewrite roundTrip_ok by done.
  cbn [Ratelimit.success Ratelimit.reset Ratelimit.limit_].
  destruct (Z.leb_spec
              (Ratelimit.used (ratelimitOf (tier (getUserIdentifier request)))
                 (userId (getUserIdentifier request)) now (db w) + 1)
              (Ratelimit.tokens (ratelimitOf (tier (getUserIdentifier request)))))
    as [Hle | Hgt]; [lia |].
  cbn [negb]. unfold ret. eexists _, _, _. split; [reflexivity |].
  unfold Ratelimit.resetOf. rewrite ratelimitOf_window, ceilDiv_1000.
  cbn [status payload responseHeaders Generate.jsonResponse outbox keyStates tracked with_db].
  repeat split; try reflexivity.
  - apply in_or_app. right. cbn. auto.
  - unfold msPerDay. Z.div_mod_to_equations. lia.
  - unfold msPerDay. Z.div_mod_to_equations. lia.
  - unfold msPerDay. Z.div_mod_to_equations. lia.
  - unfold msPerDay. Z.div_mod_to_equations. lia.
Qed.

Lemma quota_refusal_witness :
  validPost anonymousPost "Say hi" None None /\
  faults quotaSpentWorld = [] /\
  exists resp w' retryAfter,
    Generate.handler oneKeyEnv echoBackend (t0 + 6000) anonymousPost quotaSpentWorld
    = (Ok resp, w') /\
    status resp = 429 /\
    payload resp = ErrorBody "Rate limit exceeded" "RATE_LIMIT_EXCEEDED" (Some retryAfter) /\
    In ("Retry-After", pretty retryAfter) (responseHeaders resp) /\
    1 <= retryAfter <= 86400 /\
    1000 * (retryAfter - 1) < ((t0 + 6000) / msPerDay + 1) * msPerDay - (t0 + 6000)
      <= 1000 * retryAfter /\
    outbox w' = outbox quotaSpentWorld /\
    keyStates w' = keyStates quotaSpentWorld /\
    tracked w' = tracked quotaSpentWorld.
Proof.
  assert (Hvalid : validPost anonymousPost "Say hi" None None).
  { repeat split; [discriminate | vm_compute; discriminate]. }
  split; [exact Hvalid |]. split; [vm_compute; reflexivity |].
  refine (quota_refusal oneKeyEnv echoBackend (t0 + 6000) anonymousPost "Say hi" None None
            quotaSpentWorld Hvalid _ _).
  - vm_compute. reflexivity.
  - vm_compute. discriminate.
Defined.

Lemma lookupLive_insert_ne (now : Z) (d : gmap string Entry) (k k' : string) (e : Entry) :
  k' <> k -> lookupLive now (<[k' := e]> d) k = lookupLive now d k.
Proof. intros H. unfold lookupLive. now rewrite lookup_insert_ne. Qed.

Lemma lookupLive_delete_ne (now : Z) (d : gmap string Entry) (k k' : string) :
  k' <> k -> lookupLive now (delete k' d) k = lookupLive now d k.
Proof. intros H. unfold lookupLive. now rewrite lookup_delete_ne. Qed.

(** Two keys of the store that differ within their first [n] characters. *)
Ltac key_neq n :=
  let H := fresh in
  intros H; apply (f_equal (Js.take n)) in H; lazy in H; discriminate H.





(** X4: a generation that fails is answered 500 or 503 by the handler's
    [catch]; it is not recorded by [trackRequest], and neither the store nor
    the schedule of its round trips is touched, so nothing is charged to the
    day's ledger. *)
Theorem failed_generation_leaves_no_record (env : Env) (backend : Backend) (now : Z)
    (prompt : string) (temperature maxTokens : option Q) (who : Identity)
    (rl : Ratelimit.Response) (w w1 : World) (e : Error) :
  generateWithRotation env backend now (mkGenerateRequest prompt None temperature maxTokens) w
  = (Throw e, w1) ->
  Generate.generate env backend now prompt temperature maxTokens who rl w
  = (Ok (Generate.generationError e), w1) /\
  (status (Generate.generationError e) = 500 \/ status (Generate.generationError e) = 503) /\
  sameLedgerAndLog w w1.
Proof.
  intros Hrun. split; [| split].
  - unfold Generate.generate, tryCatch, bind. now rewrite Hrun.
  - unfold Generate.generationError.
    destruct (_ || _); [now right |]. destruct (Js.includes _ _); [now right | now left].
  - unfold generateWithRotation in Hrun.
    pose proof (Keeps_rotate db env backend now
                  (mkGenerateRequest prompt None temperature maxTokens)
                  (fun _ _ => eq_refl) (fun _ _ => eq_refl) maxRetries 0%nat None w) as Hd.
    pose proof (Keeps_rotate faults env backend now
                  (mkGenerateRequest prompt None temperature maxTokens)
                  (fun _ _ => eq_refl) (fun _ _ => eq_refl) maxRetries 0%nat None w) as Hf.
    pose proof (Keeps_rotate tracked env backend now
                  (mkGenerateRequest prompt None temperature maxTokens)
                  (fun _ _ => eq_refl) (fun _ _ => eq_refl) maxRetries 0%nat None w) as Ht.
    pose proof (Keeps_rotate netFaults env backend now
                  (mkGenerateRequest prompt None temperature maxTokens)
                  (fun _ _ => eq_refl) (fun _ _ => eq_refl) maxRetries 0%nat None w) as Hn.
    rewrite Hrun in Hd, Hf, Ht, Hn. now repeat split.
Qed.

Lemma failed_generation_leaves_no_record_witness :
  generateWithRotation oneKeyEnv exhaustedBackend t0
    (mkGenerateRequest "Say hi" None None None) emptyWorld
  = (Throw (mkError "429 Too Many Requests"),
     snd (generateWithRotation oneKeyEnv exhaustedBackend t0
            (mkGenerateRequest "Say hi" None None None) emptyWorld)) /\
  Generate.generate oneKeyEnv exhaustedBackend t0 "Say hi" None None
    (mkIdentity "ip:4pl4mu" anonymous) (Ratelimit.mkResponse true 5 4 1700006400000) emptyWorld
  = (Ok (Generate.generationError (mkError "429 Too Many Requests")),
     snd (generateWithRotation oneKeyEnv exhaustedBackend t0
            (mkGenerateRequest "Say hi" None None None) emptyWorld)) /\
  (status (Generate.generationError (mkError "429 Too Many Requests")) = 500 \/
   status (Generate.generationError (mkError "429 Too Many Requests")) = 503) /\
  sameLedgerAndLog emptyWorld
    (snd (generateWithRotation oneKeyEnv exhaustedBackend t0
            (mkGenerateRequest "Say hi" None None None) emptyWorld)).
Proof.
  assert (Hrun : generateWithRotation oneKeyEnv exhaustedBackend t0
                   (mkGenerateRequest "Say hi" None None None) emptyWorld
                 = (Throw (mkError "429 Too Many Requests"),
                    snd (generateWithRotation oneKeyEnv exhaustedBackend t0
                           (mkGenerateRequest "Say hi" None None None) emptyWorld))).
  { vm_compute. reflexivity. }
  split; [exact Hrun |].
  exact (failed_generation_leaves_no_record oneKeyEnv exhaustedBackend t0 "Say hi" None None
           (mkIdentity "ip:4pl4mu" anonymous) (Ratelimit.mkResponse true 5 4 1700006400000)
           emptyWorld _ _ Hrun).
Defined.

(** ** A deployment without credentials *)

Lemma getConfiguredKeys_none (env : Env) (ks : gmap string GeminiKey) :
  configured env = false -> getConfiguredKeys env ks = ([], ks).
Proof.
  unfold configured. intros H.
  apply orb_false_iff in H as [H H2]. apply orb_false_iff in H as [H0 H1].
  unfold getConfiguredKeys, pushConfigured. now rewrite H0, H1, H2.
Qed.

Lemma with_keyStates_same (w : World) : with_keyStates (keyStates w) w = w.
Proof. now destruct w. Qed.

(** X5: with no credential configured the rotation gives up at once
    with "No Gemini API keys configured", the backend is never called and
    the world stays as it was; the handler turns this into 503 CONFIG_ERROR;
    the health list is empty.  Conversely [hasConfiguredKeys], which looks at
    the primary only, implies that a key is always selected. *)
Theorem no_credentials (env : Env) (backend : Backend) (now : Z) (prompt : string)
    (temperature maxTokens : option Q) (who : Identity) (rl : Ratelimit.Response) (w : World) :
  (configured env = false ->
   generateWithRotation env backend now (mkGenerateRequest prompt None temperature maxTokens) w
   = (Throw (mkError "No Gemini API keys configured"), w) /\
   Generate.generate env backend now prompt temperature maxTokens who rl w
   = (Ok (Generate.jsonResponse
            (ErrorBody "Service configuration error" "CONFIG_ERROR" None) 503 []), w) /\
   getKeyHealth env (keyStates w) = ([], keyStates w) /\
   hasConfiguredKeys env = false) /\
  (hasConfiguredKeys env = true ->
   exists k ks', selectKey env (keyStates w) = (Some k, ks')).
Proof.
  split.
  - intros Hnone.
    assert (Hrun : generateWithRotation env backend now
                     (mkGenerateRequest prompt None temperature maxTokens) w
                   = (Throw (mkError "No Gemini API keys configured"), w)).
    { unfold generateWithRotation, maxRetries. cbn [rotate].
      rewrite selectKey_unfold, (getConfiguredKeys_none _ _ Hnone). cbn.
      now rewrite with_keyStates_same. }
    split; [exact Hrun |]. split; [| split].
    + unfold Generate.generate, tryCatch, bind. now rewrite Hrun.
    + unfold getKeyHealth. now rewrite (getConfiguredKeys_none _ _ Hnone).
    + unfold configured in Hnone. unfold hasConfiguredKeys.
      apply orb_false_iff in Hnone as [Hnone _]. now apply orb_false_iff in Hnone as [Hnone _].
  - intros Hprimary. apply selectKey_configured. unfold configured.
    unfold hasConfiguredKeys in Hprimary. now rewrite Hprimary.
Qed.

Lemma no_credentials_witness :
  configured noKeyEnv = false /\
  generateWithRotation noKeyEnv echoBackend t0 (mkGenerateRequest "Say hi" None None None)
    emptyWorld
  = (Throw (mkError "No Gemini API keys configured"), emptyWorld) /\
  Generate.generate noKeyEnv echoBackend t0 "Say hi" None None
    (mkIdentity "ip:4pl4mu" anonymous) (Ratelimit.mkResponse true 5 4 1700006400000) emptyWorld
  = (Ok (Generate.jsonResponse
           (ErrorBody "Service configuration error" "CONFIG_ERROR" None) 503 []), emptyWorld) /\
  getKeyHealth noKeyEnv (keyStates emptyWorld) = ([], keyStates emptyWorld) /\
  hasConfiguredKeys noKeyEnv = false.
Proof.
  split; [reflexivity |].
  refine (proj1 (no_credentials noKeyEnv echoBackend t0 "Say hi" None None
                   (mkIdentity "ip:4pl4mu" anonymous)
                   (Ratelimit.mkResponse true 5 4 1700006400000) emptyWorld) _).
  reflexivity.
Defined.

(** ** The hash of an identity *)

Lemma ToInt32_congr (a b : Z) : a mod 2 ^ 32 = b mod 2 ^ 32 -> Js.ToInt32 a = Js.ToInt32 b.
Proof. unfold Js.ToInt32. now intros ->. Qed.

Lemma ToInt32_mod (a : Z) : Js.ToInt32 a mod 2 ^ 32 = a mod 2 ^ 32.
Proof.
  unfold Js.ToInt32. change (2 ^ 32) with 4294967296. change (2 ^ 31) with 2147483648.
  destruct (Z.leb_spec 2147483648 (a mod 4294967296)); Z.div_mod_to_equations; lia.
Qed.

Lemma ToInt32_range (a : Z) : - 2 ^ 31 <= Js.ToInt32 a < 2 ^ 31.
Proof.
  unfold Js.ToInt32. change (2 ^ 32) with 4294967296. change (2 ^ 31) with 2147483648.
  destruct (Z.leb_spec 2147483648 (a mod 4294967296)); Z.div_mod_to_equations; lia.
Qed.

(** One turn of the loop multiplies by 31 and adds the code unit, in 32 bits. *)
Lemma hashLoop_step (c : ascii) (str : string) (hash : Z) :
  hashLoop (String c str) hash = hashLoop str (Js.ToInt32 (31 * hash + charCode c)).
Proof.
  cbn [hashLoop]. f_equal. apply ToInt32_congr.
  rewrite Z.shiftl_mul_pow2 by lia.
  pose proof (ToInt32_mod (hash * 2 ^ 5)) as H. fold (charCode c).
  change (2 ^ 5) with 32 in *. change (2 ^ 32) with 4294967296 in *.
  Z.div_mod_to_equations. lia.
Qed.

Lemma hashLoop_app (p str : string) (hash : Z) :
  hashLoop (p +:+ str) hash = hashLoop str (hashLoop p hash).
Proof.
  revert hash. induction p as [| c p IH]; intros hash; [reflexivity |].
  change (String c p +:+ str) with (String c (p +:+ str)).
  now rewrite !hashLoop_step, IH.
Qed.

Lemma hashLoop_two (a b : ascii) (str : string) (hash : Z) :
  hashLoop (String a (String b str)) hash
  = hashLoop str (Js.ToInt32 (961 * hash + (31 * charCode a + charCode b))).
Proof.
  rewrite !hashLoop_step. f_equal. apply ToInt32_congr.
  pose proof (ToInt32_mod (31 * hash + charCode a)) as H.
  change (2 ^ 32) with 4294967296 in *. Z.div_mod_to_equations. lia.
Qed.

(** X6: [hashString] is not injective, and collisions are easy to make:
    two texts that differ in two neighbouring characters [a b] and [a' b']
    with [31 a + b = 31 a' + b'] (such as "Aa" and "BB") have the same hash
    whatever comes before and after.  Two bearer tokens of that shape resolve
    to the same identity, and so share one quota. *)
Theorem hashString_collides (p str : string) (a b a' b' : ascii) :
  31 * charCode a + charCode b = 31 * charCode a' + charCode b' ->
  hashString (p +:+ String a (String b str)) = hashString (p +:+ String a' (String b' str)) /\
  getUserIdentifier (withBearer (p +:+ String a (String b str)))
  = getUserIdentifier (withBearer (p +:+ String a' (String b' str))).
Proof.
  intros Hsum.
  assert (Hhash : hashString (p +:+ String a (String b str))
                  = hashString (p +:+ String a' (String b' str))).
  { unfold hashString. now rewrite !hashLoop_app, !hashLoop_two, Hsum. }
  split; [exact Hhash |].
  rewrite (getUserIdentifier_bearer (withBearer (p +:+ String a (String b str)))
             ("Bearer " +:+ (p +:+ String a (String b str)))) by reflexivity.
  rewrite (getUserIdentifier_bearer (withBearer (p +:+ String a' (String b' str)))
             ("Bearer " +:+ (p +:+ String a' (String b' str)))) by reflexivity.
  change (Js.slice 7 ("Bearer " +:+ (p +:+ String a (String b str))))
    with (p +:+ String a (String b str)).
  change (Js.slice 7 ("Bearer " +:+ (p +:+ String a' (String b' str))))
    with (p +:+ String a' (String b' str)).
  now rewrite Hhash.
Qed.

Lemma hashString_collides_witness :
  31 * charCode "A" + charCode "a" = 31 * charCode "B" + charCode "B" /\
  hashString ("gho_" +:+ String "A" (String "a" "x9"))
  = hashString ("gho_" +:+ String "B" (String "B" "x9")) /\
  getUserIdentifier (withBearer ("gho_" +:+ String "A" (String "a" "x9")))
  = getUserIdentifier (withBearer ("gho_" +:+ String "B" (String "B" "x9"))).
Proof.
  split; [reflexivity |].
  exact (hashString_collides "gho_" "x9" "A" "a" "B" "B" eq_refl).
Defined.

(** X7: the identity of a caller tells its tier: an anonymous identity
    starts with "ip:" and an authenticated one with "github:", whatever the
    headers hold; and the quota counters of the two tiers never share a key
    of the store. *)
Theorem identity_namespaces (r : Request) :
  (tier (getUserIdentifier r) = anonymous <->
   Js.startsWith "ip:" (userId (getUserIdentifier r)) = true) /\
  (tier (getUserIdentifier r) = authenticated <->
   Js.startsWith "github:" (userId (getUserIdentifier r)) = true) /\
  forall r' now now',
    tier (getUserIdentifier r) <> tier (getUserIdentifier r') ->
    Ratelimit.key (ratelimitOf (tier (getUserIdentifier r))) (userId (getUserIdentifier r)) now
    <> Ratelimit.key (ratelimitOf (tier (getUserIdentifier r')))
         (userId (getUserIdentifier r')) now'.
Proof.
  split; [| split].
  - unfold getUserIdentifier.
    destruct (Js.optStartsWith _ _); [| destruct (Js.optTruthy _)]; cbn [tier userId];
      (split; [discriminate || reflexivity | discriminate || reflexivity]).
  - unfold getUserIdentifier.
    destruct (Js.optStartsWith _ _); [| destruct (Js.optTruthy _)]; cbn [tier userId];
      (split; [discriminate || reflexivity | discriminate || reflexivity]).
  - intros r' now now' Hdiff.
    destruct (tier (getUserIdentifier r)), (tier (getUserIdentifier r'));
      try congruence; key_neq 19%nat.
Qed.

(** ** The two readings of the client address *)

(** X8: [getClientIP] of the rate-limit library and the address the
    handlers hash agree whenever the first entry of X-Forwarded-For is not
    blank and X-Vercel-Forwarded-For is not needed.  They part on a blank
    first entry: [getClientIP] returns the empty text, the handlers fall back
    to X-Real-IP or "unknown". *)
Theorem client_address_agreement (request : Request) :
  ((forall forwardedFor,
       headers request !! "x-forwarded-for" = Some forwardedFor ->
       forwardedFor <> "" ->
       Js.trim (Js.splitHead "," forwardedFor) <> "") ->
   (Js.optTruthy (headers request !! "x-forwarded-for") = false ->
    Js.optTruthy (headers request !! "x-real-ip") = false ->
    Js.optTruthy (headers request !! "x-vercel-forwarded-for") = false) ->
   getClientIP (headers request) = clientIp request) /\
  (forall forwardedFor,
      headers request !! "x-forwarded-for" = Some forwardedFor ->
      forwardedFor <> "" ->
      Js.trim (Js.splitHead "," forwardedFor) = "" ->
      getClientIP (headers request) = "" /\
      clientIp request = Js.orElse (headers request !! "x-real-ip") "unknown" /\
      clientIp request <> "").
Proof.
  unfold getClientIP, clientIp, headers_get.
  change (Js.toLowerCase "X-Forwarded-For") with "x-forwarded-for".
  change (Js.toLowerCase "X-Real-IP") with "x-real-ip".
  split.
  - intros Hfirst Hvercel.
    destruct (headers request !! "x-forwarded-for") as [forwardedFor |] eqn:Hf.
    + cbn [fmap option_fmap option_map Js.optTruthy Js.orElse default from_option id compose].
      destruct forwardedFor as [| c rest] eqn:Hs.
      * cbn [Js.truthy Js.splitHead Js.trim Js.trimStart Js.trimEnd].
        destruct (Js.optTruthy (headers request !! "x-real-ip")) eqn:Hr.
        -- destruct (headers request !! "x-real-ip") as [[| c rest] |]; try discriminate.
           reflexivity.
        -- rewrite (Hvercel eq_refl eq_refl).
           destruct (headers request !! "x-real-ip") as [[| c rest] |]; try discriminate;
             reflexivity.
      * cbn [Js.truthy].
        specialize (Hfirst (String c rest) eq_refl ltac:(discriminate)).
        destruct (Js.trim (Js.splitHead "," (String c rest))); [congruence | reflexivity].
    + cbn [fmap option_fmap option_map Js.optTruthy Js.orElse default from_option id].
      destruct (Js.optTruthy (headers request !! "x-real-ip")) eqn:Hr.
      * destruct (headers request !! "x-real-ip") as [[| c rest] |]; try discriminate.
        reflexivity.
      * rewrite (Hvercel eq_refl eq_refl).
        destruct (headers request !! "x-real-ip") as [[| c rest] |]; try discriminate;
          reflexivity.
  - intros forwardedFor Hf Hne Hblank. rewrite Hf.
    cbn [fmap option_fmap option_map Js.optTruthy Js.orElse default from_option id compose].
    rewrite Hblank. destruct forwardedFor as [| c rest]; [congruence |].
    cbn [Js.truthy]. repeat split.
    destruct (headers request !! "x-real-ip") as [[| c' rest'] |]; discriminate.
Qed.

Lemma client_address_agreement_witness :
  getClientIP (headers realIpRequest) = clientIp realIpRequest.
Proof.
  refine (proj1 (client_address_agreement realIpRequest) _ _).
  - intros forwardedFor Hf. vm_compute in Hf. discriminate Hf.
  - intros _ Hr. vm_compute in Hr. discriminate Hr.
Defined.

(** ** What a generation does to the credential table *)

Lemma successes_alter (f : GeminiKey -> GeminiKey) (n m : string) (ks : gmap string GeminiKey) :
  (forall k, requestCount (f k) = requestCount k) ->
  successes (alter f n ks) m = successes ks m.
Proof.
  intros Hf. unfold successes. rewrite lookup_alter. case_decide as Hnm; [| done].
  subst m. destruct (ks !! n) as [k |]; cbn; [apply Hf | done].
Qed.

Lemma pushConfigured_successes (n : string) (v : option string)
    (acc : list GeminiKey * gmap string GeminiKey) (m : string) :
  successes (pushConfigured n v acc).2 m = successes acc.2 m.
Proof.
  destruct acc as [keys ks]. unfold pushConfigured, getOrCreateKeyState.
  destruct (Js.optTruthy v); [| done].
  destruct (ks !! n) as [state |] eqn:Hn; cbn [fst snd]; [done |].
  unfold successes. rewrite lookup_insert. case_decide as Hnm; [| done].
  subst m. now rewrite Hn.
Qed.

Lemma getConfiguredKeys_successes (env : Env) (ks : gmap string GeminiKey) (m : string) :
  successes (getConfiguredKeys env ks).2 m = successes ks m.
Proof. unfold getConfiguredKeys. now rewrite !pushConfigured_successes. Qed.

Lemma selectKey_successes (env : Env) (ks : gmap string GeminiKey) (m : string) :
  successes (selectKey env ks).2 m = successes ks m.
Proof.
  rewrite selectKey_unfold.
  destruct (length _ =? 0)%nat; [apply getConfiguredKeys_successes |].
  destruct (length _ =? 0)%nat.
  - destruct (sort byLastUsed _); cbn [snd]; [apply getConfiguredKeys_successes |].
    rewrite successes_alter by done. apply getConfiguredKeys_successes.
  - destruct (sort byLastUsed _); apply getConfiguredKeys_successes.
Qed.

Lemma generateWithKey_keyUsed (backend : Backend) (attempt : nat) (keyInfo : GeminiKey)
    (request : GenerateRequest) (result : GenerateResult) :
  generateWithKey backend attempt keyInfo request = Ok result ->
  keyUsed result = name keyInfo /\ model result = "gemini-1.5-flash".
Proof.
  unfold generateWithKey. destruct (backend attempt keyInfo request); [| done].
  now intros [= <-].
Qed.

(** What the loop leaves in the table, whichever way it ends. *)
Lemma rotate_table (env : Env) (backend : Backend) (now : Z) (request : GenerateRequest) :
  forall remaining attempt lastError w,
    wellKeyed (keyStates w) ->
    match rotate env backend now request remaining attempt lastError w with
    | (Ok result, w') =>
        wellKeyed (keyStates w') /\
        keyStates w' !! keyUsed result
        = Some (mkGeminiKey (default "" (key <$> keyStates w' !! keyUsed result))
                  (keyUsed result) true None (Some now)
                  (successes (keyStates w) (keyUsed result) + 1)) /\
        (forall n, n <> keyUsed result ->
                   successes (keyStates w') n = successes (keyStates w) n) /\
        head (outbox w') = Some (mkFetch "generateContent" (keyUsed result)) /\
        model result = "gemini-1.5-flash"
    | (Throw e, w') =>
        wellKeyed (keyStates w') /\
        forall n, successes (keyStates w') n = successes (keyStates w) n
    end.
Proof.
  induction remaining as [| remaining IH]; intros attempt lastError w Hwk.
  - cbn [rotate]. split; [exact Hwk | done].
  - cbn [rotate].
    pose proof (selectKey_successes env (keyStates w)) as Hsucc.
    destruct (selectKey env (keyStates w)) as [[keyInfo |] ks1] eqn:Hsel; cbn [snd] in Hsucc.
    + destruct (selectKey_filed env _ _ _ Hwk Hsel) as (Hwk1 & Hin & Hhealthy).
      assert (Hmarked : forall reason,
                 wellKeyed (markKeyUnhealthy (name keyInfo) reason ks1) /\
                 forall n, successes (markKeyUnhealthy (name keyInfo) reason ks1) n
                           = successes (keyStates w) n).
      { intros reason. split; [by apply wellKeyed_alter |].
        intros n. unfold markKeyUnhealthy. rewrite successes_alter by done. apply Hsucc. }
      destruct (generateWithKey backend attempt keyInfo request) as [result | error] eqn:Hgen.
      * apply generateWithKey_keyUsed in Hgen as [Hused Hmodel]. rewrite Hused.
        cbn [keyStates outbox with_keyStates with_outbox].
        split; [by apply wellKeyed_alter |]. split; [| split; [| split]].
        -- rewrite lookup_alter, decide_True, Hin by done. cbn.
           unfold markKeyUsed. rewrite <- Hsucc. unfold successes. now rewrite Hin.
        -- intros n Hn. unfold successes. rewrite lookup_alter, decide_False by done.
           apply Hsucc.
        -- reflexivity.
        -- exact Hmodel.
      * destruct (isRateLimited _).
        { specialize (IH (S attempt) (Some error)
                         (with_keyStates (markKeyUnhealthy (name keyInfo) "Rate limited" ks1)
                            (with_outbox (backendCall keyInfo :: outbox w)
                               (with_keyStates ks1 w)))
                         (proj1 (Hmarked _))).
          destruct (rotate _ _ _ _ _ _ _ _) as [[result | e] w'];
            cbn [keyStates with_keyStates with_outbox] in IH.
          - destruct IH as (Hwk' & Hk & Hother & Hout & Hmodel).
            rewrite (proj2 (Hmarked _)) in Hk. repeat split; try assumption.
            intros n Hn. rewrite (Hother n Hn). apply Hmarked.
          - destruct IH as (Hwk' & Hall). split; [exact Hwk' |].
            intros n. rewrite Hall. apply Hmarked. }
        destruct (isInvalidKey _).
        { specialize (IH (S attempt) (Some error)
                         (with_keyStates (markKeyUnhealthy (name keyInfo) "Invalid API key" ks1)
                            (with_outbox (backendCall keyInfo :: outbox w)
                               (with_keyStates ks1 w)))
                         (proj1 (Hmarked _))).
          destruct (rotate _ _ _ _ _ _ _ _) as [[result | e] w'];
            cbn [keyStates with_keyStates with_outbox] in IH.
          - destruct IH as (Hwk' & Hk & Hother & Hout & Hmodel).
            rewrite (proj2 (Hmarked _)) in Hk. repeat split; try assumption.
            intros n Hn. rewrite (Hother n Hn). apply Hmarked.
          - destruct IH as (Hwk' & Hall). split; [exact Hwk' |].
            intros n. rewrite Hall. apply Hmarked. }
        cbn [keyStates with_keyStates with_outbox]. split; [exact Hwk1 | exact Hsucc].
    + cbn [keyStates with_keyStates]. split; [| exact Hsucc].
      pose proof (getConfiguredKeys_filed env (keyStates w) Hwk) as [Hwk1 _].
      rewrite selectKey_unfold in Hsel.
      destruct (length _ =? 0)%nat; [now injection Hsel as <- |].
      destruct (length _ =? 0)%nat; destruct (sort byLastUsed _); try discriminate;
        now injection Hsel as <-.
Qed.

(** X9: a generation that succeeds leaves the key it used healthy, with
    no error on file, last used now, and with one success more on its
    counter; the counters of all other keys stand as before, so the failed
    attempts of the same call are not counted; the call to the backend that
    succeeded is the last one made.  A generation that fails changes no
    counter.  Either way every record of the table stays filed under its
    own name. *)
Theorem rotation_counts_successes (env : Env) (backend : Backend) (now : Z)
    (request : GenerateRequest) (w : World) :
  wellKeyed (keyStates w) ->
  (forall result w',
      generateWithRotation env backend now request w = (Ok result, w') ->
      wellKeyed (keyStates w') /\
      (exists k,
          keyStates w' !! keyUsed result = Some k /\
          name k = keyUsed result /\
          isHealthy k = true /\
          lastError k = None /\
          lastUsed k = Some now /\
          requestCount k = successes (keyStates w) (keyUsed result) + 1) /\
      (forall n, n <> keyUsed result ->
                 successes (keyStates w') n = successes (keyStates w) n) /\
      head (outbox w') = Some (mkFetch "generateContent" (keyUsed result))) /\
  (forall e w',
      generateWithRotation env backend now request w = (Throw e, w') ->
      wellKeyed (keyStates w') /\
      forall n, successes (keyStates w') n = successes (keyStates w) n).
Proof.
  intros Hwk. pose proof (rotate_table env backend now request maxRetries 0%nat None w Hwk) as H.
  unfold generateWithRotation. split.
  - intros result w' Hrun. rewrite Hrun in H. destruct H as (Hwk' & Hk & Hother & Hout & _).
    split; [exact Hwk' |]. split; [| split; assumption].
    eexists. split; [exact Hk |]. now repeat split.
  - intros e w' Hrun. now rewrite Hrun in H.
Qed.

Lemma rotation_counts_successes_witness :
  wellKeyed (keyStates poolWorld) /\
  forall result w',
    generateWithRotation threeKeyEnv echoBackend t0
      (mkGenerateRequest "Say hi" None None None) poolWorld = (Ok result, w') ->
    wellKeyed (keyStates w') /\
    (exists k,
        keyStates w' !! keyUsed result = Some k /\
        name k = keyUsed result /\
        isHealthy k = true /\
        lastError k = None /\
        lastUsed k = Some t0 /\
        requestCount k = successes (keyStates poolWorld) (keyUsed result) + 1) /\
    (forall n, n <> keyUsed result ->
               successes (keyStates w') n = successes (keyStates poolWorld) n) /\
    head (outbox w') = Some (mkFetch "generateContent" (keyUsed result)).
Proof.
  assert (Hwk : wellKeyed (keyStates poolWorld)).
  { cbn [keyStates poolWorld]. unfold poolTable. intros n k.
    rewrite !lookup_insert. repeat case_decide; subst; try done; now intros [= <-]. }
  split; [exact Hwk |].
  exact (proj1 (rotation_counts_successes threeKeyEnv echoBackend t0
                  (mkGenerateRequest "Say hi" None None None) poolWorld Hwk)).
Defined.

(** X10: the key that served a request is not the next one selected as
    long as another configured key is healthy and was last used before, or
    never: the next selection is a key used no later than that one, and it
    is not the key that has just served. *)
Theorem served_key_goes_last (env : Env) (backend : Backend) (now : Z)
    (request : GenerateRequest) (w w' : World) (result : GenerateResult) (other : GeminiKey) :
  wellKeyed (keyStates w) ->
  generateWithRotation env backend now request w = (Ok result, w') ->
  other ∈ (getConfiguredKeys env (keyStates w')).1 ->
  isHealthy other = true ->
  usedBefore now other ->
  exists next ks2,
    selectKey env (keyStates w') = (Some next, ks2) /\
    isHealthy next = true /\
    usedNoLater next other /\
    name next <> keyUsed result.
Proof.
  intros Hwk Hrun Hother Hhealthy Hbefore.
  pose proof (rotate_table env backend now request maxRetries 0%nat None w Hwk) as H.
  unfold generateWithRotation in Hrun. rewrite Hrun in H.
  destruct H as (Hwk' & Hk & _).
  destruct (selectKey_picks_healthy env (keyStates w')) as (next & Hsel & Hin & Hnext & Hleast).
  { exists other. now split. }
  exists next, (getConfiguredKeys env (keyStates w')).2.
  split; [exact Hsel |]. split; [exact Hnext |].
  pose proof (Hleast other Hother Hhealthy) as Hle. split; [exact Hle |].
  intros Hname.
  destruct (getConfiguredKeys_filed env (keyStates w') Hwk') as [_ Hfiled].
  pose proof (Hfiled next Hin) as Hfile. rewrite Hname in Hfile.
  rewrite (getConfiguredKeys_keeps env _ _ _ Hk) in Hfile.
  injection Hfile as <-. unfold usedNoLater, usedBefore in *. cbn [lastUsed] in Hle.
  destruct (lastUsed other); [lia | done].
Qed.

Lemma served_key_goes_last_witness :
  exists next ks2,
    selectKey threeKeyEnv
      (keyStates (snd (generateWithRotation threeKeyEnv echoBackend t0
                         (mkGenerateRequest "Say hi" None None None) poolWorld)))
    = (Some next, ks2) /\
    isHealthy next = true /\
    usedNoLater next primaryKey /\
    name next
    <> keyUsed (mkGenerateResult "hello" "gemini-1.5-flash" (Usage.mk 0 0 0) "fallback2").
Proof.
  refine (served_key_goes_last threeKeyEnv echoBackend t0
            (mkGenerateRequest "Say hi" None None None) poolWorld _ _ primaryKey _ _ _ _ _).
  - cbn [keyStates poolWorld]. unfold poolTable. intros n k.
    rewrite !lookup_insert. repeat case_decide; subst; try done; now intros [= <-].
  - vm_compute. reflexivity.
  - assert (Hkeys : (getConfiguredKeys threeKeyEnv
                       (keyStates (snd (generateWithRotation threeKeyEnv echoBackend t0
                                          (mkGenerateRequest "Say hi" None None None)
                                          poolWorld)))).1
                    = [primaryKey; fallback1Key;
                       mkGeminiKey "AIza-fallback2" "fallback2" true None (Some t0) 4]).
    { vm_compute. reflexivity. }
    rewrite Hkeys. apply list_elem_of_here.
  - reflexivity.
  - vm_compute. reflexivity.
Defined.

(** ** The ledger after a request *)


Lemma lookupLive_insert_eq (now : Z) (d : gmap string Entry) (k : string) (e : Entry) :
  lookupLive now (<[k := e]> d) k = if live now e then Some e else None.
Proof. unfold lookupLive. now rewrite lookup_insert_eq. Qed.




Lemma runAll_cons (now : Z) (c : Redis.Command) (cs : list Redis.Command)
    (d : gmap string Entry) :
  (Redis.runAll now (c :: cs) d).1 = (Redis.runAll now cs (Redis.run now c d).1).1.
Proof.
  cbn [Redis.runAll]. destruct (Redis.run now c d) as [d1 ok1]. cbn [fst].
  now destruct (Redis.runAll now cs d1).
Qed.








Lemma Keeps_key_setEx (now : Z) (k k' : string) (v : RedisValue) (seconds : Z) :
  k' <> k -> Keeps (fun w => db w !! k) (Redis.setEx now k' v seconds).
Proof.
  intros Hne w. unfold Redis.setEx, bind, roundTrip, modifyDb.
  destruct (faults w) as [| [] rest]; cbn; try reflexivity; now rewrite lookup_insert_ne.
Qed.

Lemma Keeps_key_del (k k' : string) :
  k' <> k -> Keeps (fun w => db w !! k) (Redis.del k').
Proof.
  intros Hne w. unfold Redis.del, bind, roundTrip, modifyDb.
  destruct (faults w) as [| [] rest]; cbn; try reflexivity; now rewrite lookup_delete_ne.
Qed.

(** The reads of the metrics change nothing but the schedule of the store. *)
Lemma getTodayMetrics_reads {X : Type} (proj : World -> X) (env : Env) (now : Z) :
  (forall f w, proj (with_faults f w) = proj w) -> Keeps proj (getTodayMetrics env now).
Proof.
  intros Hf. apply Keeps_bind; [apply Keeps_getRedis | intros _].
  apply Keeps_tryCatch; [| intros _; apply Keeps_ret].
  apply Keeps_bind; [by apply Keeps_getAll |].
  intros vs. do 7 (destruct vs as [| ? vs]; try apply Keeps_ret).
Qed.






Lemma lookupLive_ext (now : Z) (d d' : gmap string Entry) (k : string) :
  d' !! k = d !! k -> lookupLive now d' k = lookupLive now d k.
Proof. unfold lookupLive. now intros ->. Qed.








(** ** What a request costs on the ledger *)

Lemma round_cost (tokens : Z) :
  Js.round (calculateCost tokens * (100000 # 1)) = (3 * tokens + 80) / 160.
Proof.
  unfold Js.round, calculateCost, avgCostPer1KTokens, Qfloor. cbn.
  Z.div_mod_to_equations. lia.
Qed.

(** X13: the cost a request adds to the ledger is a whole number of
    thousandths of a cent within half a unit of 0.01875 per token.  A request
    of at most 26 tokens adds nothing, however many of them are made; from 27
    tokens on at least one unit is added. *)
Theorem ledger_charge (prefix : string) (log : RequestLog) :
  cost log = calculateCost (tokens log) ->
  exists charge,
    In (Redis.INCRBY (prefix +:+ ":cost") charge) (trackCommands prefix log) /\
    - 80 <= 160 * charge - 3 * tokens log <= 80 /\
    (0 <= tokens log <= 26 -> charge = 0) /\
    (27 <= tokens log -> 1 <= charge).
Proof.
  intros Hcost. exists ((3 * tokens log + 80) / 160).
  split; [| repeat split; Z.div_mod_to_equations; lia].
  unfold trackCommands. rewrite Hcost, round_cost. cbn. auto.
Qed.

Lemma ledger_charge_witness :
  cost sampleLog = calculateCost (tokens sampleLog) /\
  exists charge,
    In (Redis.INCRBY ("rocket:analytics:2023-11-14" +:+ ":cost") charge)
       (trackCommands "rocket:analytics:2023-11-14" sampleLog) /\
    - 80 <= 160 * charge - 3 * tokens sampleLog <= 80 /\
    (0 <= tokens sampleLog <= 26 -> charge = 0) /\
    (27 <= tokens sampleLog -> 1 <= charge).
Proof.
  split; [reflexivity |].
  exact (ledger_charge "rocket:analytics:2023-11-14" sampleLog eq_refl).
Defined.

(** ** The marker of an alert *)

Lemma length_append (a b : string) :
  String.length (a +:+ b) = (String.length a + String.length b)%nat.
Proof.
  induction a as [| c a IH]; [reflexivity |].
  change (String c a +:+ b) with (String c (a +:+ b)). cbn [String.length]. now rewrite IH.
Qed.

(** The first twenty characters of the base64 text are those of the first
    fifteen bytes. *)
Lemma base64_take20 (m : string) :
  (15 <= String.length m)%nat -> Js.take 20 (Js.base64 m) = Js.base64 (Js.take 15 m).
Proof.
  intros Hlen. do 15 (destruct m as [| ? m]; [cbn [String.length] in Hlen; lia |]).
  reflexivity.
Qed.

Lemma alertKey_by_prefix (now : Z) (m1 m2 : string) :
  (15 <= String.length m1)%nat ->
  (15 <= String.length m2)%nat ->
  Js.take 15 m1 = Js.take 15 m2 ->
  alertKey now m1 = alertKey now m2.
Proof.
  intros H1 H2 Hsame. unfold alertKey. now rewrite !base64_take20, Hsame by assumption.
Qed.

Lemma warningMessage_long (cap : Q) (metrics : UsageMetrics) :
  (15 <= String.length (warningMessage cap metrics))%nat.
Proof. unfold warningMessage. rewrite length_append. cbn [String.length]. lia. Qed.

Lemma criticalMessage_long (cap : Q) (metrics : UsageMetrics) :
  (15 <= String.length (criticalMessage cap metrics))%nat.
Proof. unfold criticalMessage. rewrite length_append. cbn [String.length]. lia. Qed.

Lemma warning_marker (now : Z) (cap1 cap2 : Q) (m1 m2 : UsageMetrics) :
  alertKey now (warningMessage cap1 m1) = alertKey now (warningMessage cap2 m2).
Proof.
  apply alertKey_by_prefix; [apply warningMessage_long | apply warningMessage_long |].
  reflexivity.
Qed.

Lemma critical_marker (now : Z) (cap1 cap2 : Q) (m1 m2 : UsageMetrics) :
  alertKey now (criticalMessage cap1 m1) = alertKey now (criticalMessage cap2 m2).
Proof.
  apply alertKey_by_prefix; [apply criticalMessage_long | apply criticalMessage_long |].
  reflexivity.
Qed.

(** X14: the marker that keeps an alert from being repeated is keyed
    by the date and by the first fifteen bytes of the message only.  So all
    warnings of a day share one marker, and so do all critical alerts,
    whatever amounts they report, while a warning and a critical alert have
    different markers.  Once a warning has gone out, a warning that reports
    other figures is held back, with no post to the webhook, for as long as
    the marker lives. *)
Theorem alert_marker_is_coarse (now : Z) (cap1 cap2 : Q) (m1 m2 : UsageMetrics) :
  alertKey now (warningMessage cap1 m1) = alertKey now (warningMessage cap2 m2) /\
  alertKey now (criticalMessage cap1 m1) = alertKey now (criticalMessage cap2 m2) /\
  alertKey now (criticalMessage cap1 m1) <> alertKey now (warningMessage cap2 m2) /\
  forall env url w now',
    SLACK_WEBHOOK_URL env = Some url ->
    url <> "" ->
    faults w = [] ->
    netFaults w = [] ->
    lookupLive now (db w) (alertKey now (warningMessage cap1 m1)) = None ->
    now <= now' < now + 3600 * 1000 ->
    getTodayKey now' = getTodayKey now ->
    outbox (snd (sendSlackAlert env now (warningMessage cap1 m1) w))
    = mkFetch url (warningMessage cap1 m1) :: outbox w /\
    sendSlackAlert env now' (warningMessage cap2 m2)
      (snd (sendSlackAlert env now (warningMessage cap1 m1) w))
    = (Ok tt, snd (sendSlackAlert env now (warningMessage cap1 m1) w)).
Proof.
  split; [apply warning_marker |]. split; [apply critical_marker |]. split.
  - intros H. unfold alertKey in H. do 3 apply String.app_inj in H.
    rewrite !base64_take20 in H by (apply criticalMessage_long || apply warningMessage_long).
    change (Js.take 15 (criticalMessage cap1 m1)) with (Js.take 15 (criticalMessage 0 zeroMetrics))
      in H.
    change (Js.take 15 (warningMessage cap2 m2)) with (Js.take 15 (warningMessage 0 zeroMetrics))
      in H.
    vm_compute in H. discriminate H.
  - intros env url w now' Henv Hurl Hf Hn Hmark Hnow' Hday.
    rewrite (sendSlackAlert_sends env url now _ w Henv Hurl Hf Hn Hmark). cbn [snd].
    split; [reflexivity |].
    apply (sendSlackAlert_suppressed env now' _ _ (Some (now + 3600 * 1000))); [exact Hf |].
    assert (Hkey : alertKey now' (warningMessage cap2 m2)
                   = alertKey now (warningMessage cap1 m1)).
    { rewrite <- (warning_marker now cap2 cap1 m2 m1). unfold alertKey. now rewrite Hday. }
    rewrite Hkey.
    cbn [db with_db]. rewrite lookupLive_insert_eq. unfold live. cbn [expireAt].
    destruct (Z.ltb_spec now' (now + 3600 * 1000)); [reflexivity | lia].
Qed.

Lemma alert_marker_is_coarse_witness :
  SLACK_WEBHOOK_URL alertEnv = Some "https://hooks.slack.example/T000" /\
  outbox (snd (sendSlackAlert alertEnv t0 (warningMessage (10 # 1) nineDollars) emptyWorld))
  = mkFetch "https://hooks.slack.example/T000" (warningMessage (10 # 1) nineDollars)
    :: outbox emptyWorld /\
  sendSlackAlert alertEnv (t0 + 60000) (warningMessage (10 # 1) nineFifty)
    (snd (sendSlackAlert alertEnv t0 (warningMessage (10 # 1) nineDollars) emptyWorld))
  = (Ok tt, snd (sendSlackAlert alertEnv t0 (warningMessage (10 # 1) nineDollars) emptyWorld)).
Proof.
  split; [reflexivity |].
  refine (proj2 (proj2 (proj2
            (alert_marker_is_coarse t0 (10 # 1) (10 # 1) nineDollars nineFifty)))
            alertEnv "https://hooks.slack.example/T000" emptyWorld (t0 + 60000)
            eq_refl _ eq_refl eq_refl _ _ _).
  - discriminate.
  - unfold lookupLive, emptyWorld. cbn [db]. now rewrite lookup_empty.
  - unfold t0. lia.
  - vm_compute. reflexivity.
Defined.

(** ** Alerts that cannot be delivered *)

(** X15: without a webhook an alert is dropped before anything is read
    or written.  With a webhook and no live marker, a post that fails leaves
    no marker and throws nothing, so the next check tries again; and when the
    post goes through but the write of the marker fails, the alert is out and
    unmarked, so the next check sends it once more. *)
Theorem alert_delivery_failures (env : Env) (now : Z) (message : string) (w : World) :
  (Js.optTruthy (SLACK_WEBHOOK_URL env) = false ->
   sendSlackAlert env now message w = (Ok tt, w)) /\
  (forall url rest,
      SLACK_WEBHOOK_URL env = Some url ->
      url <> "" ->
      faults w = [] ->
      lookupLive now (db w) (alertKey now message) = None ->
      netFaults w = true :: rest ->
      sendSlackAlert env now message w = (Ok tt, with_netFaults rest w)) /\
  (forall url rest,
      SLACK_WEBHOOK_URL env = Some url ->
      url <> "" ->
      faults w = false :: true :: rest ->
      lookupLive now (db w) (alertKey now message) = None ->
      netFaults w = [] ->
      sendSlackAlert env now message w
      = (Ok tt, with_faults rest (with_outbox (mkFetch url message :: outbox w) w)) /\
      lookupLive now (db (snd (sendSlackAlert env now message w))) (alertKey now message) = None).
Proof.
  split; [| split].
  - intros Hnone. unfold sendSlackAlert. now rewrite Hnone.
  - intros url rest Henv Hurl Hf Hmark Hn. unfold sendSlackAlert. rewrite Henv.
    destruct url as [| c url]; [congruence |]. cbn [Js.optTruthy Js.truthy negb default].
    unfold bind at 1. rewrite get_ok by done. rewrite Hmark.
    cbn [fmap option_fmap option_map valueTruthy].
    unfold tryCatch, bind, fetch. rewrite Hn. reflexivity.
  - intros url rest Henv Hurl Hf Hmark Hn. unfold sendSlackAlert. rewrite Henv.
    destruct url as [| c url]; [congruence |]. cbn [Js.optTruthy Js.truthy negb default].
    unfold Redis.get, Redis.setEx, tryCatch, bind, roundTrip, fetch, modifyDb, ret.
    rewrite Hf. cbn [db with_faults]. rewrite Hmark.
    cbn [fmap option_fmap option_map valueTruthy netFaults with_faults]. rewrite Hn.
    cbn [faults with_outbox with_faults]. split; [reflexivity |].
    cbn [snd db with_faults with_outbox]. exact Hmark.
Qed.

Lemma alert_delivery_failures_witness :
  Js.optTruthy (SLACK_WEBHOOK_URL oneKeyEnv) = false /\
  sendSlackAlert oneKeyEnv t0 (warningMessage (10 # 1) nineDollars) emptyWorld
  = (Ok tt, emptyWorld).
Proof.
  split; [reflexivity |].
  exact (proj1 (alert_delivery_failures oneKeyEnv t0 (warningMessage (10 # 1) nineDollars)
                  emptyWorld) eq_refl).
Defined.

(** ** Reading the metrics *)




Lemma getTodayMetrics_resolves (env : Env) (now : Z) (w : World) :
  storeConfigured env = true -> exists metrics, fst (getTodayMetrics env now w) = Ok metrics.
Proof.
  intros Hc. unfold getTodayMetrics. unfold bind at 1. rewrite getRedis_ok by exact Hc.
  unfold tryCatch, bind.
  destruct (getAll now _ w) as [[vs | e] w1]; [| cbn; eauto].
  do 7 (destruct vs as [| ? vs]; [cbn; eauto |]). cbn. eauto.
Qed.


Lemma getTodayMetrics_unconfigured (env : Env) (now : Z) (w : World) :
  storeConfigured env = false ->
  getTodayMetrics env now w = (Throw (mkError "Missing Upstash Redis configuration"), w).
Proof.
  intros Hc. unfold getTodayMetrics. unfold bind at 1. now rewrite getRedis_throws by exact Hc.
Qed.




(** ** Sessions *)

Lemma run_SADD_ok (now : Z) (k member : string) (d : gmap string Entry) :
  holdsSet now d k -> (Redis.run now (Redis.SADD k member) d).2 = true.
Proof.
  intros Htyped. cbn [Redis.run].
  destruct (lookupLive now d k) as [[v t] |] eqn:Hcur; [| reflexivity].
  destruct (Htyped _ Hcur) as [members Hv]. cbn in Hv. now subst v.
Qed.

Lemma run_lookup_elsewhere (now : Z) (c : Redis.Command) (d : gmap string Entry) (k : string) :
  commandKey c <> k -> (Redis.run now c d).1 !! k = d !! k.
Proof.
  intros Hk. destruct c as [k' n | k' n member | k' seconds | k' member | k' member];
    cbn [Redis.run commandKey] in *;
    destruct (lookupLive now d k') as [[[] t] |]; cbn [fst];
      try reflexivity; now apply lookup_insert_ne.
Qed.

Lemma run_elsewhere_at (now now' : Z) (c : Redis.Command) (d : gmap string Entry) (k : string) :
  commandKey c <> k -> lookupLive now' (Redis.run now c d).1 k = lookupLive now' d k.
Proof. intros Hk. now apply lookupLive_ext, run_lookup_elsewhere. Qed.

Lemma session_key_not_user_key (sessionToken id : string) :
  userSessionsKey id <> sessionKey sessionToken.
Proof. unfold userSessionsKey, sessionKey. key_neq 8%nat. Qed.

Lemma expiresIn_seconds : Auth.expiresIn / 1000 * 1000 = Auth.expiresIn.
Proof. reflexivity. Qed.

(** What [createSession] does when GitHub and the store answer. *)
Lemma createSession_ok (gh : GitHub) (random : string) (now : Z) (accessToken : string)
    (w : World) :
  faults w = [] ->
  netFaults w = [] ->
  userOk (userEndpoint gh accessToken) = true ->
  holdsSet now (db w)
    (userSessionsKey (pretty (GitHubUser.id (user (userEndpoint gh accessToken))))) ->
  Auth.createSession gh random now accessToken w
  = (Ok (random, sessionOf (user (userEndpoint gh accessToken)) accessToken now),
     with_db
       (Redis.run now
          (Redis.SADD
             (userSessionsKey (pretty (GitHubUser.id (user (userEndpoint gh accessToken)))))
             random)
          (<[sessionKey random
             := mkEntry (RJson (sessionOf (user (userEndpoint gh accessToken)) accessToken now))
                  (Some (now + Auth.expiresIn))]> (db w))).1
       (with_outbox (mkFetch Auth.userUrl accessToken :: outbox w) w)).
Proof.
  intros Hf Hn Hok Hset.
  unfold Auth.createSession, Auth.getGitHubUser, Redis.sadd, Redis.exec.
  unfold bind, fetch. rewrite Hn, Hok. cbn [negb]. unfold ret.
  rewrite setEx_ok by exact Hf. rewrite roundTrip_ok by exact Hf.
  cbn [db with_db with_outbox Redis.runAll]. rewrite expiresIn_seconds.
  fold (sessionOf (user (userEndpoint gh accessToken)) accessToken now).
  fold (sessionKey random).
  fold (userSessionsKey (pretty (GitHubUser.id (user (userEndpoint gh accessToken))))).
  pose proof (run_SADD_ok now
                (userSessionsKey (pretty (GitHubUser.id (user (userEndpoint gh accessToken)))))
                random
                (<[sessionKey random
                   := mkEntry
                        (RJson (sessionOf (user (userEndpoint gh accessToken)) accessToken now))
                        (Some (now + Auth.expiresIn))]> (db w))) as Hrun.
  destruct (Redis.run now _ _) as [d2 ok]. cbn [fst snd] in *.
  rewrite Hrun; [reflexivity |].
  intros e He. rewrite lookupLive_insert_ne in He; [now apply Hset |].
  intros Heq. symmetry in Heq. now apply session_key_not_user_key in Heq.
Qed.

(** What [getSession] finds under a token the store holds a session for. *)
Lemma getSession_found (fuel : nat) (now : Z) (sessionToken : string) (session : AuthSession.t)
    (expiry : option Z) (w : World) :
  faults w = [] ->
  sessionToken <> "" ->
  lookupLive now (db w) (sessionKey sessionToken) = Some (mkEntry (RJson session) expiry) ->
  now <= AuthSession.expiresAt session ->
  Auth.getSession (S fuel) now sessionToken w = (Ok (Some (Some session)), w).
Proof.
  intros Hf Hne Hfound Hfresh. cbn [Auth.getSession].
  destruct sessionToken as [| c rest]; [congruence |]. cbn [Js.truthy negb].
  unfold bind. rewrite get_ok by exact Hf. fold (sessionKey (String c rest)). rewrite Hfound.
  cbn [fmap option_fmap option_map value].
  destruct (Z.ltb_spec (AuthSession.expiresAt session) now); [lia | reflexivity].
Qed.

Lemma getSession_missing (fuel : nat) (now : Z) (sessionToken : string) (w : World) :
  faults w = [] ->
  lookupLive now (db w) (sessionKey sessionToken) = None ->
  Auth.getSession (S fuel) now sessionToken w = (Ok (Some None), w).
Proof.
  intros Hf Hnone. cbn [Auth.getSession].
  destruct (negb (Js.truthy sessionToken)); [reflexivity |].
  unfold bind. rewrite get_ok by exact Hf. fold (sessionKey sessionToken). now rewrite Hnone.
Qed.

(** X17: a session that [createSession] stores is the one [getSession]
    gives back for its token at any instant before the thirty days are over.
    The identity of the session is "github:" followed by the numeric id
    GitHub reports, the session carries the access token it was created from,
    and it records its own expiry thirty days after its creation.  A session
    is given back as long as its record is held and the instant is not past
    that expiry: at the very instant of the expiry it still is. *)
Theorem session_round_trip (gh : GitHub) (random : string) (now : Z) (accessToken : string)
    (w : World) :
  faults w = [] ->
  netFaults w = [] ->
  userOk (userEndpoint gh accessToken) = true ->
  random <> "" ->
  holdsSet now (db w)
    (userSessionsKey (pretty (GitHubUser.id (user (userEndpoint gh accessToken))))) ->
  exists session w1,
    Auth.createSession gh random now accessToken w = (Ok (random, session), w1) /\
    AuthSession.userId session
    = "github:" +:+ pretty (GitHubUser.id (user (userEndpoint gh accessToken))) /\
    AuthSession.username session = GitHubUser.login (user (userEndpoint gh accessToken)) /\
    AuthSession.accessToken session = accessToken /\
    AuthSession.expiresAt session = now + 30 * 24 * 60 * 60 * 1000 /\
    (forall fuel now',
        now' < now + 30 * 24 * 60 * 60 * 1000 ->
        Auth.getSession (S fuel) now' random w1 = (Ok (Some (Some session)), w1)) /\
    (forall fuel now' expiry w2,
        faults w2 = [] ->
        lookupLive now' (db w2) (sessionKey random) = Some (mkEntry (RJson session) expiry) ->
        now' <= AuthSession.expiresAt session ->
        Auth.getSession (S fuel) now' random w2 = (Ok (Some (Some session)), w2)).
Proof.
  intros Hf Hn Hok Hne Hset. eexists _, _.
  split; [apply createSession_ok; assumption |].
  repeat split.
  - intros fuel now' Hbefore.
    apply (getSession_found fuel now' random _ (Some (now + Auth.expiresIn)));
      [exact Hf | exact Hne | | cbn; unfold Auth.expiresIn; lia].
    cbn [db with_db]. rewrite run_elsewhere_at by apply session_key_not_user_key.
    rewrite lookupLive_insert_eq. unfold live. cbn [expireAt].
    destruct (Z.ltb_spec now' (now + Auth.expiresIn)); [reflexivity |].
    unfold Auth.expiresIn in *. lia.
  - intros fuel now' expiry w2 Hf2 Hheld Hfresh.
    now apply (getSession_found fuel now' random _ expiry).
Qed.

Lemma session_round_trip_witness :
  faults emptyWorld = [] /\
  userOk (userEndpoint friendlyGitHub "gho_x") = true /\
  exists session w1,
    Auth.createSession friendlyGitHub "5f2a" t0 "gho_x" emptyWorld = (Ok ("5f2a", session), w1) /\
    AuthSession.userId session
    = "github:" +:+ pretty (GitHubUser.id (user (userEndpoint friendlyGitHub "gho_x"))) /\
    AuthSession.username session
    = GitHubUser.login (user (userEndpoint friendlyGitHub "gho_x")) /\
    AuthSession.accessToken session = "gho_x" /\
    AuthSession.expiresAt session = t0 + 30 * 24 * 60 * 60 * 1000 /\
    (forall fuel now',
        now' < t0 + 30 * 24 * 60 * 60 * 1000 ->
        Auth.getSession (S fuel) now' "5f2a" w1 = (Ok (Some (Some session)), w1)) /\
    (forall fuel now' expiry w2,
        faults w2 = [] ->
        lookupLive now' (db w2) (sessionKey "5f2a") = Some (mkEntry (RJson session) expiry) ->
        now' <= AuthSession.expiresAt session ->
        Auth.getSession (S fuel) now' "5f2a" w2 = (Ok (Some (Some session)), w2)).
Proof.
  split; [reflexivity |]. split; [reflexivity |].
  refine (session_round_trip friendlyGitHub "5f2a" t0 "gho_x" emptyWorld
            eq_refl eq_refl eq_refl _ _).
  - discriminate.
  - intros e He. unfold lookupLive, emptyWorld in He. cbn [db] in He.
    now rewrite lookup_empty in He.
Defined.

Lemma run_SREM_ok (now : Z) (k member : string) (d : gmap string Entry) :
  holdsSet now d k -> (Redis.run now (Redis.SREM k member) d).2 = true.
Proof.
  intros Htyped. cbn [Redis.run].
  destruct (lookupLive now d k) as [[v t] |] eqn:Hcur; [| reflexivity].
  destruct (Htyped _ Hcur) as [members Hv]. cbn in Hv. now subst v.
Qed.

Lemma run_SREM_removes (now : Z) (k member : string) (d : gmap string Entry) :
  ~ inSet now (Redis.run now (Redis.SREM k member) d).1 k member.
Proof.
  intros (e & members & Hlive & Hv & Hin). cbn [Redis.run] in Hlive.
  destruct (lookupLive now d k) as [[[] t] |] eqn:Hcur; cbn [fst] in Hlive;
    try (rewrite Hcur in Hlive;
         first [discriminate Hlive | injection Hlive as <-; cbn in Hv; congruence]).
  rewrite lookupLive_insert_eq in Hlive. destruct (live now _); [| done].
  injection Hlive as <-. cbn in Hv. injection Hv as <-.
  apply elem_of_difference in Hin as [_ Hout]. apply Hout. now apply elem_of_singleton.
Qed.

(** What [deleteSession] does to a session that is there and has not expired. *)
Lemma deleteSession_found (fuel : nat) (now : Z) (sessionToken : string)
    (session : AuthSession.t) (expiry : option Z) (w : World) :
  faults w = [] ->
  sessionToken <> "" ->
  lookupLive now (db w) (sessionKey sessionToken) = Some (mkEntry (RJson session) expiry) ->
  now <= AuthSession.expiresAt session ->
  holdsSet now (db w) (userSessionsKey (Auth.removeFirst "github:" (AuthSession.userId session))) ->
  Auth.deleteSession (S (S fuel)) now sessionToken w
  = (Ok (Some tt),
     with_db
       (Redis.run now
          (Redis.SREM (userSessionsKey (Auth.removeFirst "github:" (AuthSession.userId session)))
             sessionToken)
          (delete (sessionKey sessionToken) (db w))).1 w).
Proof.
  intros Hf Hne Hfound Hfresh Hset.
  change (Auth.deleteSession (S (S fuel)) now sessionToken)
    with (let* found := Auth.getSession (S fuel) now sessionToken in
          match found with
          | None => ret None
          | Some session =>
              Redis.del ("rocket:session:" +:+ sessionToken) ;;
              match session with
              | Some s =>
                  Redis.srem now
                    ("rocket:user_sessions:" +:+ Auth.removeFirst "github:" (AuthSession.userId s))
                    sessionToken ;;
                  ret (Some tt)
              | None => ret (Some tt)
              end
          end).
  unfold bind at 1. rewrite (getSession_found fuel now sessionToken session expiry w) by assumption.
  unfold bind at 1. rewrite del_ok by exact Hf.
  unfold Redis.srem, Redis.exec, bind. rewrite roundTrip_ok by exact Hf.
  cbn [db with_db Redis.runAll].
  fold (sessionKey sessionToken).
  fold (userSessionsKey (Auth.removeFirst "github:" (AuthSession.userId session))).
  pose proof (run_SREM_ok now
                (userSessionsKey (Auth.removeFirst "github:" (AuthSession.userId session)))
                sessionToken (delete (sessionKey sessionToken) (db w))) as Hrun.
  destruct (Redis.run now _ _) as [d2 ok]. cbn [fst snd] in *.
  rewrite Hrun; [reflexivity |].
  intros e He. rewrite lookupLive_delete_ne in He; [now apply Hset |].
  intros Heq. symmetry in Heq. now apply session_key_not_user_key in Heq.
Qed.

(** X18: a DELETE to /api/auth/me with the bearer token of a live session
    is answered 200 "Logged out successfully"; the session is deleted from
    the store and its token leaves the set of the user's sessions, so that a
    GET with the same token is from then on answered as unauthenticated. *)
Theorem logout_ends_session (fuel : nat) (now : Z) (request : Request) (token : string)
    (session : AuthSession.t) (expiry : option Z) (w : World) :
  method request = "DELETE" ->
  headers_get request "Authorization" = Some ("Bearer " +:+ token) ->
  token <> "" ->
  faults w = [] ->
  lookupLive now (db w) (sessionKey token) = Some (mkEntry (RJson session) expiry) ->
  now <= AuthSession.expiresAt session ->
  holdsSet now (db w) (userSessionsKey (Auth.removeFirst "github:" (AuthSession.userId session))) ->
  exists w',
    Me.handler (S (S fuel)) now request w
    = (Ok (Some (Me.jsonResponse (Me.Message "Logged out successfully") 200)), w') /\
    db w' !! sessionKey token = None /\
    ~ inSet now (db w')
        (userSessionsKey (Auth.removeFirst "github:" (AuthSession.userId session))) token /\
    forall fuel' now' request',
      method request' = "GET" ->
      headers_get request' "Authorization" = Some ("Bearer " +:+ token) ->
      Me.handler (S fuel') now' request' w'
      = (Ok (Some (Me.jsonResponse Me.Unauthenticated 200)), w').
Proof.
  intros Hm Hauth Hne Hf Hfound Hfresh Hset. eexists. split; [| split; [| split]].
  - unfold Me.handler, Me.handleLogout. rewrite Hm, Hauth.
    cbn [String.eqb Ascii.eqb Bool.eqb Js.optStartsWith].
    change (Js.startsWith "Bearer " ("Bearer " +:+ token)) with true. cbn [negb default from_option id].
    change (Js.slice 7 ("Bearer " +:+ token)) with token.
    unfold tryCatch, bind.
    rewrite (deleteSession_found fuel now token session expiry w) by assumption.
    reflexivity.
  - cbn [db with_db]. rewrite run_lookup_elsewhere by apply session_key_not_user_key.
    apply lookup_delete_eq.
  - cbn [db with_db]. apply run_SREM_removes.
  - intros fuel' now' request' Hm' Hauth'.
    unfold Me.handler, Me.handleGetUser, validateRequest. rewrite Hm', Hauth'.
    cbn [String.eqb Ascii.eqb Bool.eqb Js.optStartsWith].
    change (Js.startsWith "Bearer " ("Bearer " +:+ token)) with true. cbn [negb default from_option id].
    change (Js.slice 7 ("Bearer " +:+ token)) with token.
    unfold bind. rewrite getSession_missing; [reflexivity | exact Hf |].
    cbn [db with_db]. rewrite run_elsewhere_at by apply session_key_not_user_key.
    unfold lookupLive. now rewrite lookup_delete_eq.
Qed.

Lemma logout_ends_session_witness :
  faults loggedInWorld = [] /\
  exists w',
    Me.handler 2 (t0 + 1000) (meRequest "DELETE" "5f2a") loggedInWorld
    = (Ok (Some (Me.jsonResponse (Me.Message "Logged out successfully") 200)), w') /\
    db w' !! sessionKey "5f2a" = None /\
    ~ inSet (t0 + 1000) (db w')
        (userSessionsKey
           (Auth.removeFirst "github:" (AuthSession.userId (sessionOf octocat "gho_x" t0))))
        "5f2a" /\
    forall fuel' now' request',
      method request' = "GET" ->
      headers_get request' "Authorization" = Some ("Bearer " +:+ "5f2a") ->
      Me.handler (S fuel') now' request' w'
      = (Ok (Some (Me.jsonResponse Me.Unauthenticated 200)), w').
Proof.
  split; [reflexivity |].
  refine (logout_ends_session 0 (t0 + 1000) (meRequest "DELETE" "5f2a") "5f2a"
            (sessionOf octocat "gho_x" t0) (Some (t0 + Auth.expiresIn)) loggedInWorld
            eq_refl eq_refl _ eq_refl _ _ _).
  - discriminate.
  - vm_compute. reflexivity.
  - vm_compute. discriminate.
  - intros e He. vm_compute in He. injection He as <-. eexists. reflexivity.
Defined.

(** ** The life of a state nonce *)

Lemma validateState_dead (w : World) (state : string) (now : Z) :
  faults w = [] ->
  lookupLive now (db w) (stateKey state) = None ->
  Auth.validateState now state w = (Ok Js.JNull, w).
Proof.
  intros Hf Hdead. unfold Auth.validateState, bind. fold (stateKey state).
  rewrite get_ok by done. now rewrite Hdead.
Qed.

Lemma callback_invalid_state (gh : GitHub) (random : string) (now : Z) (request : Request)
    (code state : string) (w : World) :
  method request = "GET" ->
  Js.optTruthy (query request !! "error") = false ->
  query request !! "code" = Some code ->
  code <> "" ->
  query request !! "state" = Some state ->
  state <> "" ->
  faults w = [] ->
  lookupLive now (db w) (stateKey state) = None ->
  Callback.handler gh random now request w
  = (Ok (Callback.createErrorResponse "invalid_state" "Invalid or expired state parameter"), w).
Proof.
  intros Hm Herr Hcode Hc Hstate Hs Hf Hdead. unfold Callback.handler.
  rewrite Hm, Herr, Hcode, Hstate. cbn [String.eqb Ascii.eqb Bool.eqb negb].
  destruct code as [| c1 code]; [congruence |]. destruct state as [| c2 state]; [congruence |].
  cbn [Js.optTruthy Js.truthy negb orb default from_option id].
  unfold tryCatch, bind. rewrite validateState_dead by assumption. reflexivity.
Qed.

(** X27: a state whose redirect the client reads back as something
    truthy, as it does a path, is consumed exactly once: the first
    [validateState] returns the redirect as the client reads it and deletes
    the record, and a second call with the same state finds nothing.  The
    start of the flow stores a redirect that is not empty, for ten minutes.
    And the callback never reaches the token exchange (no request goes out,
    none is even attempted) when the validation does not return something
    truthy. *)
Theorem oauth_state_single_use :
  (forall (w : World) (state redirect : string) (expiry : option Z) (now now' : Z),
      faults w = [] ->
      lookupLive now (db w) (stateKey state) = Some (mkEntry (RStr redirect) expiry) ->
      Js.truthyValue (deserialize (platform w) redirect) = true ->
      fst (Auth.validateState now state w) = Ok (deserialize (platform w) redirect) /\
      db (snd (Auth.validateState now state w)) !! stateKey state = None /\
      fst (Auth.validateState now' state (snd (Auth.validateState now state w)))
      = Ok Js.JNull) /\
  (forall (random : string) (now : Z) (request : Request) (w : World),
      method request = "GET" ->
      faults w = [] ->
      exists redirect,
        redirect <> "" /\
        db (snd (Github.handler random now request w)) !! stateKey random
        = Some (mkEntry (RStr redirect) (Some (now + 600 * 1000)))) /\
  (forall (gh : GitHub) (random : string) (now : Z) (request : Request) (w : World),
      (forall stored,
          fst (Auth.validateState now (default "" (query request !! "state")) w) = Ok stored ->
          Js.truthyValue stored = false) ->
      outbox (snd (Callback.handler gh random now request w)) = outbox w /\
      netFaults (snd (Callback.handler gh random now request w)) = netFaults w /\
      exists resp,
        fst (Callback.handler gh random now request w) = Ok resp /\
        (status resp = 400 \/ status resp = 405)).
Proof.
  split; [| split].
  - intros w state redirect expiry now now' Hf Hlive Htruthy.
    rewrite (validateState_consumes w state redirect expiry now Hf Hlive Htruthy). cbn [fst snd].
    split; [reflexivity |]. split; [apply lookup_delete_eq |].
    rewrite validateState_absent; [reflexivity | exact Hf | apply lookup_delete_eq].
  - intros random now request w Hm Hf.
    destruct (github_handler_stores random now request w Hm Hf) as (r & Hne & _ & Hdb & _).
    eauto.
  - intros gh random now request w Hfail.
    destruct (callback_failed_validation gh random now request w Hfail)
      as (resp & w' & Hrun & Hout & Hnet & Hs & _).
    rewrite Hrun. cbn [fst snd]. eauto.
Qed.

Lemma oauth_state_single_use_witness :
  faults afterLoginStart = [] /\
  lookupLive (t0 + 60000) (db afterLoginStart) (stateKey "nonce")
  = Some (mkEntry (RStr "/api/auth/callback") (Some (t0 + 600 * 1000))) /\
  Js.truthyValue (deserialize (platform afterLoginStart) "/api/auth/callback") = true /\
  fst (Auth.validateState (t0 + 60000) "nonce" afterLoginStart)
  = Ok (deserialize (platform afterLoginStart) "/api/auth/callback") /\
  db (snd (Auth.validateState (t0 + 60000) "nonce" afterLoginStart)) !! stateKey "nonce" = None /\
  fst (Auth.validateState (t0 + 61000) "nonce"
         (snd (Auth.validateState (t0 + 60000) "nonce" afterLoginStart))) = Ok Js.JNull.
Proof.
  assert (Hf : faults afterLoginStart = []) by (vm_compute; reflexivity).
  assert (Hlive : lookupLive (t0 + 60000) (db afterLoginStart) (stateKey "nonce")
                  = Some (mkEntry (RStr "/api/auth/callback") (Some (t0 + 600 * 1000))))
    by (vm_compute; reflexivity).
  split; [exact Hf |]. split; [exact Hlive |]. split; [reflexivity |].
  exact (proj1 oauth_state_single_use afterLoginStart "nonce" "/api/auth/callback"
           (Some (t0 + 600 * 1000)) (t0 + 60000) (t0 + 61000) Hf Hlive eq_refl).
Defined.

(** X19: the state a login starts with is good for ten minutes.  A
    callback that brings it back before then finds the redirect that was
    stored, when the client reads that text back as it is, as it does a
    path; one that brings it back later is answered 400 "invalid_state",
    nothing is sent to GitHub and the store is left as it is. *)
Theorem oauth_state_expires (gh : GitHub) (random random' code : string) (now now' : Z)
    (start callback : Request) (w : World) :
  method start = "GET" ->
  faults w = [] ->
  method callback = "GET" ->
  Js.optTruthy (query callback !! "error") = false ->
  query callback !! "code" = Some code ->
  code <> "" ->
  query callback !! "state" = Some random ->
  random <> "" ->
  (now' < now + 600 * 1000 ->
   deserialize (platform w) (Js.orElse (query start !! "redirect") "/api/auth/callback")
   = Js.JText (Js.orElse (query start !! "redirect") "/api/auth/callback") ->
   fst (Auth.validateState now' random (snd (Github.handler random now start w)))
   = Ok (Js.JText (Js.orElse (query start !! "redirect") "/api/auth/callback"))) /\
  (now + 600 * 1000 <= now' ->
   Callback.handler gh random' now' callback (snd (Github.handler random now start w))
   = (Ok (Callback.createErrorResponse "invalid_state" "Invalid or expired state parameter"),
      snd (Github.handler random now start w))).
Proof.
  intros Hm Hf Hm' Herr Hcode Hc Hstate Hs.
  destruct (github_handler_stores random now start w Hm Hf)
    as (redirect & Hne & Hredirect & Hstored & Hf1 & Hp1).
  split.
  - intros Hbefore. rewrite <- Hredirect. intros Hread.
    rewrite (validateState_consumes _ random redirect (Some (now + 600 * 1000)) now').
    + cbn [fst]. now rewrite Hp1, Hread.
    + exact Hf1.
    + unfold lookupLive. rewrite Hstored. unfold live. cbn [expireAt].
      destruct (Z.ltb_spec now' (now + 600 * 1000)); [reflexivity | lia].
    + rewrite Hp1, Hread. destruct redirect; [congruence | reflexivity].
  - intros Hafter. apply (callback_invalid_state gh random' now' callback code random);
      try assumption.
    unfold lookupLive. rewrite Hstored. unfold live. cbn [expireAt].
    destruct (Z.ltb_spec now' (now + 600 * 1000)); [lia | reflexivity].
Qed.

Lemma oauth_state_expires_witness :
  deserialize (platform emptyWorld) (Js.orElse (query loginRequest !! "redirect") "/api/auth/callback")
  = Js.JText (Js.orElse (query loginRequest !! "redirect") "/api/auth/callback") /\
  fst (Auth.validateState (t0 + 599999) "nonce"
         (snd (Github.handler "nonce" t0 loginRequest emptyWorld)))
  = Ok (Js.JText (Js.orElse (query loginRequest !! "redirect") "/api/auth/callback")) /\
  Callback.handler friendlyGitHub "5f2a" (t0 + 600000) (callbackRequest "c0de" "nonce")
    (snd (Github.handler "nonce" t0 loginRequest emptyWorld))
  = (Ok (Callback.createErrorResponse "invalid_state" "Invalid or expired state parameter"),
     snd (Github.handler "nonce" t0 loginRequest emptyWorld)).
Proof.
  assert (Hcode : "c0de" <> "") by discriminate.
  assert (Hstate : "nonce" <> "") by discriminate.
  split; [reflexivity |]. split.
  - refine (proj1 (oauth_state_expires friendlyGitHub "nonce" "5f2a" "c0de" t0 (t0 + 599999)
                     loginRequest (callbackRequest "c0de" "nonce") emptyWorld
                     eq_refl eq_refl eq_refl eq_refl eq_refl Hcode eq_refl Hstate) _ eq_refl).
    unfold t0. lia.
  - refine (proj2 (oauth_state_expires friendlyGitHub "nonce" "5f2a" "c0de" t0 (t0 + 600000)
                     loginRequest (callbackRequest "c0de" "nonce") emptyWorld
                     eq_refl eq_refl eq_refl eq_refl eq_refl Hcode eq_refl Hstate) _).
    unfold t0. lia.
Defined.

Lemma runAll_lookup_elsewhere (now : Z) (cs : list Redis.Command) (k : string) :
  Forall (fun c => commandKey c <> k) cs ->
  forall d, (Redis.runAll now cs d).1 !! k = d !! k.
Proof.
  induction 1 as [| c cs Hc _ IH]; intros d; [reflexivity |].
  rewrite runAll_cons, IH. now apply run_lookup_elsewhere.
Qed.

Lemma Keeps_key_exec (now : Z) (cs : list Redis.Command) (k : string) :
  Forall (fun c => commandKey c <> k) cs -> Keeps (fun w => db w !! k) (Redis.exec now cs).
Proof.
  intros Hcs w. unfold Redis.exec, bind, roundTrip.
  destruct (faults w) as [| [] rest]; cbn [snd]; try reflexivity.
  - pose proof (runAll_lookup_elsewhere now cs k Hcs (db w)) as H.
    destruct (Redis.runAll now cs (db w)) as [d ok]. exact H.
  - pose proof (runAll_lookup_elsewhere now cs k Hcs (db (with_faults rest w))) as H.
    destruct (Redis.runAll now cs (db (with_faults rest w))) as [d ok]. exact H.
Qed.

Lemma state_key_not_session_key (state sessionToken : string) :
  sessionKey sessionToken <> stateKey state.
Proof. unfold sessionKey, stateKey. key_neq 8%nat. Qed.

Lemma state_key_not_user_key (state id : string) :
  userSessionsKey id <> stateKey state.
Proof. unfold userSessionsKey, stateKey. key_neq 8%nat. Qed.

(** After the state has been checked the callback leaves its key alone. *)
Lemma createSession_keeps_state (gh : GitHub) (random : string) (now : Z)
    (accessToken state : string) :
  Keeps (fun w => db w !! stateKey state) (Auth.createSession gh random now accessToken).
Proof.
  unfold Auth.createSession, Auth.getGitHubUser.
  apply Keeps_bind.
  { apply Keeps_bind; [by apply Keeps_fetch |]. intros _.
    destruct (negb _); [apply Keeps_throw | apply Keeps_ret]. }
  intros user. apply Keeps_bind.
  { apply Keeps_key_setEx, state_key_not_session_key. }
  intros _. apply Keeps_bind; [| intros _; apply Keeps_ret].
  apply Keeps_key_exec. repeat constructor. apply state_key_not_user_key.
Qed.

Lemma exchangeCodeForToken_keeps {X : Type} (proj : World -> X) (gh : GitHub) (code : string) :
  (forall f w, proj (with_netFaults f w) = proj w) ->
  (forall o w, proj (with_outbox o w) = proj w) ->
  Keeps proj (Auth.exchangeCodeForToken gh code).
Proof.
  intros Hn Ho. unfold Auth.exchangeCodeForToken.
  apply Keeps_bind; [by apply Keeps_fetch |]. intros _.
  destruct (negb _); [apply Keeps_throw |].
  destruct (Js.optTruthy _); [apply Keeps_throw |].
  destruct (negb _); [apply Keeps_throw | apply Keeps_ret].
Qed.

(** What the callback does after the session is stored leaves the store
    alone. *)
Lemma Keeps_callback_answer {X : Type} (proj : World -> X) (stored : Js.value)
    (sessionToken username origin : string) :
  Keeps proj
    (match stored with
     | Js.JText redirect =>
         if Js.startsWith "/cli-callback" redirect then
           ret (Callback.createCliSuccessResponse sessionToken username)
         else
           let* redirectUrl := Callback.newURL redirect origin in
           ret (Callback.createWebSuccessResponse sessionToken username redirectUrl)
     | _ => throw (mkError "storedRedirect.startsWith is not a function")
     end).
Proof.
  destruct stored as [| b | q | redirect |]; try apply Keeps_throw.
  destruct (Js.startsWith _ _); [apply Keeps_ret |].
  apply Keeps_bind; [apply Keeps_newURL | intros redirectUrl; apply Keeps_ret].
Qed.

(** X20: a callback that passes the check of its state has used the
    state up, whatever happens next: when GitHub refuses the code, when a
    request fails, when the session cannot be stored, when the redirect turns
    out not to be a text or not to resolve, the state is gone all the same,
    and the same callback delivered again is answered 400 "invalid_state"
    without a request to GitHub.  The check is passed by a live state whose
    redirect the client reads back as something truthy. *)
Theorem callback_burns_state (gh : GitHub) (random : string) (now : Z) (request : Request)
    (code state redirect : string) (expiry : option Z) (w : World) :
  method request = "GET" ->
  Js.optTruthy (query request !! "error") = false ->
  query request !! "code" = Some code ->
  code <> "" ->
  query request !! "state" = Some state ->
  state <> "" ->
  faults w = [] ->
  lookupLive now (db w) (stateKey state) = Some (mkEntry (RStr redirect) expiry) ->
  Js.truthyValue (deserialize (platform w) redirect) = true ->
  exists resp w',
    Callback.handler gh random now request w = (Ok resp, w') /\
    db w' !! stateKey state = None /\
    forall gh' random' now',
      faults w' = [] ->
      Callback.handler gh' random' now' request w'
      = (Ok (Callback.createErrorResponse "invalid_state" "Invalid or expired state parameter"),
         w').
Proof.
  intros Hm Herr Hcode Hc Hstate Hs Hf Hlive Htruthy.
  assert (Hrun : exists resp w',
             Callback.handler gh random now request w = (Ok resp, w') /\
             db w' !! stateKey state = None).
  { unfold Callback.handler. rewrite Hm, Herr, Hcode, Hstate.
    cbn [String.eqb Ascii.eqb Bool.eqb negb].
    destruct code as [| c1 code]; [congruence |].
    destruct state as [| c2 state]; [congruence |].
    cbn [Js.optTruthy Js.truthy negb orb default from_option id].
    unfold tryCatch. unfold bind at 1.
    rewrite (validateState_consumes w (String c2 state) redirect expiry now) by assumption.
    rewrite Htruthy. cbn [negb].
    set (rest := bind (Auth.exchangeCodeForToken gh (String c1 code)) _).
    assert (Hkeep : Keeps (fun w => db w !! stateKey (String c2 state)) rest).
    { subst rest. apply Keeps_bind; [by apply exchangeCodeForToken_keeps |].
      intros accessToken. apply Keeps_bind; [apply createSession_keeps_state |].
      intros [sessionToken session]. apply Keeps_callback_answer. }
    specialize (Hkeep (with_db (delete (stateKey (String c2 state)) (db w)) w)).
    cbn beta in Hkeep. cbn [db with_db] in Hkeep. rewrite lookup_delete_eq in Hkeep.
    destruct (rest _) as [[resp | e] w2]; cbn [snd] in Hkeep; unfold ret; eauto. }
  destruct Hrun as (resp & w' & Hrun & Hgone). exists resp, w'.
  split; [exact Hrun |]. split; [exact Hgone |].
  intros gh' random' now' Hf'.
  apply (callback_invalid_state gh' random' now' request code state); try assumption.
  unfold lookupLive. now rewrite Hgone.
Qed.

Lemma callback_burns_state_witness :
  faults afterLoginStart = [] /\
  Js.truthyValue (deserialize (platform afterLoginStart) "/api/auth/callback") = true /\
  exists resp w',
    Callback.handler refusingGitHub "5f2a" (t0 + 60000) (callbackRequest "c0de" "nonce")
      afterLoginStart = (Ok resp, w') /\
    db w' !! stateKey "nonce" = None /\
    forall gh' random' now',
      faults w' = [] ->
      Callback.handler gh' random' now' (callbackRequest "c0de" "nonce") w'
      = (Ok (Callback.createErrorResponse "invalid_state" "Invalid or expired state parameter"),
         w').
Proof.
  split; [reflexivity |]. split; [reflexivity |].
  refine (callback_burns_state refusingGitHub "5f2a" (t0 + 60000)
            (callbackRequest "c0de" "nonce") "c0de" "nonce" "/api/auth/callback"
            (Some (t0 + 600 * 1000)) afterLoginStart
            eq_refl eq_refl eq_refl _ eq_refl _ eq_refl _ eq_refl).
  - discriminate.
  - discriminate.
  - vm_compute. reflexivity.
Defined.

(** A session stored by [createSession] resolves until it expires. *)
Lemma stored_session_resolves (fuel : nat) (now now' : Z) (random : string)
    (user : GitHubUser.t) (accessToken : string) (d : gmap string Entry) (w1 : World) :
  faults w1 = [] ->
  random <> "" ->
  db w1
  = (Redis.run now (Redis.SADD (userSessionsKey (pretty (GitHubUser.id user))) random)
       (<[sessionKey random
          := mkEntry (RJson (sessionOf user accessToken now)) (Some (now + Auth.expiresIn))]> d)).1 ->
  now' < now + Auth.expiresIn ->
  Auth.getSession (S fuel) now' random w1
  = (Ok (Some (Some (sessionOf user accessToken now))), w1).
Proof.
  intros Hf Hne Hdb Hbefore.
  apply (getSession_found fuel now' random _ (Some (now + Auth.expiresIn)));
    [exact Hf | exact Hne | | cbn; lia].
  rewrite Hdb, run_elsewhere_at by apply session_key_not_user_key.
  rewrite lookupLive_insert_eq. unfold live. cbn [expireAt].
  destruct (Z.ltb_spec now' (now + Auth.expiresIn)); [reflexivity | lia].
Qed.

(** X21: a callback with a good state and a code GitHub accepts logs the
    user in: the code goes to GitHub's token endpoint and the access token to
    its user endpoint, in that order, and the new session token resolves to
    the session of that user for the next thirty days.  What the callback
    answers depends on what the client reads the stored redirect back as.  A
    text that starts with "/cli-callback" gives the success page for the
    command line, any other text the success page for the web with the URL
    the text resolves to against the origin of the request, both carrying the
    session token and the login name.  When the redirect is read back as
    something that is not a text, or as a text that does not resolve, the
    answer is the error page "server_error", and the session is stored all the
    same. *)
Theorem callback_logs_in (gh : GitHub) (random : string) (now : Z) (request : Request)
    (code state redirect accessToken : string) (expiry : option Z) (w : World) :
  method request = "GET" ->
  Js.optTruthy (query request !! "error") = false ->
  query request !! "code" = Some code ->
  code <> "" ->
  query request !! "state" = Some state ->
  state <> "" ->
  faults w = [] ->
  netFaults w = [] ->
  lookupLive now (db w) (stateKey state) = Some (mkEntry (RStr redirect) expiry) ->
  Js.truthyValue (deserialize (platform w) redirect) = true ->
  tokenOk (tokenEndpoint gh code) = true ->
  Js.optTruthy (error (tokenEndpoint gh code)) = false ->
  access_token (tokenEndpoint gh code) = Some accessToken ->
  accessToken <> "" ->
  userOk (userEndpoint gh accessToken) = true ->
  random <> "" ->
  holdsSet now (db w)
    (userSessionsKey (pretty (GitHubUser.id (user (userEndpoint gh accessToken))))) ->
  exists resp w',
    Callback.handler gh random now request w = (Ok resp, w') /\
    outbox w'
    = mkFetch Auth.userUrl accessToken :: mkFetch Auth.tokenUrl code :: outbox w /\
    (forall fuel now',
        now' < now + 30 * 24 * 60 * 60 * 1000 ->
        Auth.getSession (S fuel) now' random w'
        = (Ok (Some (Some (sessionOf (user (userEndpoint gh accessToken)) accessToken now))),
           w')) /\
    (forall text,
        deserialize (platform w) redirect = Js.JText text ->
        Js.startsWith "/cli-callback" text = true ->
        resp = Callback.createCliSuccessResponse random
                 (GitHubUser.login (user (userEndpoint gh accessToken)))) /\
    (forall text redirectUrl,
        deserialize (platform w) redirect = Js.JText text ->
        Js.startsWith "/cli-callback" text = false ->
        resolve (platform w) text (origin request) = Some redirectUrl ->
        resp = Callback.createWebSuccessResponse random
                 (GitHubUser.login (user (userEndpoint gh accessToken))) redirectUrl) /\
    ((forall text, deserialize (platform w) redirect <> Js.JText text) \/
     (exists text,
         deserialize (platform w) redirect = Js.JText text /\
         Js.startsWith "/cli-callback" text = false /\
         resolve (platform w) text (origin request) = None) ->
     exists description, resp = Callback.createErrorResponse "server_error" description).
Proof.
  intros Hm Herr Hcode Hc Hstate Hs Hf Hn Hlive Htruthy Hok Hnoerr Htoken Hat Huser Hr Hset.
  unfold Callback.handler. rewrite Hm, Herr, Hcode, Hstate.
  cbn [String.eqb Ascii.eqb Bool.eqb negb].
  assert (Htc : Js.truthy code = true) by (destruct code; [congruence | reflexivity]).
  assert (Hts : Js.truthy state = true) by (destruct state; [congruence | reflexivity]).
  cbn [Js.optTruthy default from_option id]. rewrite Htc, Hts. cbn [negb orb].
  unfold tryCatch. unfold bind at 1.
  rewrite (validateState_consumes w state redirect expiry now) by assumption.
  rewrite Htruthy. cbn [negb].
  unfold bind at 1. unfold Auth.exchangeCodeForToken, bind at 1. unfold fetch at 1.
  cbn [netFaults with_db]. rewrite Hn, Hok, Hnoerr, Htoken.
  destruct accessToken as [| c4 accessToken]; [congruence |].
  cbn [Js.optTruthy Js.truthy negb default from_option id].
  unfold ret at 1. unfold bind at 1.
  rewrite createSession_ok; [| exact Hf | exact Hn | exact Huser |].
  2: { intros e He. cbn [db with_db with_outbox] in He.
       rewrite lookupLive_delete_ne in He; [now apply Hset |].
       intros Heq. symmetry in Heq. now apply state_key_not_user_key in Heq. }
  set (w2 := with_db _ _).
  assert (Hsession : forall fuel now',
             now' < now + 30 * 24 * 60 * 60 * 1000 ->
             Auth.getSession (S fuel) now' random w2
             = (Ok (Some (Some (sessionOf (user (userEndpoint gh (String c4 accessToken)))
                                  (String c4 accessToken) now))), w2)).
  { intros fuel now' Hbefore.
    apply (stored_session_resolves fuel now now' random _ _
             (delete (stateKey state) (db w)));
      [exact Hf | exact Hr | reflexivity | unfold Auth.expiresIn; lia]. }
  assert (Hout : outbox w2
                 = mkFetch Auth.userUrl (String c4 accessToken)
                   :: mkFetch Auth.tokenUrl code :: outbox w) by reflexivity.
  assert (Hplat : platform w2 = platform w) by reflexivity.
  clearbody w2.
  destruct (deserialize (platform w) redirect) as [| b | q | text |] eqn:Hread.
  1-3, 5: (eexists _, w2; split; [reflexivity |]; split; [exact Hout |];
           split; [exact Hsession |];
           split; [intros ? [=] |]; split; [intros ? ? [=] |];
           intros _; eexists; reflexivity).
  destruct (Js.startsWith "/cli-callback" text) eqn:Hcli.
  { eexists _, w2. split; [reflexivity |]. split; [exact Hout |]. split; [exact Hsession |].
    split; [reflexivity |]. split.
    - intros text' url [= <-] Hweb. rewrite Hcli in Hweb. discriminate Hweb.
    - intros [Hnot | (text' & [= <-] & Hweb & _)];
        [by destruct (Hnot text) | rewrite Hcli in Hweb; discriminate Hweb]. }
  unfold bind, Callback.newURL. rewrite Hplat.
  destruct (resolve (platform w) text (origin request)) as [url |] eqn:Hurl.
  - eexists _, w2. split; [reflexivity |]. split; [exact Hout |]. split; [exact Hsession |].
    split; [intros text' [= <-] Hyes; rewrite Hcli in Hyes; discriminate Hyes |].
    split.
    + intros text' url' [= <-] _. rewrite Hurl. now intros [= <-].
    + intros [Hnot | (text' & [= <-] & _ & Hno)];
        [by destruct (Hnot text) | rewrite Hurl in Hno; discriminate Hno].
  - eexists _, w2. split; [reflexivity |]. split; [exact Hout |]. split; [exact Hsession |].
    split; [intros text' [= <-] Hyes; rewrite Hcli in Hyes; discriminate Hyes |].
    split.
    + intros text' url' [= <-] _. rewrite Hurl. discriminate.
    + intros _. eexists. reflexivity.
Qed.

Lemma callback_logs_in_witness :
  faults afterLoginStart = [] /\
  deserialize (platform afterLoginStart) "/api/auth/callback" = Js.JText "/api/auth/callback" /\
  resolve (platform afterLoginStart) "/api/auth/callback"
    (origin (callbackRequest "c0de" "nonce"))
  = Some "https://proxy.example/api/auth/callback" /\
  exists w',
    Callback.handler friendlyGitHub "5f2a" (t0 + 60000) (callbackRequest "c0de" "nonce")
      afterLoginStart
    = (Ok (Callback.createWebSuccessResponse "5f2a"
             (GitHubUser.login (user (userEndpoint friendlyGitHub "gho_x")))
             "https://proxy.example/api/auth/callback"), w') /\
    outbox w'
    = mkFetch Auth.userUrl "gho_x" :: mkFetch Auth.tokenUrl "c0de" :: outbox afterLoginStart /\
    forall fuel now',
      now' < t0 + 60000 + 30 * 24 * 60 * 60 * 1000 ->
      Auth.getSession (S fuel) now' "5f2a" w'
      = (Ok (Some (Some (sessionOf (user (userEndpoint friendlyGitHub "gho_x")) "gho_x"
                           (t0 + 60000)))), w').
Proof.
  split; [reflexivity |]. split; [reflexivity |]. split; [reflexivity |].
  destruct (callback_logs_in friendlyGitHub "5f2a" (t0 + 60000) (callbackRequest "c0de" "nonce")
              "c0de" "nonce" "/api/auth/callback" "gho_x" (Some (t0 + 600 * 1000))
              afterLoginStart)
    as (resp & w' & Hrun & Hout & Hsession & _ & Hweb & _);
    try reflexivity; try discriminate.
  exists w'. split; [| split; [exact Hout | exact Hsession]].
  rewrite Hrun. f_equal. f_equal.
  exact (Hweb "/api/auth/callback" "https://proxy.example/api/auth/callback"
           eq_refl eq_refl eq_refl).
Defined.

(** ** The device flow *)

Ltac poll_cases :=
  repeat split; try discriminate; try tauto; try congruence;
  try (intros [? | ?]; congruence).

(** X22: a poll of the device flow creates a session only when GitHub
    hands out a token.  While GitHub reports an error or no token, the poll
    is answered 200 with the status and no token: "pending" exactly for
    [authorization_pending] and [slow_down], "expired" exactly for
    [expired_token], "error" otherwise, an error winning over a token sent
    along with it; nothing is read from or written to the store.  When
    GitHub hands out a token, the answer carries a new session token and the
    login name, and the session token resolves to the session of that user. *)
Theorem device_poll (gh : GitHub) (dgh : DeviceGitHub) (random : string) (now : Z)
    (request : Request) (deviceCode : string) (w : World) :
  method request = "POST" ->
  deviceCode <> "" ->
  netFaults w = [] ->
  ((Js.optTruthy (error (deviceTokenEndpoint dgh deviceCode)) = true \/
    Js.optTruthy (access_token (deviceTokenEndpoint dgh deviceCode)) = false) ->
   exists status failure,
     Device.handlePoll gh dgh random now request (Device.PollJson (Some deviceCode)) w
     = (Ok (Device.jsonResponse (Device.Polled status None None failure) 200),
        with_outbox (mkFetch Auth.tokenUrl deviceCode :: outbox w) w) /\
     status <> PollStatus.success /\
     (status = PollStatus.pending <->
      error (deviceTokenEndpoint dgh deviceCode) = Some "authorization_pending" \/
      error (deviceTokenEndpoint dgh deviceCode) = Some "slow_down") /\
     (status = PollStatus.expired <->
      error (deviceTokenEndpoint dgh deviceCode) = Some "expired_token")) /\
  (forall accessToken,
      Js.optTruthy (error (deviceTokenEndpoint dgh deviceCode)) = false ->
      access_token (deviceTokenEndpoint dgh deviceCode) = Some accessToken ->
      accessToken <> "" ->
      faults w = [] ->
      userOk (userEndpoint gh accessToken) = true ->
      random <> "" ->
      holdsSet now (db w)
        (userSessionsKey (pretty (GitHubUser.id (user (userEndpoint gh accessToken))))) ->
      exists w',
        Device.handlePoll gh dgh random now request (Device.PollJson (Some deviceCode)) w
        = (Ok (Device.jsonResponse
                 (Device.Polled PollStatus.success (Some random)
                    (Some (GitHubUser.login (user (userEndpoint gh accessToken)),
                           GitHubUser.name (user (userEndpoint gh accessToken)))) None) 200),
           w') /\
        forall fuel now',
          now' < now + 30 * 24 * 60 * 60 * 1000 ->
          Auth.getSession (S fuel) now' random w'
          = (Ok (Some (Some (sessionOf (user (userEndpoint gh accessToken)) accessToken now))),
             w')).
Proof.
  intros Hm Hcode Hn.
  assert (Htruthy : Js.truthy deviceCode = true)
    by (destruct deviceCode; [congruence | reflexivity]).
  split.
  - intros Hnot. unfold Device.handlePoll. rewrite Hm.
    cbn [String.eqb Ascii.eqb Bool.eqb negb Js.optTruthy default from_option id].
    rewrite Htruthy. cbn [negb].
    unfold tryCatch. unfold bind at 1. unfold pollDeviceToken, bind at 1. unfold fetch.
    rewrite Hn.
    repeat case_bool_decide.
    + eexists _, _. split; [reflexivity |]. poll_cases.
    + eexists _, _. split; [reflexivity |]. poll_cases.
    + eexists _, _. split; [reflexivity |]. poll_cases.
    + destruct (Js.optTruthy (error (deviceTokenEndpoint dgh deviceCode))) eqn:Herr.
      * eexists _, _. split; [reflexivity |]. poll_cases.
      * destruct Hnot as [Hnot | Hnot]; [discriminate |]. rewrite Hnot.
        eexists _, _. split; [reflexivity |]. poll_cases.
  - intros accessToken Hnoerr Htoken Hat Hf Huser Hr Hset.
    unfold Device.handlePoll. rewrite Hm.
    cbn [String.eqb Ascii.eqb Bool.eqb negb Js.optTruthy default from_option id].
    rewrite Htruthy. cbn [negb].
    unfold tryCatch. unfold bind at 1. unfold pollDeviceToken, bind at 1. unfold fetch at 1.
    rewrite Hn.
    assert (Hfalsy : forall text, text <> "" ->
               error (deviceTokenEndpoint dgh deviceCode) <> Some text).
    { intros text Htext Heq. rewrite Heq in Hnoerr. destruct text; [congruence | discriminate]. }
    rewrite !bool_decide_eq_false_2 by (apply Hfalsy; discriminate).
    rewrite Hnoerr, Htoken.
    assert (Hta : Js.truthy accessToken = true)
      by (destruct accessToken; [congruence | reflexivity]).
    cbn [Js.optTruthy]. rewrite Hta. unfold ret at 1.
    cbn [Poll.status Poll.token Device.isSuccess andb Js.optTruthy default from_option id].
    rewrite Hta. unfold bind at 1.
    rewrite createSession_ok; [| exact Hf | exact Hn | exact Huser | exact Hset].
    eexists. split; [reflexivity |].
    intros fuel now' Hbefore.
    apply (stored_session_resolves fuel now now' random _ _ (db w));
      [exact Hf | exact Hr | reflexivity | unfold Auth.expiresIn; lia].
Qed.

Lemma device_poll_witness :
  exists status failure,
    Device.handlePoll friendlyGitHub waitingGitHub "5f2a" t0 pollRequest
      (Device.PollJson (Some "dev-1")) emptyWorld
    = (Ok (Device.jsonResponse (Device.Polled status None None failure) 200),
       with_outbox (mkFetch Auth.tokenUrl "dev-1" :: outbox emptyWorld) emptyWorld) /\
    status <> PollStatus.success /\
    (status = PollStatus.pending <->
     error (deviceTokenEndpoint waitingGitHub "dev-1") = Some "authorization_pending" \/
     error (deviceTokenEndpoint waitingGitHub "dev-1") = Some "slow_down") /\
    (status = PollStatus.expired <->
     error (deviceTokenEndpoint waitingGitHub "dev-1") = Some "expired_token").
Proof.
  refine (proj1 (device_poll friendlyGitHub waitingGitHub "5f2a" t0 pollRequest "dev-1"
                   emptyWorld eq_refl _ eq_refl) _).
  - discriminate.
  - left. reflexivity.
Defined.

(** ** GET /api/health *)

Lemma healthy_count (keys : list GeminiKey) :
  length (List.filter KeyHealth.isHealthy
            (map (fun k => KeyHealth.mk (name k) (isHealthy k) (lastError k) (requestCount k))
               keys))
  = length (List.filter isHealthy keys).
Proof.
  induction keys as [| k keys IH]; [reflexivity |].
  cbn [map List.filter KeyHealth.isHealthy]. destruct (isHealthy k); cbn [length]; now rewrite IH.
Qed.

Lemma healthy_count_zero (keys : list GeminiKey) :
  length (List.filter isHealthy keys) = 0%nat <-> forall k, k ∈ keys -> isHealthy k = false.
Proof.
  induction keys as [| k keys IH]; cbn [List.filter].
  - split; [intros _ k Hk; by apply elem_of_nil in Hk | reflexivity].
  - destruct (isHealthy k) eqn:Hk; cbn [length].
    + split; [discriminate |]. intros Hall. specialize (Hall k (list_elem_of_here _ _)).
      congruence.
    + rewrite IH. split.
      * intros Hall k' Hk'. apply elem_of_cons in Hk' as [-> | Hk']; [exact Hk | by apply Hall].
      * intros Hall k' Hk'. apply Hall. by apply list_elem_of_further.
Qed.

Lemma healthy_count_le (keys : list GeminiKey) :
  (length (List.filter isHealthy keys) <= length keys)%nat.
Proof.
  induction keys as [| k keys IH]; [reflexivity |].
  cbn [List.filter]. destruct (isHealthy k); cbn [length]; lia.
Qed.

Ltac verdict :=
  split;
  [ reflexivity
  | split;
    [ let H := fresh in
      intros H; first [discriminate H | left; exact H | right; lia | left; reflexivity]
    | let H := fresh in
      intros [H | H]; first [reflexivity | discriminate H | congruence | lia] ] ].

Lemma judgeKeys_verdict (healthyKeys totalKeys : Z) (h : Health.HealthResponse) :
  0 <= healthyKeys <= totalKeys ->
  Health.redis (Health.judgeKeys healthyKeys totalKeys h) = Health.redis h /\
  (Health.status (Health.judgeKeys healthyKeys totalKeys h) = Health.unhealthy <->
   Health.status h = Health.unhealthy \/ healthyKeys = 0).
Proof.
  intros Hcount. unfold Health.judgeKeys.
  destruct (Z.eqb_spec totalKeys 0) as [Ht | Ht]; [cbn; verdict |].
  destruct (Z.eqb_spec healthyKeys 0) as [Hh | Hh]; [cbn; verdict |].
  destruct (Z.ltb_spec healthyKeys totalKeys).
  - destruct (Health.status h) eqn:Hs; cbn; rewrite ?Hs; verdict.
  - verdict.
Qed.

(** X23: the health probe answers every GET, with 200 or 503, and the
    store component reads "error" exactly when the ping failed, which it
    does when the store did not answer or the environment does not name it.
    The answer is 503 exactly when the ping failed or no configured
    credential is healthy (none being configured included), with one
    exception: asked for the metrics in a deployment whose environment lacks
    the store, the probe answers 200 "degraded" although its ping failed,
    because the failure of the metrics read overwrites the verdict.  The
    probe writes nothing to the store, sends nothing out, and leaves every
    record of the credential table as it found it: it neither marks nor
    revives a key. *)
Theorem health_probe (commitSha : option string) (env : Env) (now : Z) (request : Request)
    (w : World) :
  method request = "GET" ->
  exists code health w',
    Health.handler commitSha env now request w = (Ok (Health.Report code health), w') /\
    (code = 200 \/ code = 503) /\
    (Health.redis health = Health.error <->
     storeConfigured env = false \/ head (faults w) = Some true) /\
    (query request !! "metrics" = Some "true" ->
     storeConfigured env = false ->
     code = 200 /\
     Health.status health = Health.degraded /\
     Health.gemini health = Health.error /\
     Health.metrics health = None) /\
    (query request !! "metrics" <> Some "true" \/ storeConfigured env = true ->
     (code = 503 <->
      (storeConfigured env = false \/ head (faults w) = Some true) \/
      noHealthyKey env (keyStates w))) /\
    db w' = db w /\
    outbox w' = outbox w /\
    keepsRecords (keyStates w) (keyStates w').
Proof.
  intros Hm. unfold Health.handler. rewrite Hm. cbn [String.eqb Ascii.eqb Bool.eqb negb].
  set (health0 := Health.mkHealthResponse _ _ _ _ _ _).
  set (pingFailed := storeConfigured env = false \/ head (faults w) = Some true).
  unfold bind at 1.
  assert (Hping : exists health1 w1,
             tryCatch
               ((if storeConfigured env then roundTrip else throw (mkError "fetch failed")) ;;
                ret (Health.withRedis Health.ok health0))
               (fun _ => ret (Health.withStatus Health.unhealthy
                                (Health.withRedis Health.error health0))) w
             = (Ok health1, w1) /\
             db w1 = db w /\ outbox w1 = outbox w /\ keyStates w1 = keyStates w /\
             (Health.redis health1 = Health.error <-> pingFailed) /\
             (Health.status health1 = Health.unhealthy <-> pingFailed) /\
             Health.metrics health1 = None).
  { unfold tryCatch, bind, roundTrip, ret, throw, pingFailed.
    destruct (storeConfigured env); [destruct (faults w) as [| [] rest] |];
      eexists _, _; (split; [reflexivity |]);
      cbn; repeat split; try reflexivity; try discriminate;
      try (intros [H | H]; discriminate H); auto. }
  destruct Hping as (health1 & w1 & -> & Hdb1 & Hout1 & Hks1 & Hredis & Hstatus & Hnone).
  unfold bind at 1. unfold tryCatch. unfold bind at 1. unfold getKeyHealth.
  pose proof (getConfiguredKeys_keeps env (keyStates w1)) as Hkeeps.
  unfold noHealthyKey. rewrite <- Hks1.
  destruct (getConfiguredKeys env (keyStates w1)) as [keys ks1]. cbn [fst snd] in *.
  rewrite length_map, healthy_count.
  destruct (judgeKeys_verdict (Z.of_nat (length (List.filter isHealthy keys)))
              (Z.of_nat (length keys)) health1) as [Hjr Hjs].
  { pose proof (healthy_count_le keys). lia. }
  set (judged := Health.judgeKeys _ _ health1) in *.
  assert (Hverdict : Health.status judged = Health.unhealthy <->
                     pingFailed \/ forall k, k ∈ keys -> isHealthy k = false).
  { rewrite Hjs, Hstatus, <- healthy_count_zero. split; (intros [? | ?]; [by left | right; lia]). }
  assert (Hdone : forall final w',
             Health.status final = Health.status judged ->
             Health.redis final = Health.redis judged ->
             (query request !! "metrics" = Some "true" -> storeConfigured env = true) ->
             db w' = db w -> outbox w' = outbox w -> keepsRecords (keyStates w1) (keyStates w') ->
             exists code health w'',
               ret (Health.Report
                      match Health.status final with
                      | Health.healthy => 200
                      | Health.degraded => 200
                      | Health.unhealthy => 503
                      end final) w' = (Ok (Health.Report code health), w'') /\
               (code = 200 \/ code = 503) /\
               (Health.redis health = Health.error <-> pingFailed) /\
               (query request !! "metrics" = Some "true" ->
                storeConfigured env = false ->
                code = 200 /\
                Health.status health = Health.degraded /\
                Health.gemini health = Health.error /\
                Health.metrics health = None) /\
               (query request !! "metrics" <> Some "true" \/ storeConfigured env = true ->
                (code = 503 <->
                 pingFailed \/ forall k, k ∈ keys -> isHealthy k = false)) /\
               db w'' = db w /\ outbox w'' = outbox w /\
               keepsRecords (keyStates w1) (keyStates w'')).
  { intros final w' Hs Hr Hq Hd Ho Hk. eexists _, _, _. split; [reflexivity |].
    rewrite Hs, Hr, Hjr, <- Hverdict.
    split; [destruct (Health.status judged); auto |].
    split; [exact Hredis |].
    split; [intros Hasked Hnot; rewrite (Hq Hasked) in Hnot; discriminate Hnot |].
    split; [| auto].
    intros _. destruct (Health.status judged); split; intros; try reflexivity; discriminate. }
  destruct (bool_decide (query request !! "metrics" = Some "true")) eqn:Hasked.
  - apply bool_decide_eq_true_1 in Hasked.
    unfold bind at 1.
    destruct (storeConfigured env) eqn:Hc.
    + pose proof (getTodayMetrics_resolves env now (with_keyStates ks1 w1) Hc) as [today Htoday].
      pose proof (getTodayMetrics_reads db env now (fun _ _ => eq_refl) (with_keyStates ks1 w1))
        as Hd.
      pose proof (getTodayMetrics_reads outbox env now (fun _ _ => eq_refl)
                    (with_keyStates ks1 w1)) as Ho.
      pose proof (getTodayMetrics_reads keyStates env now (fun _ _ => eq_refl)
                    (with_keyStates ks1 w1)) as Hk.
      destruct (getTodayMetrics env now (with_keyStates ks1 w1)) as [r w2]. cbn [fst snd] in *.
      subst r. unfold ret at 1.
      apply Hdone; [reflexivity | reflexivity | reflexivity | rewrite Hd; exact Hdb1
                   | rewrite Ho; exact Hout1 |].
      rewrite Hk. exact Hkeeps.
    + rewrite getTodayMetrics_unconfigured by exact Hc. unfold ret.
      eexists _, _, _. split; [reflexivity |]. cbn.
      split; [by left |].
      split; [exact Hredis |].
      split; [intros _ _; repeat split; exact Hnone |].
      split; [intros [Hno | Hyes]; [by destruct Hno | discriminate Hyes] |].
      auto.
  - apply bool_decide_eq_false_1 in Hasked.
    unfold ret at 1. apply Hdone; [reflexivity | reflexivity | | exact Hdb1 | exact Hout1 |].
    + intros Hyes. by destruct Hasked.
    + exact Hkeeps.
Qed.

Lemma health_probe_witness :
  method healthRequest = "GET" /\
  exists code health w',
    Health.handler None unconfiguredEnv t0 healthRequest poolWorld
    = (Ok (Health.Report code health), w') /\
    code = 200 /\
    Health.status health = Health.degraded /\
    Health.redis health = Health.error.
Proof.
  split; [reflexivity |].
  destruct (health_probe None unconfiguredEnv t0 healthRequest poolWorld eq_refl)
    as (code & health & w' & Hrun & _ & Hredis & Hquirk & _).
  exists code, health, w'. split; [exact Hrun |].
  destruct (Hquirk eq_refl eq_refl) as (Hcode & Hstatus & _).
  split; [exact Hcode |]. split; [exact Hstatus |].
  apply Hredis. left. reflexivity.
Defined.

(** ** [escapeHtml] *)

Lemma replaceAll_app (c : ascii) (by_ a b : string) :
  replaceAll c by_ (a +:+ b) = replaceAll c by_ a +:+ replaceAll c by_ b.
Proof.
  induction a as [| x a IH]; [reflexivity |].
  change (String x a +:+ b) with (String x (a +:+ b)). cbn [replaceAll].
  destruct (Ascii.eqb x c).
  - now rewrite IH, append_assoc.
  - now rewrite IH.
Qed.

Lemma escapeHtml_cons (c : ascii) (s : string) :
  escapeHtml (String c s) = escapeChar c +:+ escapeHtml s.
Proof.
  unfold escapeHtml, escapeChar. cbn [replaceAll].
  destruct (Ascii.eqb_spec c "&") as [-> | Hamp]; [now rewrite !replaceAll_app |].
  cbn [replaceAll].
  destruct (Ascii.eqb_spec c "<") as [-> | Hlt]; [now rewrite !replaceAll_app |].
  cbn [replaceAll].
  destruct (Ascii.eqb_spec c ">") as [-> | Hgt]; [now rewrite !replaceAll_app |].
  cbn [replaceAll].
  destruct (Ascii.eqb_spec c quote) as [-> | Hquote]; [now rewrite !replaceAll_app |].
  cbn [replaceAll].
  destruct (Ascii.eqb_spec c "'") as [-> | Hapos]; reflexivity.
Qed.

Lemma hasChar_app (c : ascii) (a b : string) :
  hasChar c (a +:+ b) = hasChar c a || hasChar c b.
Proof.
  induction a as [| x a IH]; [reflexivity |].
  change (String x a +:+ b) with (String x (a +:+ b)). cbn [hasChar].
  now rewrite IH, orb_assoc.
Qed.

Lemma escapeChar_safe (c special : ascii) :
  special = "<"%char \/ special = ">"%char \/ special = quote \/ special = "'"%char ->
  hasChar special (escapeChar c) = false.
Proof.
  intros Hspecial. unfold escapeChar.
  destruct (Ascii.eqb_spec c "&"); [destruct Hspecial as [-> | [-> | [-> | ->]]]; reflexivity |].
  destruct (Ascii.eqb_spec c "<"); [destruct Hspecial as [-> | [-> | [-> | ->]]]; reflexivity |].
  destruct (Ascii.eqb_spec c ">"); [destruct Hspecial as [-> | [-> | [-> | ->]]]; reflexivity |].
  destruct (Ascii.eqb_spec c quote);
    [destruct Hspecial as [-> | [-> | [-> | ->]]]; reflexivity |].
  destruct (Ascii.eqb_spec c "'"); [destruct Hspecial as [-> | [-> | [-> | ->]]]; reflexivity |].
  cbn [hasChar]. rewrite orb_false_r. apply Ascii.eqb_neq.
  destruct Hspecial as [-> | [-> | [-> | ->]]]; assumption.
Qed.

(** X24: [escapeHtml] writes every character on its own: the five
    replacements in a row come to writing "&amp;", "&lt;", "&gt;", "&quot;"
    and "&#039;" for the five special characters and every other character
    as it is, the ampersands of the entities themselves not being escaped
    again.  The text it returns holds no angle bracket and no quotation mark
    of either kind. *)
Theorem escapeHtml_entities (str : string) :
  escapeHtml "" = "" /\
  (forall c rest, escapeHtml (String c rest) = escapeChar c +:+ escapeHtml rest) /\
  hasChar "<" (escapeHtml str) = false /\
  hasChar ">" (escapeHtml str) = false /\
  hasChar quote (escapeHtml str) = false /\
  hasChar "'" (escapeHtml str) = false.
Proof.
  split; [reflexivity |]. split; [apply escapeHtml_cons |].
  induction str as [| c str (IH1 & IH2 & IH3 & IH4)]; [by repeat split |].
  rewrite escapeHtml_cons, !hasChar_app, IH1, IH2, IH3, IH4, !orb_false_r.
  repeat split; apply escapeChar_safe; auto.
Qed.

(** ** Handlers that answer whatever happens *)

Lemma tryCatch_resolves {A : Type} (m : M A) (h : Error -> A) (w : World) :
  exists a w', tryCatch m (fun e => ret (h e)) w = (Ok a, w').
Proof. unfold tryCatch, ret. destruct (m w) as [[a | e] w']; eauto. Qed.

(** X25: the handlers of the login flows and the health probe turn
    every failure into a response: whatever the request, the store, the
    network and GitHub do, they return and do not reject.  The read of
    /api/auth/me is not of that kind: with a bearer token, a failure of the
    store leaves the handler as an exception. *)
Theorem handlers_always_reply (now : Z) (request : Request) (w : World) :
  (forall gh random, exists resp w', Callback.handler gh random now request w = (Ok resp, w')) /\
  (forall random, exists resp w', Github.handler random now request w = (Ok resp, w')) /\
  (forall gh dgh random pathname body,
      exists reply w', Device.handler gh dgh random now pathname request body w = (Ok reply, w')) /\
  (forall commitSha env, exists reply w', Health.handler commitSha env now request w = (Ok reply, w')) /\
  (forall fuel token rest,
      method request = "GET" ->
      headers_get request "Authorization" = Some ("Bearer " +:+ token) ->
      token <> "" ->
      faults w = true :: rest ->
      Me.handler (S fuel) now request w = (Throw (mkError "fetch failed"), with_faults rest w)).
Proof.
  split; [| split; [| split; [| split]]].
  - intros gh random. unfold Callback.handler.
    destruct (negb _); [unfold ret; eauto | apply tryCatch_resolves].
  - intros random. unfold Github.handler.
    destruct (negb _); [unfold ret; eauto |].
    apply (tryCatch_resolves _
             (fun _ => mkResponse 500 (PlainError "Failed to initiate OAuth")
                         [("Content-Type", "application/json")])).
  - intros gh dgh random pathname body. unfold Device.handler, Device.handlePoll, Device.handleStart.
    destruct (String.eqb _ _); [unfold ret; eauto |].
    destruct (endsWith _ _); (destruct (negb _); [unfold ret; eauto | apply tryCatch_resolves]).
  - intros commitSha env. unfold Health.handler.
    destruct (negb _); [unfold ret; eauto |].
    unfold bind at 1.
    match goal with
    | |- context [tryCatch ?m (fun _ => ret ?h) w] =>
        destruct (tryCatch_resolves m (fun _ => h) w) as (health1 & w1 & ->)
    end.
    unfold bind at 1.
    match goal with
    | |- context [tryCatch ?m (fun _ => ret ?h) w1] =>
        destruct (tryCatch_resolves m (fun _ => h) w1) as (health2 & w2 & ->)
    end.
    unfold ret. eauto.
  - intros fuel token rest Hm Hauth Hne Hf.
    unfold Me.handler, Me.handleGetUser, validateRequest. rewrite Hm, Hauth.
    cbn [String.eqb Ascii.eqb Bool.eqb Js.optStartsWith].
    change (Js.startsWith "Bearer " ("Bearer " +:+ token)) with true.
    cbn [negb default from_option id].
    change (Js.slice 7 ("Bearer " +:+ token)) with token.
    cbn [Auth.getSession]. destruct token as [| c token]; [congruence |].
    cbn [Js.truthy negb]. unfold bind. now rewrite (get_fails _ _ _ rest).
Qed.

Lemma handlers_always_reply_witness :
  Me.handler 1 t0 (meRequest "GET" "5f2a") (overBudgetWorld [true])
  = (Throw (mkError "fetch failed"), with_faults [] (overBudgetWorld [true])).
Proof.
  refine (proj2 (proj2 (proj2 (proj2
            (handlers_always_reply t0 (meRequest "GET" "5f2a") (overBudgetWorld [true])))))
            0%nat "5f2a" [] eq_refl eq_refl _ eq_refl).
  discriminate.
Defined.

(** ** The status read of the rate-limit library *)

(** X26: in a deployment whose environment lacks the URL or the token
    of the store, [getRateLimitStatus] rejects with "Missing Upstash Redis
    configuration": the call that makes the client stands before the [try].
    With the store configured it never rejects.  When the read fails it
    reports the full allowance, 5 or 25 by tier, and success; when the store
    answers and the key holds a counter or nothing, what is left is the
    allowance less the count read, never below zero, and success exactly
    when something is left.  The reset it reports is the next UTC midnight,
    in seconds. *)
Theorem status_read (env : Env) (who : string) (t : Tier) (now : Z) (w : World) :
  (storeConfigured env = false ->
   RateLimiting.getRateLimitStatus env who t now w
   = (Throw (mkError "Missing Upstash Redis configuration"), w)) /\
  (storeConfigured env = true ->
   exists result w',
     RateLimiting.getRateLimitStatus env who t now w = (Ok result, w') /\
     RateLimiting.limit result = (if decide (t = anonymous) then 5 else 25) /\
     RateLimiting.tier result = t /\
     now < RateLimiting.reset result * 1000 <= now + 86400000 /\
     RateLimiting.reset result * 1000 mod 86400000 = 0 /\
     (head (faults w) = Some true ->
      RateLimiting.success result = true /\
      RateLimiting.remaining result = RateLimiting.limit result) /\
     (head (faults w) <> Some true ->
      holdsCounter now (db w)
        ("rocket:ratelimit:" +:+ RateLimiting.identifier (RateLimiting.RATE_LIMITS t)
         +:+ ":" +:+ who) ->
      RateLimiting.remaining result
      = Z.max 0 (RateLimiting.limit result
                 - counterAt now (db w)
                     ("rocket:ratelimit:" +:+ RateLimiting.identifier (RateLimiting.RATE_LIMITS t)
                      +:+ ":" +:+ who)) /\
      (RateLimiting.success result = true <-> 0 < RateLimiting.remaining result))).
Proof.
  split.
  { intros Hc. unfold RateLimiting.getRateLimitStatus. unfold bind at 1.
    now rewrite getRedis_throws by exact Hc. }
  intros Hc.
  assert (Hreset : now < RateLimiting.endOfDay now * 1000 <= now + 86400000 /\
                   RateLimiting.endOfDay now * 1000 mod 86400000 = 0).
  { unfold RateLimiting.endOfDay, msPerDay. Z.div_mod_to_equations. lia. }
  assert (Hlimit : RateLimiting.requests (RateLimiting.RATE_LIMITS t)
                   = if decide (t = anonymous) then 5 else 25) by now destruct t.
  unfold RateLimiting.getRateLimitStatus. unfold bind at 1. rewrite getRedis_ok by exact Hc.
  unfold Redis.get, tryCatch, bind, roundTrip, ret.
  destruct (faults w) as [| [] rest] eqn:Hf; eexists _, _; (split; [reflexivity |]);
    cbn [RateLimiting.limit RateLimiting.tier RateLimiting.remaining RateLimiting.reset
         RateLimiting.success head db with_faults];
    (split; [exact Hlimit |]); (split; [reflexivity |]).
  - split; [apply Hreset |]. split; [apply Hreset |].
    split; [discriminate |]. intros _ _. rewrite append_assoc. unfold counterAt.
    split; [reflexivity |]. apply Z.ltb_lt.
  - split; [apply Hreset |]. split; [apply Hreset |].
    split; [now intros _ |]. congruence.
  - split; [apply Hreset |]. split; [apply Hreset |].
    split; [discriminate |]. intros _ _. rewrite append_assoc. unfold counterAt.
    split; [reflexivity |]. apply Z.ltb_lt.
Qed.

Lemma status_read_witness :
  storeConfigured unconfiguredEnv = false /\
  storeConfigured oneKeyEnv = true /\
  RateLimiting.getRateLimitStatus unconfiguredEnv "ip:4pl4mu" anonymous t0 emptyWorld
  = (Throw (mkError "Missing Upstash Redis configuration"), emptyWorld) /\
  exists result w',
    RateLimiting.getRateLimitStatus oneKeyEnv "ip:4pl4mu" anonymous t0 (overBudgetWorld [true])
    = (Ok result, w') /\
    RateLimiting.success result = true /\
    RateLimiting.remaining result = RateLimiting.limit result.
Proof.
  split; [reflexivity |]. split; [reflexivity |]. split.
  - exact (proj1 (status_read unconfiguredEnv "ip:4pl4mu" anonymous t0 emptyWorld) eq_refl).
  - destruct (proj2 (status_read oneKeyEnv "ip:4pl4mu" anonymous t0 (overBudgetWorld [true]))
                eq_refl)
      as (result & w' & Hrun & _ & _ & _ & _ & Hfail & _).
    exists result, w'. split; [exact Hrun |]. exact (Hfail eq_refl).
Defined.
